(** * rpi_metar: retrieval and normalisation of METAR reports

    A shallow embedding of [rpi_metar/sources.py].  Every definition below
    is a transcription of one function or method of that module; the
    Python builtins and third-party calls it relies on ([range], slicing,
    [str.upper], [str.join], [re.finditer] for the two fixed patterns, the
    [retrying] decorator, [requests]) are modelled by their documented
    behaviour, restricted to ASCII text.

    Effects are explicit: a method that talks to the network is a
    function from a [World] (requests sent so far, time slept, log lines)
    to a result and a new [World]; a Python exception is the [Raise]
    branch of [result]. *)

From Stdlib Require Import ZArith Ascii String List Lia PrimFloat Uint63.
From stdpp Require Import base option list gmap strings.
From Equations Require Import Equations.
Import ListNotations.

Set Warnings "-register-all,-inexact-float".

Local Open Scope string_scope.
Local Open Scope list_scope.
Local Open Scope nat_scope.

(** ** Python values, exceptions and results *)

(** The exceptions the modelled code can raise.  [BaseException] stands
    for the exceptions that [except Exception] does not catch
    (cancellation, keyboard interrupt). *)
Inductive exn : Type :=
| ValueError
| KeyError (key : string)
| TypeError
| AttributeError
| ExpatError
| JSONDecodeError
| HTTPError (status : Z)
| ConnectionError
| Timeout
| OSError
| BrowserError
| BaseException.

Inductive result (A : Type) : Type :=
| Ok (a : A)
| Raise (e : exn).
Arguments Ok {A} a.
Arguments Raise {A} e.

Definition is_ok {A} (r : result A) : bool :=
  match r with Ok _ => true | Raise _ => false end.

Definition result_bind {A B} (r : result A) (k : A -> result B) : result B :=
  match r with
  | Ok a => k a
  | Raise e => Raise e
  end.

Notation "'let?' x ':=' r 'in' k" := (result_bind r (λ x, k))
  (at level 10, x name, r at level 100, k at level 200).

(** The values produced by [xmltodict.parse] and [response.json()]:
    strings, [None], integers, booleans, dictionaries (in document
    order) and lists. *)
Inductive pyval : Type :=
| PStr (s : string)
| PNone
| PNum (z : Z)
| PBool (b : bool)
| PDict (items : list (string * pyval))
| PList (elems : list pyval).

(** ** Strings (ASCII model) *)

Module Py.

(** [c.upper()] and [c.lower()] on one ASCII character. *)
Definition upper_ascii (c : ascii) : ascii :=
  let n := nat_of_ascii c in
  if (97 <=? n)%nat && (n <=? 122)%nat then ascii_of_nat (n - 32) else c.

Definition lower_ascii (c : ascii) : ascii :=
  let n := nat_of_ascii c in
  if (65 <=? n)%nat && (n <=? 90)%nat then ascii_of_nat (n + 32) else c.

(** [s.upper()], [s.lower()] *)
Fixpoint upper (s : string) : string :=
  match s with
  | EmptyString => EmptyString
  | String c s' => String (upper_ascii c) (upper s')
  end.

Fixpoint lower (s : string) : string :=
  match s with
  | EmptyString => EmptyString
  | String c s' => String (lower_ascii c) (lower s')
  end.

(** [sep.join(parts)] *)
Fixpoint join (sep : string) (parts : list string) : string :=
  match parts with
  | [] => ""
  | [p] => p
  | p :: rest => p ++ sep ++ join sep rest
  end.

(** [s.split(sep)] for a separator of one character. *)
Fixpoint split_on (sep : ascii) (s : string) : list string :=
  match s with
  | EmptyString => [""]
  | String c s' =>
      if Ascii.eqb c sep then "" :: split_on sep s'
      else match split_on sep s' with
           | t :: ts => String c t :: ts
           | [] => [String c ""]
           end
  end.

(** [sep in s] for a separator of one character. *)
Fixpoint has_char (sep : ascii) (s : string) : bool :=
  match s with
  | EmptyString => false
  | String c s' => Ascii.eqb c sep || has_char sep s'
  end.

(** [x in xs] for a list of strings: the first element equal to [x]. *)
Definition str_in (x : string) (xs : list string) : bool :=
  existsb (String.eqb x) xs.

(** [l[i:j]] for [0 <= i <= j]: indices past the end are clamped. *)
Definition slice {A} (l : list A) (i j : nat) : list A :=
  firstn (j - i) (skipn i l).

(** The loop of [range(i, stop, step)] for a positive step:
    [while i < stop: yield i; i += step]. *)
Equations? range_up (i stop step : nat) : list nat by wf (stop - i) lt :=
  range_up i stop 0 := [];
  range_up i stop (S s) with lt_dec i stop => {
    | left _ := i :: range_up (i + S s) stop (S s);
    | right _ := [] }.
Proof. lia. Qed.

(** [list(range(0, stop, step))]: a zero step is a [ValueError], a
    negative step counts down from 0 and so yields nothing. *)
Definition range0 (stop : nat) (step : Z) : result (list nat) :=
  if (step =? 0)%Z then Raise ValueError
  else if (step <? 0)%Z then Ok []
  else Ok (range_up 0 stop (Z.to_nat step)).

End Py.

(** ** [chunks] *)

(** [def chunks(l, n): for i in range(0, len(l), n): yield l[i:i + n]]
    The generator is consumed in full by its only caller, so it is
    modelled by the list of the groups it yields. *)
Definition chunks {A} (l : list A) (n : Z) : result (list (list A)) :=
  result_bind (Py.range0 (length l) n) (fun starts =>
    Ok (map (fun i => Py.slice l i (i + Z.to_nat n)) starts)).

(** ceil(L / N) on the integers. *)
Definition ceil_div (L N : Z) : Z := ((L + N - 1) / N)%Z.

(** ** The outside world *)

(** [self.url]: a string, or (for the geographic adapter) the fixed
    template [SkyVector.URL] together with the four numbers substituted
    for [{lat1}], [{lon1}], [{lat2}], [{lon2}]. *)
Inductive address : Type :=
| Url (s : string)
| SkyVectorUrl (lat1 lon1 lat2 lon2 : float).

Inductive request : Type :=
| Get (u : address)
| Post (u : address) (data : list (string * pyval)).

Record response : Type := { status_code : Z; text : string }.

(** What one network call comes to: a response of whatever status, or
    a transport-level failure ([ConnectionError], [Timeout]). *)
Inductive outcome : Type :=
| Replied (r : response)
| Failed (e : exn).

(** The providers: the outcome of the [n]-th request of a run. *)
Definition Endpoint : Type := nat -> request -> outcome.

Inductive logline : Type :=
| LogInfoUrl (u : address)
| LogInfo (msg : string)
| LogException (msg : string) (e : exn)
| Printed (msg : string) (e : exn).

Inductive event : Type :=
| Sent (r : request)
| Slept (ms : Z)
| Logged (l : logline)
| SessionOpened
| SessionClosed
| BrowserLaunched
| BrowserClosed.

(** Everything observable that has happened so far, oldest first. *)
Abbreviation World := (list event).

Definition is_sent (e : event) : bool :=
  match e with Sent _ => true | _ => false end.

Definition sent_count (w : World) : nat := length (List.filter is_sent w).

Definition requests_of (w : World) : list request :=
  omap (λ e, match e with Sent r => Some r | _ => None end) w.

Definition sleeps_of (w : World) : list Z :=
  omap (λ e, match e with Slept ms => Some ms | _ => None end) w.

(** ** Effectful code: state and exceptions *)

Definition M (A : Type) : Type := World -> result A * World.

Definition ret {A} (a : A) : M A := λ w, (Ok a, w).

Definition raise {A} (e : exn) : M A := λ w, (Raise e, w).

Definition bind {A B} (m : M A) (k : A -> M B) : M B :=
  λ w, match m w with
       | (Ok a, w') => k a w'
       | (Raise e, w') => (Raise e, w')
       end.

Definition lift {A} (r : result A) : M A := λ w, (r, w).

Definition emit (e : event) : M unit := λ w, (Ok tt, w ++ [e]).

Notation "'let!' x ':=' m 'in' k" := (bind m (λ x, k))
  (at level 10, x name, m at level 100, k at level 200).
Notation "'do!' m 'in' k" := (bind m (λ _, k))
  (at level 10, m at level 100, k at level 200).

(** [try: body except: handler(e)] with a bare [except] (or
    [except BaseException]): every exception reaches the handler. *)
Definition try_except {A} (body : M A) (handler : exn -> M A) : M A :=
  λ w, match body w with
       | (Ok a, w') => (Ok a, w')
       | (Raise e, w') => handler e w'
       end.

(** [try: body finally: cleanup]: the cleanup runs on both exits; an
    exception of the cleanup replaces the outcome of the body. *)
Definition try_finally {A} (body : M A) (cleanup : M unit) : M A :=
  λ w, match body w with
       | (r, w') =>
           match cleanup w' with
           | (Ok _, w'') => (r, w'')
           | (Raise e, w'') => (Raise e, w'')
           end
       end.

(** [for x in xs: acc = step(acc, x)] *)
Fixpoint for_each {A S} (xs : list A) (step : S -> A -> M S) (acc : S) : M S :=
  match xs with
  | [] => ret acc
  | x :: rest => let! acc' := step acc x in for_each rest step acc'
  end.

(** ** Operations on parsed values *)

Fixpoint assoc {V} (k : string) (items : list (string * V)) : option V :=
  match items with
  | [] => None
  | (k', v) :: rest => if String.eqb k k' then Some v else assoc k rest
  end.

(** [v[key]] for a string key. *)
Definition getitem (v : pyval) (key : string) : result pyval :=
  match v with
  | PDict items =>
      match assoc key items with
      | Some x => Ok x
      | None => Raise (KeyError key)
      end
  | _ => Raise TypeError
  end.

(** [v.upper()] *)
Definition upper_method (v : pyval) : result string :=
  match v with
  | PStr s => Ok (Py.upper s)
  | _ => Raise AttributeError
  end.

(** The values a [for] loop over [v] visits: the elements of a list,
    the keys of a dictionary, the characters of a string. *)
Definition iterate (v : pyval) : result (list pyval) :=
  match v with
  | PList elems => Ok elems
  | PDict items => Ok (map (λ kv, PStr (fst kv)) items)
  | PStr s => Ok (map (λ c, PStr (String c "")) (list_ascii_of_string s))
  | _ => Raise TypeError
  end.

(** [v in codes] for a list of strings [codes]. *)
Definition val_in (v : pyval) (codes : list string) : bool :=
  match v with
  | PStr s => Py.str_in s codes
  | _ => false
  end.

(** ** [requests] *)

Section Network.
Variable net : Endpoint.

Definition send (rq : request) : M response :=
  λ w, match net (sent_count w) rq with
       | Replied r => (Ok r, w ++ [Sent rq])
       | Failed e => (Raise e, w ++ [Sent rq])
       end.

(** [requests.get(url, timeout=10.0)] *)
Definition requests_get (u : address) : M response := send (Get u).

(** [requests.post(url, data=payload)], [session.post(...)] *)
Definition requests_post (u : address) (data : list (string * pyval)) : M response :=
  send (Post u data).

(** [response.raise_for_status()]: an [HTTPError] for a 4xx or 5xx
    status, nothing otherwise. *)
Definition raise_for_status (r : response) : M unit :=
  if ((400 <=? status_code r) && (status_code r <? 600))%Z
  then raise (HTTPError (status_code r))
  else ret tt.

(** ** The [retrying] decorator

    [@retry(wait_exponential_multiplier=..., wait_exponential_max=...,
    stop_max_attempt_number=...)]: every exception of the wrapped call
    is a reason to retry; results are never rejected; no jitter. *)
Record Retrying : Type := {
  wait_exponential_multiplier : Z;
  wait_exponential_max : Z;
  stop_max_attempt_number : nat
}.

(** [Retrying.exponential_sleep], in milliseconds:
    [multiplier * 2 ** previous_attempt_number], capped at the maximum. *)
Definition exponential_sleep (p : Retrying) (previous_attempt_number : nat) : Z :=
  let exp := (2 ^ Z.of_nat previous_attempt_number)%Z in
  let result := (wait_exponential_multiplier p * exp)%Z in
  let result := if (result >? wait_exponential_max p)%Z
                then wait_exponential_max p else result in
  if (result <? 0)%Z then 0%Z else result.

(** [Retrying.call]: the loop [while True] from [attempt_number]
    on.  A successful attempt returns; a failed one either stops,
    when [attempt_number >= stop_max_attempt_number], and re-raises the
    exception of that attempt, or sleeps and goes round again. *)
Equations? call {A} (p : Retrying) (fn : M A) (attempt_number : nat) (w : World)
  : result A * World by wf (stop_max_attempt_number p - attempt_number) lt :=
  call p fn attempt_number w with fn w => {
    | (Ok a, w') := (Ok a, w');
    | (Raise e, w') with le_lt_dec (stop_max_attempt_number p) attempt_number => {
        | left _ := (Raise e, w');
        | right _ :=
            call p fn (S attempt_number)
                 (w' ++ [Slept (exponential_sleep p attempt_number)]) } }.
Proof. lia. Qed.

(** ** [METARSource] *)

Definition query_policy : Retrying :=
  {| wait_exponential_multiplier := 1000;
     wait_exponential_max := 10000;
     stop_max_attempt_number := 10 |}.

(** The body of [METARSource._query]. *)
Definition query_body (u : address) : M response :=
  do! emit (Logged (LogInfoUrl u)) in
  try_except
    (let! response := requests_get u in
     do! raise_for_status response in
     ret response)
    (λ e, do! emit (Logged (LogException "Metar query failure." e)) in
          raise e).

(** [METARSource._query], decorator applied. *)
Definition _query (u : address) : M response :=
  call query_policy (query_body u) 1.

End Network.

(** What one attempt of [_query] comes to when it is the [n]-th request
    of the run: the response, or the exception of the attempt. *)
Definition attempt_outcome (net : Endpoint) (n : nat) (u : address) : result response :=
  match net n (Get u) with
  | Failed e => Raise e
  | Replied r =>
      if ((400 <=? status_code r) && (status_code r <? 600))%Z
      then Raise (HTTPError (status_code r))
      else Ok r
  end.

(** The normalised report set: station code to record. *)
Abbreviation Reports := (gmap string pyval).

(** [{'raw_text': v}] *)
Definition raw_text_record (v : pyval) : pyval := PDict [("raw_text", v)].

(** ** The primary and backup API adapters *)

Module NOAA.

Record t : Type := { airport_codes : list string; subdomain : string }.

(** [NOAA.URL.format(airport_codes=..., subdomain=...)] *)
Definition URL (subdomain airport_codes : string) : address :=
  Url ("https://" ++ subdomain ++
       ".aviationweather.gov/adds/dataserver_current/httpparam" ++
       "?dataSource=metars" ++
       "&requestType=retrieve" ++
       "&format=xml" ++
       "&hoursBeforeNow=2" ++
       "&mostRecentForEachStation=true" ++
       "&stationString=" ++ airport_codes).

(** [NOAA.__init__(airport_codes, subdomain)] *)
Definition __init__ (airport_codes : list string) (subdomain : string) : t :=
  {| airport_codes := airport_codes; subdomain := subdomain |}.

(** [NOAA(airport_codes)]: the default subdomain. *)
Definition new (airport_codes : list string) : t := __init__ airport_codes "www".

Section Retrieve.
Variable net : Endpoint.
(** [xmltodict.parse]: the tree of a document, or the parser's error. *)
Variable parsexml : string -> result pyval.

(** [parsexml(response.text)['response']['data']['METAR']], wrapped
    in a list when the provider returned a single entry. *)
Definition envelope (body : string) : result (list pyval) :=
  let? doc := parsexml body in
  let? r := getitem doc "response" in
  let? d := getitem r "data" in
  let? ms := getitem d "METAR" in
  match ms with
  | PList entries => Ok entries
  | single => Ok [single]
  end.

(** [metars[m['station_id'].upper()] = m] *)
Definition store (metars : Reports) (m : pyval) : M Reports :=
  lift (let? sid := getitem m "station_id" in
        let? key := upper_method sid in
        Ok (<[key := m]> metars)).

(** One round of the loop over the chunks. *)
Definition fetch_chunk (self : t) (metars : Reports) (chunk : list string)
  : M Reports :=
  let u := URL (subdomain self) (Py.join "," chunk) in
  let! response := _query net u in
  let! entries :=
    try_finally
      (try_except
         (lift (envelope (text response)))
         (λ e, do! emit (Logged (LogException "Metar response is invalid." e)) in
               raise e))
      (emit (Slept 1000)) in
  for_each entries store metars.

Definition get_metar_info (self : t) : M Reports :=
  let! groups := lift (chunks (airport_codes self) 250) in
  for_each groups (fetch_chunk self) ∅.

End Retrieve.

End NOAA.

Module NOAABackup.

(** [super().__init__(airport_codes, subdomain='bcaws')] *)
Definition new (airport_codes : list string) : NOAA.t :=
  NOAA.__init__ airport_codes "bcaws".

End NOAABackup.

(** ** The geographic API adapter *)

(** [d[k] = v] on a dictionary kept in insertion order. *)
Fixpoint dict_set {V} (k : string) (v : V) (items : list (string * V))
  : list (string * V) :=
  match items with
  | [] => [(k, v)]
  | (k', v') :: rest =>
      if String.eqb k k' then (k, v) :: rest else (k', v') :: dict_set k v rest
  end.

(** [min(xs)]: the first element unless a later one is smaller. *)
Definition py_min (xs : list float) : result float :=
  match xs with
  | [] => Raise ValueError
  | x :: rest => Ok (fold_left (λ best y, if PrimFloat.ltb y best then y else best) rest x)
  end.

(** [max(xs)]: the first element unless a later one is greater. *)
Definition py_max (xs : list float) : result float :=
  match xs with
  | [] => Raise ValueError
  | x :: rest => Ok (fold_left (λ best y, if PrimFloat.ltb best y then y else best) rest x)
  end.

(** [[f(x) for x in xs]] for an [f] that may raise. *)
Fixpoint map_result {A B} (f : A -> result B) (xs : list A) : result (list B) :=
  match xs with
  | [] => Ok []
  | x :: rest =>
      let? y := f x in
      let? ys := map_result f rest in
      Ok (y :: ys)
  end.

Module SkyVector.

Record t : Type := {
  airport_codes : list string;
  data : list (string * (string * string));
  url : address
}.

Section Construct.
(** The rows [csv.reader] yields for [data/us-airports.csv], or the
    error of opening the file. *)
Variable csv_rows : result (list (list string)).
(** [float(s)] on the text of a cell. *)
Variable float_of_str : string -> result float.

(** The loop over the rows: a row is unpacked into exactly three
    cells, and kept when its code is a requested one. *)
Fixpoint scan_rows (codes : list string) (rows : list (list string))
         (data : list (string * (string * string)))
  : result (list (string * (string * string))) :=
  match rows with
  | [] => Ok data
  | [airport_code; lat; lon] :: rest =>
      scan_rows codes rest
        (if Py.str_in airport_code codes
         then dict_set airport_code (lat, lon) data
         else data)
  | _ :: _ => Raise ValueError
  end.

(** [SkyVector._find_coordinates], given [self.airport_codes]:
    the retained rows and the URL of the expanded box. *)
Definition _find_coordinates (codes : list string)
  : result (list (string * (string * string)) * address) :=
  let? rows := csv_rows in
  let? data := scan_rows codes rows [] in
  let lats := map (λ kv, fst (snd kv)) data in
  let lons := map (λ kv, snd (snd kv)) data in
  let? lat1 := result_bind (map_result float_of_str lats) py_min in
  let? lon1 := result_bind (map_result float_of_str lons) py_min in
  let? lat2 := result_bind (map_result float_of_str lats) py_max in
  let? lon2 := result_bind (map_result float_of_str lons) py_max in
  let lat1 := (lat1 - 0.5)%float in
  let lon1 := (lon1 - 0.5)%float in
  let lat2 := (lat2 + 0.5)%float in
  let lon2 := (lon2 + 0.5)%float in
  Ok (data, SkyVectorUrl lat1 lon1 lat2 lon2).

(** [SkyVector.__init__(airport_codes)] *)
Definition __init__ (airport_codes : list string) : result t :=
  let codes := map Py.upper airport_codes in
  let? found := _find_coordinates codes in
  Ok {| airport_codes := codes; data := fst found; url := snd found |}.

End Construct.

Section Retrieve.
Variable net : Endpoint.
(** [response.json()]: the value of the body, or the decoder's error. *)
Variable parsejson : string -> result pyval.

(** One round of the loop over the observations. *)
Definition keep (self : t) (metars : Reports) (item : pyval) : M Reports :=
  lift (let? s := getitem item "s" in
        if val_in s (airport_codes self)
        then
          let? m := getitem item "m" in
          let? key := upper_method s in
          Ok (<[key := raw_text_record m]> metars)
        else Ok metars).

Definition get_metar_info (self : t) : M Reports :=
  let! response := _query net (url self) in
  let! data :=
    try_except
      (lift (let? doc := parsejson (text response) in getitem doc "weather"))
      (λ e, do! emit (Logged (LogException "Metar response is invalid." e)) in
            raise e) in
  let! items := lift (iterate data) in
  for_each items (keep self) ∅.

End Retrieve.

End SkyVector.

(** ** The report pattern of the two scraping adapters

    [(?:METAR |SPECI )(?P<METAR>(?P<CODE>\w{4}).*?)(?:stop1|stop2|...)],
    the pattern of [BOM] and [IFIS], which differ in the list of stops
    only.  No flag is set, so [.] is any character but a newline. *)

Module Re.

(** [\w] *)
Definition is_word (c : ascii) : bool :=
  let n := nat_of_ascii c in
  ((48 <=? n) && (n <=? 57)) || ((65 <=? n) && (n <=? 90))
  || ((97 <=? n) && (n <=? 122)) || (n =? 95).

Definition newline : ascii := ascii_of_nat 10.

(** A literal at the start of [s]: what follows it. *)
Fixpoint literal (p s : string) : option string :=
  match p, s with
  | EmptyString, _ => Some s
  | String a p', String b s' => if Ascii.eqb a b then literal p' s' else None
  | String _ _, EmptyString => None
  end.

(** [(?:p1|p2|...)]: the first alternative that matches. *)
Fixpoint alternatives (ps : list string) (s : string) : option string :=
  match ps with
  | [] => None
  | p :: rest =>
      match literal p s with
      | Some after => Some after
      | None => alternatives rest s
      end
  end.

(** [(?P<CODE>\w{4})] *)
Definition code4 (s : string) : option (string * string) :=
  match s with
  | String a (String b (String c (String d rest))) =>
      if is_word a && is_word b && is_word c && is_word d
      then Some (String a (String b (String c (String d ""))), rest)
      else None
  | _ => None
  end.

(** [.*?(?:stops)]: as few characters as possible, none of them a
    newline, up to the first place where a stop matches.  The result
    is the text before the stop and the text after it. *)
Fixpoint lazy_until (stops : list string) (s : string) : option (string * string) :=
  match alternatives stops s with
  | Some after => Some ("", after)
  | None =>
      match s with
      | EmptyString => None
      | String c s' =>
          if Ascii.eqb c newline then None
          else match lazy_until stops s' with
               | Some (body, after) => Some (String c body, after)
               | None => None
               end
      end
  end.

(** One match: the groups CODE and METAR and the text after the match. *)
Record found : Type := { CODE : string; METAR : string; after : string }.

(** The pattern tried at the start of [s]. *)
Definition match_here (stops : list string) (s : string) : option found :=
  match alternatives ["METAR "; "SPECI "] s with
  | None => None
  | Some s1 =>
      match code4 s1 with
      | None => None
      | Some (code, s2) =>
          match lazy_until stops s2 with
          | None => None
          | Some (body, rest) =>
              Some {| CODE := code; METAR := code ++ body; after := rest |}
          end
      end
  end.

Lemma literal_length p s s' :
  literal p s = Some s' → String.length s = String.length p + String.length s'.
Proof.
  revert s. induction p as [|a p IH]; intros s; cbn.
  - intros [= ->]. reflexivity.
  - destruct s as [|b s]; [congruence|].
    destruct (Ascii.eqb a b); [|congruence].
    intros H. cbn. rewrite (IH _ H). lia.
Qed.

Lemma alternatives_length ps s s' :
  alternatives ps s = Some s' → String.length s' ≤ String.length s.
Proof.
  induction ps as [|p ps IH]; cbn; [congruence|].
  destruct (literal p s) eqn:E; [|exact IH].
  intros [= ->]. apply literal_length in E. lia.
Qed.

Lemma lazy_until_length stops s body s' :
  lazy_until stops s = Some (body, s') → String.length s' ≤ String.length s.
Proof.
  revert body. induction s as [|c s IH]; intros body; cbn.
  - destruct (alternatives stops "") eqn:E; [|congruence].
    intros [= _ ->]. apply alternatives_length in E. exact E.
  - destruct (alternatives stops (String c s)) eqn:E.
    + intros [= _ ->]. apply alternatives_length in E. exact E.
    + destruct (Ascii.eqb c newline); [congruence|].
      destruct (lazy_until stops s) as [[b r]|]; [|congruence].
      intros [= _ ->]. specialize (IH _ eq_refl). lia.
Qed.

(** A match is never empty: the search always moves on. *)
Lemma match_here_shorter stops s m :
  match_here stops s = Some m → String.length (after m) < String.length s.
Proof.
  unfold match_here.
  destruct (alternatives _ s) as [s1|] eqn:E1; [|congruence].
  destruct (code4 s1) as [[code s2]|] eqn:E2; [|congruence].
  destruct (lazy_until stops s2) as [[body rest]|] eqn:E3; [|congruence].
  intros [= <-]. cbn. apply lazy_until_length in E3.
  apply alternatives_length in E1.
  assert (String.length s1 = 4 + String.length s2); [|lia].
  unfold code4 in E2.
  destruct s1 as [|a [|b [|c [|d r]]]]; try congruence.
  destruct (_ && _); [|congruence]. injection E2 as _ <-. reflexivity.
Qed.

Definition inspect {A} (a : A) : {b : A | a = b} := exist _ a eq_refl.

(** [re.finditer(pattern, s)]: the matches from left to right, each
    search starting where the previous match ended, or one character
    further on when there is no match at the current place. *)
Equations? finditer (stops : list string) (s : string) : list found
  by wf (String.length s) lt :=
  finditer stops s with inspect (match_here stops s) => {
    | exist _ (Some m) _ := m :: finditer stops (after m);
    | exist _ None _ with s => {
        | EmptyString := [];
        | String _ s' := finditer stops s' } }.
Proof. apply match_here_shorter with stops. assumption. Qed.

(** [for match in matches: metars[CODE.upper()] = {'raw_text': METAR}] *)
Definition collect (matches : list found) : Reports :=
  fold_left (λ metars m,
               <[Py.upper (CODE m) := raw_text_record (PStr (METAR m))]> metars)
            matches ∅.

End Re.

(** ** The HTML-scrape adapter *)

Module BOM.

Record t : Type := { airport_codes : string }.

Definition URL : address := Url "http://www.bom.gov.au/aviation/php/process.php".

Definition __init__ (airport_codes : list string) : t :=
  {| airport_codes := Py.join "," airport_codes |}.

Definition stops : list string := ["<br />"; "<h3>"].

Definition payload (self : t) : list (string * pyval) :=
  [("keyword", PStr (airport_codes self));
   ("type", PStr "search");
   ("page", PStr "TAF")].

Definition get_metar_info (net : Endpoint) (self : t) : M Reports :=
  let! r := requests_post net URL (payload self) in
  ret (Re.collect (Re.finditer stops (text r))).

End BOM.

(** ** The authenticated-scrape adapter *)

Module IFIS.

Definition URL : address :=
  Url "https://www.ifis.airways.co.nz/script/briefing/met_briefing_proc.asp".
Definition LOGIN_URL : address :=
  Url "https://www.ifis.airways.co.nz/secure/script/user_reg/login_proc.asp".

Definition ACCEPTED_CODES : list string :=
  ["NZCH"; "NZCI"; "NZAA"; "NZDN"; "NZGS"; "NZHN"; "NZHK"; "NZNV";
   "NZKK"; "NZMS"; "NZMF"; "NZNR"; "NZNS"; "NZNP"; "NZOU"; "NZOH";
   "NZPM"; "NZPP"; "NZQN"; "NZRO"; "NZAP"; "NZTG"; "NZMO"; "NZTU";
   "NZWF"; "NZWN"; "NZWS"; "NZWK"; "NZWU"; "NZWR"; "NZWP"; "NZWB"].

Record t : Type := {
  airport_codes : string;
  username : string;
  password : string;
  login_payload : list (string * pyval);
  data_payload : list (string * pyval)
}.

(** [config[section][key]] *)
Definition config_get (config : gmap string (gmap string string))
           (section key : string) : result string :=
  match config !! section with
  | None => Raise (KeyError section)
  | Some sec =>
      match sec !! key with
      | None => Raise (KeyError key)
      | Some v => Ok v
      end
  end.

Definition __init__ (airport_codes : list string)
           (config : gmap string (gmap string string)) : result t :=
  let codes :=
    Py.join " " (filter (λ code, Py.str_in code ACCEPTED_CODES = true) airport_codes) in
  let? username := config_get config "ifis" "username" in
  let? password := config_get config "ifis" "password" in
  Ok {| airport_codes := codes;
        username := username;
        password := password;
        login_payload := [("UserName", PStr username); ("Password", PStr password)];
        data_payload := [("METAR", PNum 1); ("MetLocations", PStr codes)] |}.

Definition stops : list string := ["<br/>"; "<h3>"; "=</span>"; "<br />"].

Definition get_metar_info (net : Endpoint) (self : t) : M Reports :=
  let! r :=
    do! emit SessionOpened in
    try_finally
      (do! requests_post net LOGIN_URL (login_payload self) in
       let! r := requests_post net URL (data_payload self) in
       do! emit (Logged (LogInfo (text r))) in
       ret r)
      (emit SessionClosed) in
  ret (Re.collect (Re.finditer stops (text r))).

End IFIS.

(** ** The rendered-page adapter *)

Module KO61.

Definition URL : address := Url "https://ko61.awos.live".

(** A character [str.split()] and [str.strip()] treat as white space. *)
Definition is_space (c : ascii) : bool :=
  let n := nat_of_ascii c in
  ((9 <=? n) && (n <=? 13)) || ((28 <=? n) && (n <=? 32)).

(** [s.split()]: the maximal runs of characters that are not white
    space.  [cur] is the run being read. *)
Fixpoint split_from (cur : string) (s : string) : list string :=
  match s with
  | EmptyString => if String.eqb cur "" then [] else [cur]
  | String c s' =>
      if is_space c
      then (if String.eqb cur "" then split_from "" s'
            else cur :: split_from "" s')
      else split_from (cur ++ String c "") s'
  end.

Definition split (s : string) : list string := split_from "" s.

(** [parts.index(x)] *)
Fixpoint index (x : string) (parts : list string) : result nat :=
  match parts with
  | [] => Raise ValueError
  | p :: rest =>
      if String.eqb p x then Ok 0
      else let? i := index x rest in Ok (S i)
  end.

Fixpoint lstrip (s : string) : string :=
  match s with
  | String c s' => if is_space c then lstrip s' else s
  | EmptyString => EmptyString
  end.

Definition reverse (s : string) : string :=
  string_of_list_ascii (rev (list_ascii_of_string s)).

(** [s.strip()] *)
Definition strip (s : string) : string :=
  reverse (lstrip (reverse (lstrip s))).

(** What the browser does in one run: the outcome of each awaited
    call.  [evaluate] gives the [textContent] of the element. *)
Record Browser : Type := {
  launch : result unit;
  newPage : result unit;
  goto : result unit;
  waitForSelector : result unit;
  evaluate : result pyval;
  close : result unit
}.

(** [try: body except Exception as e: handler(e)]: everything is
    caught but what is not an [Exception]. *)
Definition try_except_Exception {A} (body : M A) (handler : exn -> M A) : M A :=
  try_except body (λ e, match e with
                        | BaseException => raise e
                        | _ => handler e
                        end).

(** [full_metar.split()] on the value [evaluate] returned. *)
Definition split_method (v : pyval) : result (list string) :=
  match v with
  | PStr s => Ok (split s)
  | _ => Raise AttributeError
  end.

Definition get_metar_info (b : Browser) : M (option Reports) :=
  do! lift (launch b) in
  do! emit BrowserLaunched in
  do! lift (newPage b) in
  try_finally
    (try_except_Exception
       (do! lift (goto b) in
        do! emit (Slept 1000) in
        do! lift (waitForSelector b) in
        let! full_metar := lift (evaluate b) in
        let! metar_parts := lift (split_method full_metar) in
        let! start := lift (index "KO61" metar_parts) in
        let metar_data := strip (Py.join " " (skipn start metar_parts)) in
        ret (Some ({["KO61" := raw_text_record (PStr metar_data)]} : Reports)))
       (λ e, do! emit (Logged (Printed "Error: " e)) in
             ret None))
    (do! lift (close b) in emit BrowserClosed).

(** Browsers launched and browsers closed so far. *)
Definition is_launch (e : event) : bool :=
  match e with BrowserLaunched => true | _ => false end.

Definition is_close (e : event) : bool :=
  match e with BrowserClosed => true | _ => false end.

Definition launched (w : World) : nat := length (List.filter is_launch w).

Definition closed (w : World) : nat := length (List.filter is_close w).

End KO61.

(** ** Plain decimals as floats

    [float(s)] for the cells of the coordinate table, on the part of its
    domain the examples below use: an optional sign, digits, and at most
    one point, with a mantissa below 2^53 and at most 22 decimals.  There
    the mantissa and the power of ten are floats without error, so the
    one division rounds to the float nearest to the decimal, as [float]
    does.  Everything else is reported as [ValueError], also the forms
    [float] itself would accept (exponents, blanks, [inf], [nan]). *)

Module Decimal.

Definition digit (c : ascii) : option Z :=
  let n := nat_of_ascii c in
  if (48 <=? n) && (n <=? 57) then Some (Z.of_nat (n - 48)) else None.

(** The digits of [s] read into a mantissa, and the number of digits
    after the point, once there is one. *)
Fixpoint scan (s : string) (mantissa : Z) (ndigits : nat) (decimals : option nat)
  : option (Z * nat * nat) :=
  match s with
  | EmptyString =>
      Some (mantissa, ndigits, match decimals with Some k => k | None => 0 end)
  | String c s' =>
      match digit c with
      | Some d =>
          scan s' (10 * mantissa + d)%Z (S ndigits)
               (match decimals with Some k => Some (S k) | None => None end)
      | None =>
          if Ascii.eqb c "." then
            match decimals with
            | None => scan s' mantissa ndigits (Some 0)
            | Some _ => None
            end
          else None
      end
  end.

(** [10 ** k] as a float: up to [k = 22] every power is a float
    without error, and so is every product on the way. *)
Fixpoint pow10 (k : nat) : float :=
  match k with
  | 0 => 1%float
  | S k' => (10 * pow10 k')%float
  end.

Definition ratio (mantissa : Z) (decimals : nat) : float :=
  (of_uint63 (Uint63.of_Z mantissa) / pow10 decimals)%float.

Definition unsigned (s : string) : result float :=
  match scan s 0 0 None with
  | Some (m, S _, k) =>
      if (m <? 2 ^ 53)%Z && (k <=? 22) then Ok (ratio m k) else Raise ValueError
  | _ => Raise ValueError
  end.

Definition to_float (s : string) : result float :=
  match s with
  | String "-" s' => let? x := unsigned s' in Ok (- x)%float
  | String "+" s' => unsigned s'
  | _ => unsigned s
  end.

End Decimal.

(** ** Simulated endpoints *)

(** The first [k] requests fail with [e], the later ones are answered
    with [r]. *)
Definition fails_then (k : nat) (e : exn) (r : response) : Endpoint :=
  λ n _, if n <? k then Failed e else Replied r.

(** Every request has the same outcome. *)
Definition always (o : outcome) : Endpoint := λ _ _, o.

(** The [n]-th request is answered with the [n]-th body of the list,
    status 200; there is no answer once the list is used up. *)
Definition replies (bodies : list string) : Endpoint :=
  λ n _, match bodies !! n with
         | Some body => Replied {| status_code := 200; text := body |}
         | None => Failed ConnectionError
         end.

(** A parser that knows the given documents and rejects every other
    text: [xmltodict.parse] or [json.loads] on the bodies of a scenario. *)
Definition parser_of (docs : list (string * pyval)) (error : exn)
  : string -> result pyval :=
  λ body, match assoc body docs with
          | Some v => Ok v
          | None => Raise error
          end.

(** ** Scenarios *)

(** The documents of the scenarios: one METAR entry for KDEN, and the
    tree [xmltodict] makes of it. *)
Definition kden_xml : string :=
  "<response><data num_results='1'><METAR><raw_text>KDEN 221853Z 25009KT 10SM FEW080 28/09 A3021</raw_text><station_id>KDEN</station_id></METAR></data></response>".

Definition kden_entry : pyval :=
  PDict [("raw_text", PStr "KDEN 221853Z 25009KT 10SM FEW080 28/09 A3021");
         ("station_id", PStr "KDEN")].

Definition kden_tree : pyval :=
  PDict [("response",
          PDict [("data", PDict [("@num_results", PStr "1"); ("METAR", kden_entry)])])].

(** The primary adapter files every entry under the upper-cased
    station id the entry itself carries. *)
Definition keyed_by_station (metars : Reports) : Prop :=
  ∀ k m, metars !! k = Some m →
         ∃ sid, getitem m "station_id" = Ok (PStr sid) ∧ Py.upper sid = k.

(** A JSON string literal. *)
Definition quoted (s : string) : string :=
  String (ascii_of_nat 34) (s ++ String (ascii_of_nat 34) "").

(** An answer of the geographic provider for a box around Denver: the
    requested KDEN and, inside the same box, KFNL. *)
Definition denver_json : string :=
  "{" ++ quoted "weather" ++ ":[{" ++
  quoted "s" ++ ":" ++ quoted "KDEN" ++ "," ++
  quoted "m" ++ ":" ++ quoted "KDEN 221853Z 25009KT 10SM FEW080 28/09 A3021" ++ "},{" ++
  quoted "s" ++ ":" ++ quoted "KFNL" ++ "," ++
  quoted "m" ++ ":" ++ quoted "KFNL 221856Z AUTO VRB03KT 6SM HZ CLR 23/14 A3025" ++ "}]}".

Definition denver_tree : pyval :=
  PDict [("weather",
          PList [PDict [("s", PStr "KDEN");
                        ("m", PStr "KDEN 221853Z 25009KT 10SM FEW080 28/09 A3021")];
                 PDict [("s", PStr "KFNL");
                        ("m", PStr "KFNL 221856Z AUTO VRB03KT 6SM HZ CLR 23/14 A3025")]])].

(** Rows of the coordinate table. *)
Definition airports_csv : list (list string) :=
  [["KDEN"; "39.8617"; "-104.6732"];
   ["KFNL"; "40.4518"; "-105.0113"];
   ["KJFK"; "40.6398"; "-73.7789"]].


(** The first step inside the [try] block of [KO61.get_metar_info]
    that goes wrong, if any: page load, wait for the element, reading
    its text, or the extraction of the report from the text. *)
Definition first_failure (b : KO61.Browser) : option exn :=
  match KO61.goto b with
  | Raise e => Some e
  | Ok _ =>
      match KO61.waitForSelector b with
      | Raise e => Some e
      | Ok _ =>
          match KO61.evaluate b with
          | Raise e => Some e
          | Ok v =>
              match KO61.split_method v with
              | Raise e => Some e
              | Ok parts =>
                  match KO61.index "KO61" parts with
                  | Raise e => Some e
                  | Ok _ => None
                  end
              end
          end
      end
  end.

(** Two METAR entries, for KDEN and KJFK, and their tree: with more
    than one entry [xmltodict] makes a list of them. *)
Definition two_xml : string :=
  "<response><data num_results='2'><METAR><raw_text>KDEN 221853Z 25009KT 10SM FEW080 28/09 A3021</raw_text><station_id>KDEN</station_id></METAR><METAR><raw_text>KJFK 221851Z 18012KT 10SM SCT250 27/18 A3001</raw_text><station_id>KJFK</station_id></METAR></data></response>".

Definition kjfk_entry : pyval :=
  PDict [("raw_text", PStr "KJFK 221851Z 18012KT 10SM SCT250 27/18 A3001");
         ("station_id", PStr "KJFK")].

Definition two_tree : pyval :=
  PDict [("response",
          PDict [("data", PDict [("@num_results", PStr "2");
                                 ("METAR", PList [kden_entry; kjfk_entry])])])].

(** ** Further notions *)

(** What a failed attempt of [_query] leaves behind when it is the
    attempt number [n]: the URL logged, the request, the failure
    logged, the wait before the next attempt. *)
Definition failed_attempt (u : address) (e : exn) (n : nat) : list event :=
  [Logged (LogInfoUrl u); Sent (Get u);
   Logged (LogException "Metar query failure." e);
   Slept (exponential_sleep query_policy n)].

(** The waits of [_query], in the order in which they are taken. *)
Definition wait_schedule : list Z :=
  [2000; 4000; 8000; 10000; 10000; 10000; 10000; 10000; 10000]%Z.

(** Sessions opened and sessions closed so far. *)
Definition is_session_open (e : event) : bool :=
  match e with SessionOpened => true | _ => false end.

Definition is_session_close (e : event) : bool :=
  match e with SessionClosed => true | _ => false end.

Definition sessions_opened (w : World) : nat := length (List.filter is_session_open w).

Definition sessions_closed (w : World) : nat := length (List.filter is_session_close w).

(** An observation the geographic adapter can use: it has a station
    field, and a report field too when the station is a requested one. *)
Definition usable_observation (codes : list string) (item : pyval) : Prop :=
  ∃ s, getitem item "s" = Ok s
       ∧ (val_in s codes = true → is_ok (getitem item "m") = true).

(** A word: not empty, and without white space. *)
Fixpoint no_space (s : string) : bool :=
  match s with
  | EmptyString => true
  | String c s' => negb (KO61.is_space c) && no_space s'
  end.

Definition is_word_token (s : string) : Prop := s ≠ "" ∧ no_space s = true.

(** A text that ends in a character that is not white space. *)
Definition ends_clean (s : string) : Prop :=
  ∃ l c, list_ascii_of_string s = l ++ [c] ∧ KO61.is_space c = false.

(** The key under which the primary adapter files an entry: its
    station id in upper case, when it has one that is a string. *)
Definition station_of (m : pyval) : option string :=
  match getitem m "station_id" with
  | Ok (PStr sid) => Some (Py.upper sid)
  | _ => None
  end.

(** The entries filed one after the other into [acc]. *)
Definition file_entries (entries : list pyval) (acc : Reports) : Reports :=
  fold_left (λ metars m, match station_of m with
                         | Some k => <[k := m]> metars
                         | None => metars
                         end) entries acc.

(** What one round of the primary adapter leaves behind when its
    request is answered at once. *)
Definition round_events (u : address) : list event :=
  [Logged (LogInfoUrl u); Sent (Get u); Slept 1000].

(** An answer of the primary provider whose second entry has no station
    id, and its tree. *)
Definition anonymous_xml : string :=
  "<response><data num_results='2'><METAR><raw_text>KDEN 221853Z 25009KT 10SM FEW080 28/09 A3021</raw_text><station_id>KDEN</station_id></METAR><METAR><raw_text>221851Z 18012KT</raw_text></METAR></data></response>".

Definition anonymous_entry : pyval := PDict [("raw_text", PStr "221851Z 18012KT")].

Definition anonymous_tree : pyval :=
  PDict [("response",
          PDict [("data", PDict [("@num_results", PStr "2");
                                 ("METAR", PList [kden_entry; anonymous_entry])])])].

(** * Theorems *)

(** ** The batch chunker *)

Section Chunks.
Context {A : Type}.
Implicit Types (l : list A) (n s i k : nat).

Lemma range_up_unfold i stop s :
  Py.range_up i stop (S s) =
  if lt_dec i stop then i :: Py.range_up (i + S s) stop (S s) else [].
Proof.
  rewrite Py.range_up_equation_2.
  destruct (lt_dec i stop); reflexivity.
Qed.

(** The loop visits [i], [i + step], ... : as many values as there
    are multiples of the step below [stop - i]. *)
Lemma range_up_spec s : ∀ d i stop,
  stop - i = d →
  Py.range_up i stop (S s) =
  map (λ k, i + k * S s) (seq 0 ((d + s) / S s)).
Proof.
  induction d as [d IH] using lt_wf_ind. intros i stop Hd.
  rewrite range_up_unfold. destruct (lt_dec i stop) as [Hlt|Hge].
  - rewrite (IH (stop - (i + S s))) by lia || reflexivity.
    destruct (le_lt_dec (S s) d) as [Hbig|Hsmall].
    + replace (d + s) with ((stop - (i + S s) + s) + 1 * S s) by lia.
      rewrite Nat.div_add by lia. rewrite Nat.add_1_r. cbn [seq map].
      f_equal; [lia|]. rewrite <- seq_shift, map_map.
      apply map_ext. intros k. lia.
    + replace (stop - (i + S s)) with 0 by lia.
      rewrite (Nat.div_small (0 + s)) by lia.
      replace (d + s) with ((d - 1) + 1 * S s) by lia.
      rewrite Nat.div_add by lia. rewrite Nat.div_small by lia.
      cbn. f_equal. lia.
  - replace d with 0 by lia. rewrite Nat.div_small by lia. reflexivity.
Qed.

Lemma concat_slices l n : 0 < n → ∀ c i,
  i + c * n >= length l →
  concat (map (λ k, Py.slice l (i + k * n) (i + k * n + n)) (seq 0 c)) =
  skipn i l.
Proof.
  intros Hn c. induction c as [|c IH]; intros i Hc.
  - cbn. rewrite skipn_all2 by lia. reflexivity.
  - cbn [seq map concat]. rewrite <- seq_shift, map_map.
    rewrite (map_ext _ (λ k, Py.slice l (i + n + k * n) (i + n + k * n + n))).
    2:{ intros k. f_equal; lia. }
    rewrite IH by lia. unfold Py.slice.
    replace (i + 0 * n + n - (i + 0 * n)) with n by lia.
    replace (i + 0 * n) with i by lia.
    rewrite Nat.add_comm, <- skipn_skipn. apply firstn_skipn.
Qed.

Lemma chunks_pos l s :
  chunks l (Z.of_nat (S s)) =
  Ok (map (λ k, Py.slice l (k * S s) (k * S s + S s))
          (seq 0 ((length l + s) / S s))).
Proof.
  unfold chunks, Py.range0.
  destruct (Z.eqb_spec (Z.of_nat (S s)) 0) as [|_]; [lia|].
  destruct (Z.ltb_spec (Z.of_nat (S s)) 0) as [|_]; [lia|].
  rewrite Nat2Z.id. cbn [result_bind].
  rewrite (range_up_spec s (length l) 0 (length l)) by lia.
  rewrite map_map. reflexivity.
Qed.

(** C2. For a chunk size [n > 0], [chunks l n] yields ceil(L/n) groups;
    every group is non-empty and at most [n] long, every group but the
    last is exactly [n] long; the groups concatenated in order are [l];
    the empty sequence yields no group. *)
Theorem chunks_spec l (n : Z) :
  (0 < n)%Z →
  ∃ gs : list (list A),
    chunks l n = Ok gs
    ∧ Z.of_nat (length gs) = ceil_div (Z.of_nat (length l)) n
    ∧ (∀ k g, gs !! k = Some g →
         (0 < Z.of_nat (length g) ≤ n)%Z
         ∧ (S k < length gs → Z.of_nat (length g) = n))
    ∧ concat gs = l
    ∧ (l = [] → gs = []).
Proof.
  intros Hn. destruct (Z.to_nat n) as [|s] eqn:Hs; [lia|].
  assert (n = Z.of_nat (S s)) as -> by lia. clear Hs Hn.
  set (m := S s). set (L := length l). set (c := (L + s) / m).
  assert (Hdiv : c * m ≤ L + s ∧ L + s < c * m + m).
  { pose proof (Nat.div_mod_eq (L + s) m) as E.
    pose proof (Nat.mod_upper_bound (L + s) m ltac:(lia)) as B.
    fold c in E. nia. }
  eexists. split; [apply chunks_pos|]. fold m L c.
  split; [|split; [|split]].
  - rewrite length_map, length_seq. unfold ceil_div, c.
    rewrite Nat2Z.inj_div. f_equal. lia.
  - intros k g Hk. rewrite length_map, length_seq.
    rewrite list_lookup_fmap in Hk.
    destruct (seq 0 c !! k) as [k'|] eqn:Hk'; [|discriminate].
    apply lookup_seq in Hk' as [-> Hlt]. cbn in Hk.
    injection Hk as <-. unfold Py.slice.
    rewrite length_firstn, length_skipn. fold L. nia.
  - pose proof (concat_slices l m ltac:(lia) c 0 ltac:(fold L; lia)) as E.
    cbn [Nat.add skipn] in E. exact E.
  - intros ->. subst L c. cbn [length]. rewrite Nat.div_small by lia.
    reflexivity.
Qed.

End Chunks.

(** C2, on a concrete input: seven codes in chunks of three. *)
Lemma chunks_spec_witness :
  (0 < 3)%Z ∧
  ∃ gs : list (list nat),
    chunks [1; 2; 3; 4; 5; 6; 7] 3 = Ok gs
    ∧ Z.of_nat (length gs) = ceil_div (Z.of_nat 7) 3
    ∧ (∀ k g, gs !! k = Some g →
         (0 < Z.of_nat (length g) ≤ 3)%Z
         ∧ (S k < length gs → Z.of_nat (length g) = 3%Z))
    ∧ concat gs = [1; 2; 3; 4; 5; 6; 7]
    ∧ ([1; 2; 3; 4; 5; 6; 7] = [] → gs = []).
Proof. split; [lia|]. apply (chunks_spec [1; 2; 3; 4; 5; 6; 7] 3). lia. Defined.

Example chunks_seven_by_three :
  chunks [1; 2; 3; 4; 5; 6; 7] 3 = Ok [[1; 2; 3]; [4; 5; 6]; [7]].
Proof. reflexivity. Qed.

Example chunks_zero_step : chunks [1; 2; 3] 0 = Raise ValueError.
Proof. reflexivity. Qed.

(** ** Reading the world *)

Lemma sent_count_app w1 w2 : sent_count (w1 ++ w2) = sent_count w1 + sent_count w2.
Proof. unfold sent_count. rewrite List.filter_app, length_app. reflexivity. Qed.

Lemma sleeps_of_app w1 w2 : sleeps_of (w1 ++ w2) = sleeps_of w1 ++ sleeps_of w2.
Proof. unfold sleeps_of. apply omap_app. Qed.

Lemma requests_of_app w1 w2 : requests_of (w1 ++ w2) = requests_of w1 ++ requests_of w2.
Proof. unfold requests_of. apply omap_app. Qed.

(** ** Running effectful code *)

Lemma bind_ok {A B} (m : M A) (k : A -> M B) w b w' :
  bind m k w = (Ok b, w') →
  ∃ a w1, m w = (Ok a, w1) ∧ k a w1 = (Ok b, w').
Proof.
  unfold bind. destruct (m w) as [[a|e] w1]; [|discriminate].
  intros H. exists a, w1. split; [reflexivity|exact H].
Qed.

Lemma bind_raise {A B} (m : M A) (k : A -> M B) w e w1 :
  m w = (Raise e, w1) → bind m k w = (Raise e, w1).
Proof. unfold bind. intros ->. reflexivity. Qed.

Lemma bind_run {A B} (m : M A) (k : A -> M B) w a w1 :
  m w = (Ok a, w1) → bind m k w = k a w1.
Proof. unfold bind. intros ->. reflexivity. Qed.

(** A loop that goes wrong in one round goes wrong as a whole: what
    the earlier rounds had accumulated is not returned. *)
Lemma for_each_raise {A S} (step : S -> A -> M S) xs x ys acc w acc1 w1 e w2 :
  for_each xs step acc w = (Ok acc1, w1) →
  step acc1 x w1 = (Raise e, w2) →
  for_each (xs ++ x :: ys) step acc w = (Raise e, w2).
Proof.
  revert acc w. induction xs as [|x0 xs IH]; intros acc w Hxs Hx; cbn in *.
  - unfold ret in Hxs. injection Hxs as <- <-. apply bind_raise. exact Hx.
  - apply bind_ok in Hxs as (a & w0 & Hstep & Hrest).
    rewrite (bind_run _ _ _ _ _ Hstep). apply IH; assumption.
Qed.

(** ** The retrying fetcher *)

Section Fetcher.
Variable net : Endpoint.

Lemma call_step {A} (p : Retrying) (fn : M A) n w :
  call p fn n w =
  match fn w with
  | (Ok a, w') => (Ok a, w')
  | (Raise e, w') =>
      if le_lt_dec (stop_max_attempt_number p) n then (Raise e, w')
      else call p fn (S n) (w' ++ [Slept (exponential_sleep p n)])
  end.
Proof.
  rewrite call_equation_1. destruct (fn w) as [[a|e] w']; cbn.
  - reflexivity.
  - destruct (le_lt_dec _ _); reflexivity.
Qed.

(** One attempt: the URL is logged, the request sent, and a failure
    logged before it is raised again. *)
Lemma query_body_run u w :
  query_body net u w =
  match attempt_outcome net (sent_count w) u with
  | Ok r => (Ok r, w ++ [Logged (LogInfoUrl u); Sent (Get u)])
  | Raise e =>
      (Raise e, w ++ [Logged (LogInfoUrl u); Sent (Get u);
                      Logged (LogException "Metar query failure." e)])
  end.
Proof.
  unfold query_body, attempt_outcome, bind, emit, try_except, requests_get,
    send, raise_for_status, ret, raise.
  rewrite sent_count_app, Nat.add_0_r.
  destruct (net (sent_count w) (Get u)) as [r|e].
  - destruct (_ && _); rewrite <- !app_assoc; reflexivity.
  - rewrite <- !app_assoc. reflexivity.
Qed.

(** The schedule of waits: 2 s, 4 s, 8 s, then 10 s each. *)
Lemma query_wait k :
  exponential_sleep query_policy k = Z.min (1000 * 2 ^ Z.of_nat k) 10000.
Proof.
  unfold exponential_sleep. cbn [wait_exponential_multiplier wait_exponential_max query_policy].
  assert (0 < 2 ^ Z.of_nat k)%Z by (apply Z.pow_pos_nonneg; lia).
  destruct (Z.gtb_spec (1000 * 2 ^ Z.of_nat k) 10000);
    match goal with |- context [(?x <? 0)%Z] => destruct (Z.ltb_spec x 0) end; lia.
Qed.

(** [K] failed attempts followed by a successful one, none of them
    the last attempt allowed. *)
Lemma call_query_succeeds u r : ∀ K n w,
  n + K ≤ 10 →
  (∀ j, j < K → is_ok (attempt_outcome net (sent_count w + j) u) = false) →
  attempt_outcome net (sent_count w + K) u = Ok r →
  ∃ w', call query_policy (query_body net u) n w = (Ok r, w')
        ∧ sent_count w' = sent_count w + K + 1
        ∧ sleeps_of w' = sleeps_of w ++ map (exponential_sleep query_policy) (seq n K).
Proof.
  induction K as [|K IH]; intros n w Hn Hfail Hok.
  - rewrite call_step, query_body_run. rewrite Nat.add_0_r in Hok. rewrite Hok.
    eexists. split; [reflexivity|]. split.
    + rewrite sent_count_app. cbn. lia.
    + rewrite sleeps_of_app. cbn. rewrite app_nil_r. reflexivity.
  - rewrite call_step, query_body_run.
    pose proof (Hfail 0 ltac:(lia)) as H0. rewrite Nat.add_0_r in H0.
    destruct (attempt_outcome net (sent_count w) u) as [?|e]; [discriminate|].
    destruct (le_lt_dec _ n) as [Hstop|_]; [cbn in Hstop; lia|].
    match goal with |- context [call _ _ _ ?w1] => set (w1' := w1) end.
    assert (Hc : sent_count w1' = sent_count w + 1).
    { unfold w1'. rewrite !sent_count_app. cbn. lia. }
    destruct (IH (S n) w1') as (w' & Hrun & Hsent & Hsleep).
    + lia.
    + intros j Hj. rewrite Hc. replace (sent_count w + 1 + j) with (sent_count w + S j) by lia.
      apply Hfail. lia.
    + rewrite Hc. replace (sent_count w + 1 + K) with (sent_count w + S K) by lia. exact Hok.
    + exists w'. split; [exact Hrun|]. split; [lia|].
      rewrite Hsleep. unfold w1'. rewrite !sleeps_of_app. cbn.
      rewrite ?app_nil_r, <- ?app_assoc. reflexivity.
Qed.

(** Every attempt from the [n]-th to the tenth fails. *)
Lemma call_query_exhausts u : ∀ d n w,
  n + d = 10 →
  (∀ j, j ≤ d → is_ok (attempt_outcome net (sent_count w + j) u) = false) →
  ∃ e w', call query_policy (query_body net u) n w = (Raise e, w')
          ∧ attempt_outcome net (sent_count w + d) u = Raise e
          ∧ sent_count w' = sent_count w + d + 1
          ∧ sleeps_of w' = sleeps_of w ++ map (exponential_sleep query_policy) (seq n d).
Proof.
  induction d as [|d IH]; intros n w Hn Hfail.
  - rewrite call_step, query_body_run.
    pose proof (Hfail 0 ltac:(lia)) as H0. rewrite Nat.add_0_r in *.
    destruct (attempt_outcome net (sent_count w) u) as [?|e]; [discriminate|].
    destruct (le_lt_dec _ n) as [_|Hgo]; [|cbn in Hgo; lia].
    exists e. eexists. split; [reflexivity|]. split; [reflexivity|]. split.
    + rewrite sent_count_app. cbn. lia.
    + rewrite sleeps_of_app. cbn. rewrite app_nil_r. reflexivity.
  - rewrite call_step, query_body_run.
    pose proof (Hfail 0 ltac:(lia)) as H0. rewrite Nat.add_0_r in H0.
    destruct (attempt_outcome net (sent_count w) u) as [?|e0]; [discriminate|].
    destruct (le_lt_dec _ n) as [Hstop|_]; [cbn in Hstop; lia|].
    match goal with |- context [call _ _ _ ?w1] => set (w1' := w1) end.
    assert (Hc : sent_count w1' = sent_count w + 1).
    { unfold w1'. rewrite !sent_count_app. cbn. lia. }
    destruct (IH (S n) w1') as (e & w' & Hrun & Hlast & Hsent & Hsleep).
    + lia.
    + intros j Hj. rewrite Hc. replace (sent_count w + 1 + j) with (sent_count w + S j) by lia.
      apply Hfail. lia.
    + exists e, w'. split; [exact Hrun|]. split.
      * rewrite Hc in Hlast. replace (sent_count w + S d) with (sent_count w + 1 + d) by lia.
        exact Hlast.
      * split; [lia|]. rewrite Hsleep. unfold w1'. rewrite !sleeps_of_app. cbn.
        rewrite ?app_nil_r, <- ?app_assoc. reflexivity.
Qed.

End Fetcher.

(** C3 (amended). The fetcher retries a transport failure and a 4xx or
    5xx status, and nothing else; the wait after the [k]-th failed
    attempt is [min(1000 * 2^k, 10000)] ms, that is 2 s, 4 s, 8 s and
    then 10 s; [K < 10] failures followed by a success give that
    response after [K + 1] requests and [K] waits; ten failures give
    exactly ten requests, nine waits and the exception of the tenth
    attempt. *)
Theorem query_retry_policy (net : Endpoint) (u : address) (w : World) :
  (∀ n, is_ok (attempt_outcome net n u) = false ↔
        (∃ e, net n (Get u) = Failed e)
        ∨ (∃ r, net n (Get u) = Replied r ∧ (400 ≤ status_code r < 600)%Z))
  ∧ (∀ k, exponential_sleep query_policy k = Z.min (1000 * 2 ^ Z.of_nat k) 10000)
  ∧ (∀ K r,
       K < 10 →
       (∀ j, j < K → is_ok (attempt_outcome net (sent_count w + j) u) = false) →
       attempt_outcome net (sent_count w + K) u = Ok r →
       ∃ w', _query net u w = (Ok r, w')
             ∧ sent_count w' = sent_count w + K + 1
             ∧ sleeps_of w' =
               sleeps_of w ++ map (exponential_sleep query_policy) (seq 1 K))
  ∧ ((∀ j, j < 10 → is_ok (attempt_outcome net (sent_count w + j) u) = false) →
     ∃ e w', _query net u w = (Raise e, w')
             ∧ attempt_outcome net (sent_count w + 9) u = Raise e
             ∧ sent_count w' = sent_count w + 10
             ∧ sleeps_of w' =
               sleeps_of w ++ map (exponential_sleep query_policy) (seq 1 9)).
Proof.
  split; [|split; [|split]].
  - intros n. unfold attempt_outcome. destruct (net n (Get u)) as [r|e].
    + destruct (Z.leb_spec 400 (status_code r)); destruct (Z.ltb_spec (status_code r) 600);
        cbn; split; try discriminate; try (intros _; right; exists r; split; [reflexivity|lia]);
        intros [[e [=]]|[r' [[= <-] ?]]]; lia.
    + cbn. split; [intros _; left; exists e; reflexivity|reflexivity].
  - apply query_wait.
  - intros K r HK Hfail Hok. unfold _query.
    apply (call_query_succeeds net u r K 1 w); [lia|assumption..].
  - intros Hfail. unfold _query.
    destruct (call_query_exhausts net u 9 1 w) as (e & w' & H1 & H2 & H3 & H4).
    + reflexivity.
    + intros j Hj. apply Hfail. lia.
    + exists e, w'. repeat split; try assumption. lia.
Qed.

(** C3, at an endpoint that times out three times and then answers. *)
Lemma query_retry_policy_witness :
  ∃ w', _query (fails_then 3 Timeout {| status_code := 200; text := "ok" |})
               (Url "u") [] = (Ok {| status_code := 200; text := "ok" |}, w')
        ∧ sent_count w' = 4
        ∧ sleeps_of w' = [2000; 4000; 8000]%Z.
Proof.
  destruct (query_retry_policy
              (fails_then 3 Timeout {| status_code := 200; text := "ok" |})
              (Url "u") []) as (_ & _ & Hok & _).
  destruct (Hok 3 {| status_code := 200; text := "ok" |}) as (w' & H1 & H2 & H3).
  - lia.
  - intros j Hj. cbn in Hj |- *. do 3 (destruct j as [|j]; [reflexivity|]). lia.
  - reflexivity.
  - exists w'. split; [exact H1|]. split; [exact H2|exact H3].
Defined.

(** C3 as stated fails: the first wait is two seconds, not one, and a
    status outside 2xx that is not 4xx or 5xx is returned at once. *)
Lemma query_first_wait_counterexample :
  sleeps_of (snd (_query (fails_then 1 ConnectionError {| status_code := 200; text := "ok" |})
                         (Url "u") [])) = [2000%Z]
  ∧ _query (always (Replied {| status_code := 304; text := "" |})) (Url "u") []
    = (Ok {| status_code := 304; text := "" |},
       [Logged (LogInfoUrl (Url "u")); Sent (Get (Url "u"))]).
Proof. split; reflexivity. Qed.

Example query_always_failing :
  let w := snd (_query (always (Replied {| status_code := 503; text := "" |})) (Url "u") []) in
  sent_count w = 10
  ∧ sleeps_of w = [2000; 4000; 8000; 10000; 10000; 10000; 10000; 10000; 10000]%Z.
Proof. split; reflexivity. Qed.

(** ** The report pattern *)

Lemma append_length (a b : string) :
  String.length (a ++ b) = String.length a + String.length b.
Proof.
  induction a as [|c a IH]; [reflexivity|].
  change (String c a ++ b)%string with (String c (a ++ b)%string). cbn. rewrite IH. reflexivity.
Qed.

(** The METAR group starts with the CODE group, four characters long. *)
Lemma match_here_shape stops s m :
  Re.match_here stops s = Some m →
  String.length (Re.CODE m) = 4 ∧ ∃ body, Re.METAR m = (Re.CODE m ++ body)%string.
Proof.
  unfold Re.match_here.
  destruct (Re.alternatives _ s) as [s1|]; [|discriminate].
  destruct (Re.code4 s1) as [[code s2]|] eqn:E; [|discriminate].
  destruct (Re.lazy_until stops s2) as [[body rest]|]; [|discriminate].
  intros [= <-]. cbn. split; [|exists body; reflexivity].
  unfold Re.code4 in E. destruct s1 as [|a [|b [|c [|d r]]]]; try discriminate.
  destruct (_ && _); [|discriminate]. injection E as <- _. reflexivity.
Qed.

Lemma finditer_step stops s :
  Re.finditer stops s =
  match Re.match_here stops s with
  | Some m => m :: Re.finditer stops (Re.after m)
  | None => match s with
            | EmptyString => []
            | String _ s' => Re.finditer stops s'
            end
  end.
Proof.
  rewrite Re.finditer_equation_1. unfold Re.inspect.
  enough (G : ∀ o (e : Re.match_here stops s = o),
             Re.finditer_unfold_clause_1 stops s (exist _ o e) =
             match o with
             | Some m => m :: Re.finditer stops (Re.after m)
             | None => match s with
                       | EmptyString => []
                       | String _ s' => Re.finditer stops s'
                       end
             end) by apply G.
  intros [m|] e.
  - apply Re.finditer_clause_1_equation_1.
  - rewrite Re.finditer_clause_1_equation_2. destruct s; reflexivity.
Qed.

Lemma finditer_shape stops : ∀ n s m,
  String.length s < n →
  m ∈ Re.finditer stops s →
  String.length (Re.CODE m) = 4 ∧ ∃ body, Re.METAR m = (Re.CODE m ++ body)%string.
Proof.
  induction n as [|n IH]; intros s m Hn; [lia|].
  rewrite finditer_step.
  destruct (Re.match_here stops s) as [m0|] eqn:E.
  - intros [->|Hin]%elem_of_cons.
    + eapply match_here_shape, E.
    + apply (IH (Re.after m0)); [|exact Hin].
      apply Re.match_here_shorter in E. lia.
  - destruct s as [|c s]; [intros H; inversion H|].
    apply IH. cbn in Hn. lia.
Qed.

(** A record of the collected mapping comes from a match whose code,
    upper-cased, is its key. *)
Lemma collect_lookup ms k v :
  Re.collect ms !! k = Some v →
  ∃ m, m ∈ ms ∧ Py.upper (Re.CODE m) = k ∧ v = raw_text_record (PStr (Re.METAR m)).
Proof.
  unfold Re.collect.
  enough (G : ∀ (acc : Reports),
             fold_left (λ metars m,
                          <[Py.upper (Re.CODE m) := raw_text_record (PStr (Re.METAR m))]> metars)
                       ms acc !! k = Some v →
             acc !! k = Some v
             ∨ ∃ m, m ∈ ms ∧ Py.upper (Re.CODE m) = k
                    ∧ v = raw_text_record (PStr (Re.METAR m))).
  { intros H. destruct (G ∅ H) as [H0|H1]; [|exact H1].
    rewrite lookup_empty in H0. discriminate. }
  induction ms as [|m ms IH]; intros acc; cbn; [left; assumption|].
  intros H. destruct (IH _ H) as [H0|(m' & Hin & Hk & Hv)].
  - destruct (decide (Py.upper (Re.CODE m) = k)) as [Heq|Hne].
    + rewrite <- Heq, lookup_insert_eq in H0. injection H0 as <-.
      right. exists m. split; [left|]. split; [exact Heq|reflexivity].
    + rewrite lookup_insert_ne in H0 by exact Hne. left. exact H0.
  - right. exists m'. split; [right; exact Hin|]. split; assumption.
Qed.

Lemma collect_key_iff ms k :
  is_Some (Re.collect ms !! k) ↔ ∃ m, m ∈ ms ∧ Py.upper (Re.CODE m) = k.
Proof.
  split.
  - intros [v Hv]. destruct (collect_lookup _ _ _ Hv) as (m & Hin & Hk & _). eauto.
  - unfold Re.collect. generalize (∅ : Reports).
    induction ms as [|m ms IH]; intros acc (m' & Hin & Hk); [inversion Hin|].
    cbn. apply elem_of_cons in Hin as [->|Hin].
    + clear IH. subst k. generalize dependent acc.
      enough (G : ∀ (acc : Reports), is_Some (acc !! Py.upper (Re.CODE m)) →
                 is_Some (fold_left (λ metars m0,
                   <[Py.upper (Re.CODE m0) := raw_text_record (PStr (Re.METAR m0))]> metars)
                   ms acc !! Py.upper (Re.CODE m))).
      { intros acc. apply G. rewrite lookup_insert_eq. eauto. }
      induction ms as [|m1 ms IH]; intros acc Hacc; cbn; [exact Hacc|].
      apply IH. rewrite lookup_insert. case_decide; eauto.
    + apply IH. eauto.
Qed.

(** What the two scraping adapters return is the collection of the
    matches in the body of the (last) response. *)
Lemma BOM_returns net self w metars w' :
  BOM.get_metar_info net self w = (Ok metars, w') →
  ∃ body, metars = Re.collect (Re.finditer BOM.stops body).
Proof.
  unfold BOM.get_metar_info, bind, ret.
  destruct (requests_post net BOM.URL (BOM.payload self) w) as [[r|e] w1];
    [|discriminate].
  intros [= <- _]. eauto.
Qed.

Lemma IFIS_returns net self w metars w' :
  IFIS.get_metar_info net self w = (Ok metars, w') →
  ∃ body, metars = Re.collect (Re.finditer IFIS.stops body).
Proof.
  unfold IFIS.get_metar_info. intros H.
  apply bind_ok in H as (r & w1 & _ & H).
  unfold ret in H. injection H as <- _. eauto.
Qed.

(** C10. In a mapping returned by the HTML-scrape or the
    authenticated-scrape adapter, the raw text of every record begins
    with a code of four characters whose upper-casing is the key of the
    record. *)
Theorem scraped_key_recoverable (net : Endpoint) (w w' : World)
  (metars : Reports) (k : string) (v : pyval) :
  (∃ self, BOM.get_metar_info net self w = (Ok metars, w'))
  ∨ (∃ self, IFIS.get_metar_info net self w = (Ok metars, w')) →
  metars !! k = Some v →
  ∃ code rest,
    getitem v "raw_text" = Ok (PStr (code ++ rest))
    ∧ String.length code = 4
    ∧ Py.upper code = k.
Proof.
  intros Hrun Hk.
  assert (∃ stops body, metars = Re.collect (Re.finditer stops body))
    as (stops & body & ->).
  { destruct Hrun as [[self H]|[self H]].
    - apply BOM_returns in H as [body ->]. eauto.
    - apply IFIS_returns in H as [body ->]. eauto. }
  apply collect_lookup in Hk as (m & Hin & <- & ->).
  apply (finditer_shape stops (S (String.length body))) in Hin as [Hlen [rest Hm]];
    [|lia].
  exists (Re.CODE m), rest. rewrite <- Hm.
  split; [reflexivity|]. split; [exact Hlen|reflexivity].
Qed.

(** C10, on the page of the specification's end-to-end scenario. *)
Lemma scraped_key_recoverable_witness :
  ∃ code rest,
    getitem (raw_text_record (PStr "YSSY 221856Z ...")) "raw_text"
      = Ok (PStr (code ++ rest))
    ∧ String.length code = 4
    ∧ Py.upper code = "YSSY".
Proof.
  apply (scraped_key_recoverable
           (replies ["<p>METAR YSSY 221856Z ...<br /></p>"]) []
           [Sent (Post BOM.URL (BOM.payload (BOM.__init__ ["YSSY"])))]
           {["YSSY" := raw_text_record (PStr "YSSY 221856Z ...")]}
           "YSSY").
  - left. exists (BOM.__init__ ["YSSY"]). vm_compute. reflexivity.
  - vm_compute. reflexivity.
Defined.

Example BOM_end_to_end :
  fst (BOM.get_metar_info (replies ["<p>METAR YSSY 221856Z ...<br /></p>"])
                          (BOM.__init__ ["YSSY"]) [])
  = Ok {["YSSY" := raw_text_record (PStr "YSSY 221856Z ...")]}.
Proof. vm_compute. reflexivity. Qed.

(** ** The allow-list of the authenticated-scrape adapter *)

Lemma str_in_elem x xs : Py.str_in x xs = true ↔ x ∈ xs.
Proof.
  unfold Py.str_in. rewrite existsb_exists. split.
  - intros (y & Hin & Heq). apply String.eqb_eq in Heq as ->.
    apply list_elem_of_In. exact Hin.
  - intros Hin. exists x. split; [apply list_elem_of_In; exact Hin|apply String.eqb_refl].
Qed.

Lemma split_on_plain sep s : Py.has_char sep s = false → Py.split_on sep s = [s].
Proof.
  induction s as [|c s IH]; cbn; [reflexivity|].
  destruct (Ascii.eqb c sep); [discriminate|]. cbn. intros H. rewrite (IH H). reflexivity.
Qed.

Lemma split_on_append sep x rest :
  Py.has_char sep x = false →
  Py.split_on sep (x ++ String sep rest) = x :: Py.split_on sep rest.
Proof.
  induction x as [|c x IH]; intros H.
  - change ("" ++ String sep rest)%string with (String sep rest). cbn.
    rewrite Ascii.eqb_refl. reflexivity.
  - change (String c x ++ String sep rest)%string
      with (String c (x ++ String sep rest)%string).
    cbn in H |- *. destruct (Ascii.eqb c sep); [discriminate|].
    rewrite (IH H). reflexivity.
Qed.

(** Codes without a blank, joined by blanks, are the words of the result. *)
Lemma split_on_join xs :
  xs ≠ [] →
  Forall (λ x, Py.has_char " " x = false) xs →
  Py.split_on " " (Py.join " " xs) = xs.
Proof.
  induction xs as [|x xs IH]; [congruence|]. intros _ Hall.
  apply Forall_cons in Hall as [Hx Hxs].
  destruct xs as [|y ys].
  - cbn. apply split_on_plain. exact Hx.
  - change (Py.join " " (x :: y :: ys)) with (x ++ " " ++ Py.join " " (y :: ys))%string.
    change (" " ++ Py.join " " (y :: ys))%string with (String " " (Py.join " " (y :: ys))).
    rewrite split_on_append by exact Hx. rewrite IH; [reflexivity|congruence|exact Hxs].
Qed.

Lemma accepted_codes_plain :
  Forall (λ x, Py.has_char " " x = false) IFIS.ACCEPTED_CODES.
Proof. repeat constructor. Qed.

(** C7. Whatever codes are requested, construction of the
    authenticated-scrape adapter raises nothing (given the credentials),
    and the [MetLocations] field of its data request is the list of the
    requested codes that are in the allow-list, separated by blanks:
    a code is in that list exactly when it was requested and is
    allow-listed, and the words of the field are that list. *)
Theorem IFIS_payload_allow_listed (airport_codes : list string)
  (config : gmap string (gmap string string)) (username password : string) :
  IFIS.config_get config "ifis" "username" = Ok username →
  IFIS.config_get config "ifis" "password" = Ok password →
  ∃ self kept,
    IFIS.__init__ airport_codes config = Ok self
    ∧ IFIS.data_payload self =
      [("METAR", PNum 1); ("MetLocations", PStr (Py.join " " kept))]
    ∧ (∀ code, code ∈ kept ↔ code ∈ airport_codes ∧ code ∈ IFIS.ACCEPTED_CODES)
    ∧ (kept ≠ [] → Py.split_on " " (Py.join " " kept) = kept)
    ∧ (kept = [] → Py.join " " kept = "").
Proof.
  intros Hu Hp. unfold IFIS.__init__. rewrite Hu, Hp. cbn [result_bind].
  set (kept := filter (λ code, Py.str_in code IFIS.ACCEPTED_CODES = true) airport_codes).
  assert (Hkept : ∀ code, code ∈ kept ↔ code ∈ airport_codes ∧ code ∈ IFIS.ACCEPTED_CODES).
  { intros code. unfold kept. rewrite list_elem_of_filter, str_in_elem. tauto. }
  eexists. exists kept. split; [reflexivity|]. split; [reflexivity|].
  split; [exact Hkept|]. split.
  - intros Hne. apply split_on_join; [exact Hne|].
    apply Forall_forall. intros x Hx. apply Hkept in Hx as [_ Hx].
    exact (proj1 (Forall_forall _ _) accepted_codes_plain x Hx).
  - intros ->. reflexivity.
Qed.

(** C7, with two allow-listed codes among four requested ones. *)
Lemma IFIS_payload_allow_listed_witness :
  ∃ self kept,
    IFIS.__init__ ["NZCH"; "YBBN"; "NZAA"; "nzwn"]
      {["ifis" := {["username" := "pilot"; "password" := "secret"]}]} = Ok self
    ∧ IFIS.data_payload self =
      [("METAR", PNum 1); ("MetLocations", PStr (Py.join " " kept))]
    ∧ (∀ code, code ∈ kept ↔
         code ∈ ["NZCH"; "YBBN"; "NZAA"; "nzwn"] ∧ code ∈ IFIS.ACCEPTED_CODES)
    ∧ (kept ≠ [] → Py.split_on " " (Py.join " " kept) = kept)
    ∧ (kept = [] → Py.join " " kept = "").
Proof.
  apply (IFIS_payload_allow_listed ["NZCH"; "YBBN"; "NZAA"; "nzwn"]
           {["ifis" := {["username" := "pilot"; "password" := "secret"]}]}
           "pilot" "secret"); vm_compute; reflexivity.
Defined.

Example IFIS_payload_example :
  IFIS.data_payload <$>
    (match IFIS.__init__ ["NZCH"; "YBBN"; "NZAA"; "nzwn"]
             {["ifis" := {["username" := "pilot"; "password" := "secret"]}]} with
     | Ok self => Some self
     | Raise _ => None
     end)
  = Some [("METAR", PNum 1); ("MetLocations", PStr "NZCH NZAA")].
Proof. vm_compute. reflexivity. Qed.

(** ** All or nothing *)

Section Primary.
Variable net : Endpoint.
Variable parsexml : string -> result pyval.

(** A chunk whose envelope cannot be read: the failure is logged, the
    pause is taken all the same, and the exception goes on. *)
Lemma fetch_chunk_parse_failure self acc chunk w resp w2 e :
  _query net (NOAA.URL (NOAA.subdomain self) (Py.join "," chunk)) w = (Ok resp, w2) →
  NOAA.envelope parsexml (text resp) = Raise e →
  NOAA.fetch_chunk net parsexml self acc chunk w =
  (Raise e, w2 ++ [Logged (LogException "Metar response is invalid." e); Slept 1000]).
Proof.
  intros Hq He. unfold NOAA.fetch_chunk. rewrite (bind_run _ _ _ _ _ Hq).
  apply bind_raise.
  unfold try_finally, try_except, lift, bind, emit, raise. rewrite He.
  rewrite <- app_assoc. reflexivity.
Qed.

(** C9. When the envelope of some chunk cannot be parsed, the retrieval
    of the primary (or backup) adapter ends with that exception: the
    entries [acc1] of the chunks before it are not returned. *)
Theorem NOAA_all_or_nothing (self : NOAA.t) (w : World)
  (before : list (list string)) (chunk : list string) (later : list (list string))
  (acc1 : Reports) (w1 : World) (resp : response) (w2 : World) (e : exn) :
  chunks (NOAA.airport_codes self) 250 = Ok (before ++ chunk :: later) →
  for_each before (NOAA.fetch_chunk net parsexml self) ∅ w = (Ok acc1, w1) →
  _query net (NOAA.URL (NOAA.subdomain self) (Py.join "," chunk)) w1 = (Ok resp, w2) →
  NOAA.envelope parsexml (text resp) = Raise e →
  NOAA.get_metar_info net parsexml self w =
  (Raise e, w2 ++ [Logged (LogException "Metar response is invalid." e); Slept 1000]).
Proof.
  intros Hchunks Hbefore Hq He. unfold NOAA.get_metar_info.
  rewrite (bind_run _ _ w (before ++ chunk :: later) w)
    by (unfold lift; rewrite Hchunks; reflexivity).
  eapply for_each_raise; [exact Hbefore|].
  eapply fetch_chunk_parse_failure; eassumption.
Qed.

End Primary.

Example NOAA_end_to_end :
  fst (NOAA.get_metar_info (replies [two_xml])
         (parser_of [(two_xml, two_tree)] ExpatError) (NOAA.new ["KDEN"; "KJFK"]) [])
  = Ok {["KDEN" := kden_entry; "KJFK" := kjfk_entry]}.
Proof. vm_compute. reflexivity. Qed.

(** One entry or several, the mapping has the same shape. *)
Example NOAA_single_entry :
  fst (NOAA.get_metar_info (replies [kden_xml])
         (parser_of [(kden_xml, kden_tree)] ExpatError) (NOAA.new ["KDEN"]) [])
  = Ok {["KDEN" := kden_entry]}.
Proof. vm_compute. reflexivity. Qed.

(** C9, with 251 codes: the first chunk of 250 is answered and parsed,
    the answer to the second chunk is not XML. *)
Lemma NOAA_all_or_nothing_witness :
  ∃ w2 : World,
    NOAA.get_metar_info (replies [kden_xml; "Service Unavailable"])
      (parser_of [(kden_xml, kden_tree)] ExpatError)
      (NOAA.new (repeat "KDEN" 250 ++ ["KJFK"])) []
    = (Raise ExpatError,
       w2 ++ [Logged (LogException "Metar response is invalid." ExpatError); Slept 1000]).
Proof.
  eexists.
  eapply (NOAA_all_or_nothing (replies [kden_xml; "Service Unavailable"])
            (parser_of [(kden_xml, kden_tree)] ExpatError)
            (NOAA.new (repeat "KDEN" 250 ++ ["KJFK"])) []
            [repeat "KDEN" 250] ["KJFK"] []).
  - vm_compute. reflexivity.
  - vm_compute. reflexivity.
  - vm_compute. reflexivity.
  - vm_compute. reflexivity.
Defined.

(** ** Keys of the returned mapping *)

Lemma for_each_invariant {A S} (P : S → Prop) (step : S -> A -> M S) xs :
  (∀ acc x w acc' w', P acc → step acc x w = (Ok acc', w') → P acc') →
  ∀ acc w acc' w', P acc → for_each xs step acc w = (Ok acc', w') → P acc'.
Proof.
  intros Hstep. induction xs as [|x xs IH]; intros acc w acc' w' Hacc; cbn.
  - unfold ret. intros [= <- _]. exact Hacc.
  - intros H. apply bind_ok in H as (a & w1 & Hx & Hrest).
    eapply IH; [|exact Hrest]. eapply Hstep; eassumption.
Qed.

Lemma upper_ascii_idem c : Py.upper_ascii (Py.upper_ascii c) = Py.upper_ascii c.
Proof. destruct c as [[] [] [] [] [] [] [] []]; reflexivity. Qed.

Lemma upper_lower_ascii c : Py.upper_ascii (Py.lower_ascii c) = Py.upper_ascii c.
Proof. destruct c as [[] [] [] [] [] [] [] []]; reflexivity. Qed.

Lemma upper_idem s : Py.upper (Py.upper s) = Py.upper s.
Proof. induction s as [|c s IH]; cbn; [reflexivity|]. rewrite upper_ascii_idem, IH. reflexivity. Qed.

Lemma upper_lower s : Py.upper (Py.lower s) = Py.upper s.
Proof. induction s as [|c s IH]; cbn; [reflexivity|]. rewrite upper_lower_ascii, IH. reflexivity. Qed.

Lemma NOAA_store_keyed acc m w acc' w' :
  keyed_by_station acc →
  NOAA.store acc m w = (Ok acc', w') →
  keyed_by_station acc'.
Proof.
  intros Hacc. unfold NOAA.store, lift.
  destruct (getitem m "station_id") as [sidv|] eqn:Hsid; [|discriminate].
  cbn [result_bind]. destruct sidv as [sid| | | | |]; try discriminate.
  cbn. intros [= <- _] k m' Hk.
  destruct (decide (Py.upper sid = k)) as [<-|Hne].
  - rewrite lookup_insert_eq in Hk. injection Hk as <-. eauto.
  - rewrite lookup_insert_ne in Hk by exact Hne. apply Hacc. exact Hk.
Qed.

Lemma NOAA_keyed net parsexml self w metars w' :
  NOAA.get_metar_info net parsexml self w = (Ok metars, w') →
  keyed_by_station metars.
Proof.
  unfold NOAA.get_metar_info. intros H.
  apply bind_ok in H as (groups & w0 & _ & H).
  revert H. apply for_each_invariant.
  - intros acc chunk w1 acc' w1' Hacc Hchunk. unfold NOAA.fetch_chunk in Hchunk.
    apply bind_ok in Hchunk as (resp & w2 & _ & Hchunk).
    apply bind_ok in Hchunk as (entries & w3 & _ & Hchunk).
    revert Hchunk. apply for_each_invariant; [|exact Hacc].
    intros. eapply NOAA_store_keyed; eassumption.
  - intros k m Hk. rewrite lookup_empty in Hk. discriminate.
Qed.

(** The geographic adapter keeps an observation only under the
    upper-casing of one of its own codes. *)
Lemma SkyVector_keys net parsejson self w metars w' k :
  SkyVector.get_metar_info net parsejson self w = (Ok metars, w') →
  is_Some (metars !! k) →
  ∃ s, s ∈ SkyVector.airport_codes self ∧ k = Py.upper s.
Proof.
  unfold SkyVector.get_metar_info. intros H.
  apply bind_ok in H as (resp & w0 & _ & H).
  apply bind_ok in H as (data & w1 & _ & H).
  apply bind_ok in H as (items & w2 & _ & H).
  revert k.
  change (∀ k, is_Some (metars !! k) →
               ∃ s, s ∈ SkyVector.airport_codes self ∧ k = Py.upper s)
    with ((λ ms : Reports, ∀ k, is_Some (ms !! k) →
               ∃ s, s ∈ SkyVector.airport_codes self ∧ k = Py.upper s) metars).
  revert H. apply for_each_invariant.
  - intros acc item wa acc' wa' Hacc. unfold SkyVector.keep, lift.
    destruct (getitem item "s") as [sv|]; [|discriminate]. cbn [result_bind].
    destruct (val_in sv (SkyVector.airport_codes self)) eqn:Hin.
    + destruct (getitem item "m") as [mv|]; [|discriminate]. cbn [result_bind].
      destruct sv as [s| | | | |]; try discriminate. cbn.
      intros [= <- _] k Hk. rewrite lookup_insert in Hk. case_decide as Hd.
      * exists s. split; [|symmetry; exact Hd]. apply str_in_elem. exact Hin.
      * apply Hacc. exact Hk.
    + intros [= <- _]. exact Hacc.
  - intros k [v Hv]. rewrite lookup_empty in Hv. discriminate.
Qed.

(** ** The two scraping adapters post directly *)

Lemma BOM_run net self w :
  BOM.get_metar_info net self w =
  let rq := Post BOM.URL (BOM.payload self) in
  match net (sent_count w) rq with
  | Replied r => (Ok (Re.collect (Re.finditer BOM.stops (text r))), w ++ [Sent rq])
  | Failed e => (Raise e, w ++ [Sent rq])
  end.
Proof.
  unfold BOM.get_metar_info, bind, requests_post, send, ret. cbv zeta.
  destruct (net _ _); reflexivity.
Qed.

Lemma IFIS_run net self w :
  IFIS.get_metar_info net self w =
  let login := Post IFIS.LOGIN_URL (IFIS.login_payload self) in
  let data := Post IFIS.URL (IFIS.data_payload self) in
  match net (sent_count w) login with
  | Failed e => (Raise e, w ++ [SessionOpened; Sent login; SessionClosed])
  | Replied _ =>
      match net (S (sent_count w)) data with
      | Failed e =>
          (Raise e, w ++ [SessionOpened; Sent login; Sent data; SessionClosed])
      | Replied r =>
          (Ok (Re.collect (Re.finditer IFIS.stops (text r))),
           w ++ [SessionOpened; Sent login; Sent data; Logged (LogInfo (text r));
                 SessionClosed])
      end
  end.
Proof.
  unfold IFIS.get_metar_info, bind, emit, try_finally, requests_post, send, ret.
  cbv zeta. rewrite !sent_count_app. cbn [sent_count List.filter is_sent length].
  rewrite Nat.add_0_r.
  destruct (net (sent_count w) _) as [r0|e].
  - rewrite !sent_count_app. cbn [sent_count List.filter is_sent length].
    rewrite Nat.add_0_r, Nat.add_1_r.
    destruct (net (S (sent_count w)) _) as [r|e]; rewrite <- !app_assoc; reflexivity.
  - rewrite <- !app_assoc. reflexivity.
Qed.

(** ** Which adapters retry *)

(** C4 (amended). The primary, backup and geographic adapters send
    their request through the retrying fetcher: when ten attempts in a
    row fail, the exception of the tenth reaches the caller after
    exactly ten requests.  The HTML-scrape adapter posts once, and the
    authenticated-scrape adapter twice, without the fetcher: a
    transport failure reaches the caller after that one attempt, and a
    response is used whatever its status. *)
Theorem adapters_retry_scope (net : Endpoint) (w : World) :
  (∀ parsexml self first rest,
     chunks (NOAA.airport_codes self) 250 = Ok (first :: rest) →
     let u := NOAA.URL (NOAA.subdomain self) (Py.join "," first) in
     (∀ j, j < 10 → is_ok (attempt_outcome net (sent_count w + j) u) = false) →
     ∃ e w', NOAA.get_metar_info net parsexml self w = (Raise e, w')
             ∧ attempt_outcome net (sent_count w + 9) u = Raise e
             ∧ sent_count w' = sent_count w + 10)
  ∧ (∀ parsejson self,
       let u := SkyVector.url self in
       (∀ j, j < 10 → is_ok (attempt_outcome net (sent_count w + j) u) = false) →
       ∃ e w', SkyVector.get_metar_info net parsejson self w = (Raise e, w')
               ∧ attempt_outcome net (sent_count w + 9) u = Raise e
               ∧ sent_count w' = sent_count w + 10)
  ∧ (∀ self,
       BOM.get_metar_info net self w =
       let rq := Post BOM.URL (BOM.payload self) in
       match net (sent_count w) rq with
       | Replied r => (Ok (Re.collect (Re.finditer BOM.stops (text r))), w ++ [Sent rq])
       | Failed e => (Raise e, w ++ [Sent rq])
       end)
  ∧ (∀ self,
       IFIS.get_metar_info net self w =
       let login := Post IFIS.LOGIN_URL (IFIS.login_payload self) in
       let data := Post IFIS.URL (IFIS.data_payload self) in
       match net (sent_count w) login with
       | Failed e => (Raise e, w ++ [SessionOpened; Sent login; SessionClosed])
       | Replied _ =>
           match net (S (sent_count w)) data with
           | Failed e =>
               (Raise e, w ++ [SessionOpened; Sent login; Sent data; SessionClosed])
           | Replied r =>
               (Ok (Re.collect (Re.finditer IFIS.stops (text r))),
                w ++ [SessionOpened; Sent login; Sent data; Logged (LogInfo (text r));
                      SessionClosed])
           end
       end).
Proof.
  split; [|split; [|split]].
  - intros parsexml self first rest Hchunks u Hfail.
    destruct (call_query_exhausts net u 9 1 w eq_refl) as (e & w' & Hq & Hlast & Hsent & _).
    { intros j Hj. apply Hfail. lia. }
    exists e, w'. split; [|split; [exact Hlast|lia]].
    unfold NOAA.get_metar_info.
    rewrite (bind_run _ _ w (first :: rest) w) by (unfold lift; rewrite Hchunks; reflexivity).
    cbn [for_each]. apply bind_raise. unfold NOAA.fetch_chunk.
    apply bind_raise. exact Hq.
  - intros parsejson self u Hfail.
    destruct (call_query_exhausts net u 9 1 w eq_refl) as (e & w' & Hq & Hlast & Hsent & _).
    { intros j Hj. apply Hfail. lia. }
    exists e, w'. split; [|split; [exact Hlast|lia]].
    unfold SkyVector.get_metar_info. apply bind_raise. exact Hq.
  - intros self. apply BOM_run.
  - intros self. apply IFIS_run.
Qed.

(** C4, at a primary adapter whose provider answers 503 throughout. *)
Lemma adapters_retry_scope_witness :
  ∃ e w', NOAA.get_metar_info (always (Replied {| status_code := 503; text := "" |}))
            (parser_of [] ExpatError) (NOAA.new ["KDEN"; "KJFK"]) [] = (Raise e, w')
          ∧ sent_count w' = 10.
Proof.
  destruct (adapters_retry_scope
              (always (Replied {| status_code := 503; text := "" |})) [])
    as (Hnoaa & _).
  destruct (Hnoaa (parser_of [] ExpatError) (NOAA.new ["KDEN"; "KJFK"])
                  ["KDEN"; "KJFK"] []) as (e & w' & Hrun & _ & Hsent).
  - reflexivity.
  - intros j _. reflexivity.
  - exists e, w'. split; [exact Hrun|exact Hsent].
Defined.

(** C4 as stated fails: the HTML-scrape adapter gives up at the first
    connection error, although the second attempt would have been
    answered, and it reads a page that came with status 500; the
    authenticated-scrape adapter gives up when its login times out. *)
Lemma BOM_does_not_retry_counterexample :
  BOM.get_metar_info
    (fails_then 1 ConnectionError
       {| status_code := 200; text := "METAR YSSY 221856Z<br />" |})
    (BOM.__init__ ["YSSY"]) []
  = (Raise ConnectionError, [Sent (Post BOM.URL (BOM.payload (BOM.__init__ ["YSSY"])))])
  ∧ BOM.get_metar_info
      (always (Replied {| status_code := 500; text := "METAR YSSY 221856Z<br />" |}))
      (BOM.__init__ ["YSSY"]) []
    = (Ok {["YSSY" := raw_text_record (PStr "YSSY 221856Z")]},
       [Sent (Post BOM.URL (BOM.payload (BOM.__init__ ["YSSY"])))])
  ∧ (∃ self,
       IFIS.__init__ ["NZCH"] {["ifis" := {["username" := "u"; "password" := "p"]}]}
         = Ok self
       ∧ IFIS.get_metar_info
           (fails_then 1 Timeout {| status_code := 200; text := "METAR NZCH 221900Z<br/>" |})
           self []
         = (Raise Timeout,
            [SessionOpened; Sent (Post IFIS.LOGIN_URL (IFIS.login_payload self));
             SessionClosed])).
Proof.
  split; [reflexivity|]. split; [vm_compute; reflexivity|].
  eexists. split; [vm_compute; reflexivity|]. vm_compute. reflexivity.
Qed.

(** ** Scope of the returned keys *)

Lemma KO61_returns b w metars w' :
  KO61.get_metar_info b w = (Ok (Some metars), w') →
  ∃ txt, metars = {["KO61" := raw_text_record (PStr txt)]}.
Proof.
  unfold KO61.get_metar_info, KO61.try_except_Exception, try_finally, try_except,
    bind, lift, emit, ret, raise.
  destruct (KO61.launch b) as [[]|]; [|discriminate].
  destruct (KO61.newPage b) as [[]|]; [|discriminate].
  destruct (KO61.goto b) as [[]|e1].
  - destruct (KO61.waitForSelector b) as [[]|e2].
    + destruct (KO61.evaluate b) as [v|e3].
      * destruct (KO61.split_method v) as [parts|e4].
        -- destruct (KO61.index "KO61" parts) as [i|e5].
           ++ destruct (KO61.close b) as [[]|]; [|discriminate].
              intros [= <- _]. eauto.
           ++ destruct e5; destruct (KO61.close b) as [[]|]; discriminate.
        -- destruct e4; destruct (KO61.close b) as [[]|]; discriminate.
      * destruct e3; destruct (KO61.close b) as [[]|]; discriminate.
    + destruct e2; destruct (KO61.close b) as [[]|]; discriminate.
  - destruct e1; destruct (KO61.close b) as [[]|]; discriminate.
Qed.

Lemma SkyVector_init_codes csv_rows float_of_str codes self :
  SkyVector.__init__ csv_rows float_of_str codes = Ok self →
  SkyVector.airport_codes self = map Py.upper codes.
Proof.
  unfold SkyVector.__init__.
  destruct (SkyVector._find_coordinates _ _ _) as [found|]; [|discriminate].
  intros [= <-]. reflexivity.
Qed.

(** C1 as stated fails: asked for YSSY only, the HTML-scrape adapter
    also returns the YMML report the page happens to show; likewise the
    authenticated-scrape adapter asked for NZCH returns NZAA, and the
    primary adapter asked for KDEN returns KJFK. *)
Lemma BOM_unrequested_key_counterexample :
  (∃ metars,
     fst (BOM.get_metar_info
            (replies ["<p>METAR YSSY 221856Z 1<br />SPECI YMML 221900Z 2<br /></p>"])
            (BOM.__init__ ["YSSY"]) []) = Ok metars
     ∧ is_Some (metars !! "YMML")
     ∧ "YMML" ∉ map Py.upper ["YSSY"])
  ∧ (∃ self metars,
       IFIS.__init__ ["NZCH"] {["ifis" := {["username" := "u"; "password" := "p"]}]}
         = Ok self
       ∧ fst (IFIS.get_metar_info
                (replies ["welcome";
                          "<span>METAR NZCH 221900Z 1=</span><span>METAR NZAA 221900Z 2=</span>"])
                self []) = Ok metars
       ∧ is_Some (metars !! "NZAA")
       ∧ "NZAA" ∉ map Py.upper ["NZCH"])
  ∧ (∃ metars,
       fst (NOAA.get_metar_info (replies [two_xml])
              (parser_of [(two_xml, two_tree)] ExpatError) (NOAA.new ["KDEN"]) [])
         = Ok metars
       ∧ is_Some (metars !! "KJFK")
       ∧ "KJFK" ∉ map Py.upper ["KDEN"]).
Proof.
  split; [|split].
  - eexists. split; [vm_compute; reflexivity|]. split; [vm_compute; eauto|].
    intros [H|H]%elem_of_cons; [discriminate|inversion H].
  - eexists. eexists. split; [vm_compute; reflexivity|].
    split; [vm_compute; reflexivity|]. split; [vm_compute; eauto|].
    intros [H|H]%elem_of_cons; [discriminate|inversion H].
  - eexists. split; [vm_compute; reflexivity|]. split; [vm_compute; eauto|].
    intros [H|H]%elem_of_cons; [discriminate|inversion H].
Qed.

(** ** Upper and lower case *)

(** C5 as stated fails: the primary adapter asks the provider for
    [kden] when given [kden] and for [KDEN] when given [KDEN], the
    HTML-scrape adapter searches for [yssy] or for [YSSY], and the
    authenticated-scrape adapter drops an allow-listed code that is
    given in lower case. *)
Lemma lower_case_request_counterexample :
  requests_of (snd (NOAA.get_metar_info (replies [kden_xml])
                      (parser_of [(kden_xml, kden_tree)] ExpatError)
                      (NOAA.new ["kden"]) []))
  = [Get (NOAA.URL "www" "kden")]
  ∧ requests_of (snd (NOAA.get_metar_info (replies [kden_xml])
                        (parser_of [(kden_xml, kden_tree)] ExpatError)
                        (NOAA.new ["KDEN"]) []))
    = [Get (NOAA.URL "www" "KDEN")]
  ∧ NOAA.URL "www" "kden" ≠ NOAA.URL "www" "KDEN"
  ∧ BOM.payload (BOM.__init__ ["yssy"])
    = [("keyword", PStr "yssy"); ("type", PStr "search"); ("page", PStr "TAF")]
  ∧ BOM.payload (BOM.__init__ ["YSSY"])
    = [("keyword", PStr "YSSY"); ("type", PStr "search"); ("page", PStr "TAF")]
  ∧ (∃ lower upper,
       IFIS.__init__ ["nzch"] {["ifis" := {["username" := "u"; "password" := "p"]}]}
         = Ok lower
       ∧ IFIS.__init__ ["NZCH"] {["ifis" := {["username" := "u"; "password" := "p"]}]}
         = Ok upper
       ∧ IFIS.data_payload lower = [("METAR", PNum 1); ("MetLocations", PStr "")]
       ∧ IFIS.data_payload upper = [("METAR", PNum 1); ("MetLocations", PStr "NZCH")]).
Proof.
  split; [vm_compute; reflexivity|]. split; [vm_compute; reflexivity|].
  split; [vm_compute; discriminate|].
  split; [reflexivity|]. split; [reflexivity|].
  eexists. eexists. repeat split; vm_compute; reflexivity.
Qed.

(** ** Construction of the geographic adapter *)

Lemma dict_set_keys {V} k (v : V) items c :
  c ∈ (dict_set k v items).*1 ↔ c = k ∨ c ∈ items.*1.
Proof.
  induction items as [|[k' v'] items IH]; cbn.
  - rewrite elem_of_cons. reflexivity.
  - destruct (String.eqb_spec k k') as [<-|Hne]; cbn; rewrite !elem_of_cons.
    + tauto.
    + rewrite IH. tauto.
Qed.









Example SkyVector_no_code_known :
  SkyVector.__init__ (Ok airports_csv) Decimal.to_float ["XXXX"] = Raise ValueError
  ∧ SkyVector.__init__ (Ok airports_csv) Decimal.to_float [] = Raise ValueError.
Proof. split; reflexivity. Qed.

(** ** The rendered-page adapter *)

Lemma launched_app w1 w2 : KO61.launched (w1 ++ w2) = KO61.launched w1 + KO61.launched w2.
Proof. unfold KO61.launched. rewrite List.filter_app, length_app. reflexivity. Qed.

Lemma closed_app w1 w2 : KO61.closed (w1 ++ w2) = KO61.closed w1 + KO61.closed w2.
Proof. unfold KO61.closed. rewrite List.filter_app, length_app. reflexivity. Qed.

(** Once the page is open, a failure of the load, the wait or the
    extraction gives no result and no exception, and the browser is
    closed. *)
Lemma KO61_failure_is_absent b w e :
  KO61.launch b = Ok tt →
  KO61.newPage b = Ok tt →
  KO61.close b = Ok tt →
  first_failure b = Some e →
  e ≠ BaseException →
  ∃ w', KO61.get_metar_info b w = (Ok None, w')
        ∧ KO61.launched w' = S (KO61.launched w)
        ∧ KO61.closed w' = S (KO61.closed w).
Proof.
  intros Hl Hn Hc Hf He.
  unfold KO61.get_metar_info, KO61.try_except_Exception, try_finally, try_except,
    bind, lift, emit, ret, raise.
  rewrite Hl, Hn, Hc. unfold first_failure in Hf.
  destruct (KO61.goto b) as [[]|e1].
  - destruct (KO61.waitForSelector b) as [[]|e2].
    + destruct (KO61.evaluate b) as [v|e3].
      * destruct (KO61.split_method v) as [parts|e4].
        -- destruct (KO61.index "KO61" parts) as [i|e5]; [discriminate|].
           injection Hf as ->. destruct e; try congruence;
             (eexists; split; [reflexivity|];
              rewrite !launched_app, !closed_app; cbn; lia).
        -- injection Hf as ->. destruct e; try congruence;
             (eexists; split; [reflexivity|];
              rewrite !launched_app, !closed_app; cbn; lia).
      * injection Hf as ->. destruct e; try congruence;
          (eexists; split; [reflexivity|];
           rewrite !launched_app, !closed_app; cbn; lia).
    + injection Hf as ->. destruct e; try congruence;
        (eexists; split; [reflexivity|];
         rewrite !launched_app, !closed_app; cbn; lia).
  - injection Hf as ->. destruct e; try congruence;
      (eexists; split; [reflexivity|];
       rewrite !launched_app, !closed_app; cbn; lia).
Qed.

(** C8, where the code departs from it: when the browser is up and the
    page cannot be opened, the exception leaves [get_metar_info] before
    the [try] block is entered, and the browser is not closed. *)
Theorem KO61_newPage_failure_leaks (b : KO61.Browser) (w : World) (e : exn) :
  KO61.launch b = Ok tt →
  KO61.newPage b = Raise e →
  KO61.get_metar_info b w = (Raise e, w ++ [BrowserLaunched])
  ∧ KO61.launched (w ++ [BrowserLaunched]) = S (KO61.launched w)
  ∧ KO61.closed (w ++ [BrowserLaunched]) = KO61.closed w.
Proof.
  intros Hl Hn. split; [|split].
  - unfold KO61.get_metar_info, bind, lift, emit. rewrite Hl, Hn. reflexivity.
  - rewrite launched_app. cbn. lia.
  - rewrite closed_app. cbn. lia.
Qed.

(** C8, at a browser that starts and then fails to open a page. *)
Lemma KO61_newPage_failure_leaks_witness :
  KO61.get_metar_info
    {| KO61.launch := Ok tt; KO61.newPage := Raise BrowserError;
       KO61.goto := Ok tt; KO61.waitForSelector := Ok tt;
       KO61.evaluate := Ok (PStr "METAR KO61 221855Z AUTO 00000KT 10SM CLR");
       KO61.close := Ok tt |} []
  = (Raise BrowserError, [] ++ [BrowserLaunched])
  ∧ KO61.launched ([] ++ [BrowserLaunched]) = S (KO61.launched [])
  ∧ KO61.closed ([] ++ [BrowserLaunched]) = KO61.closed [].
Proof.
  apply (KO61_newPage_failure_leaks
           {| KO61.launch := Ok tt; KO61.newPage := Raise BrowserError;
              KO61.goto := Ok tt; KO61.waitForSelector := Ok tt;
              KO61.evaluate := Ok (PStr "METAR KO61 221855Z AUTO 00000KT 10SM CLR");
              KO61.close := Ok tt |} [] BrowserError); reflexivity.
Defined.

Example KO61_element_wait_fails :
  KO61.get_metar_info
    {| KO61.launch := Ok tt; KO61.newPage := Ok tt;
       KO61.goto := Ok tt; KO61.waitForSelector := Raise Timeout;
       KO61.evaluate := Ok PNone; KO61.close := Ok tt |} []
  = (Ok None,
     [BrowserLaunched; Slept 1000; Logged (Printed "Error: " Timeout); BrowserClosed]).
Proof. reflexivity. Qed.

Example KO61_reading :
  fst (KO61.get_metar_info
         {| KO61.launch := Ok tt; KO61.newPage := Ok tt;
            KO61.goto := Ok tt; KO61.waitForSelector := Ok tt;
            KO61.evaluate := Ok (PStr "METAR KO61 221855Z AUTO 00000KT 10SM CLR ");
            KO61.close := Ok tt |} [])
  = Ok (Some {["KO61" := raw_text_record (PStr "KO61 221855Z AUTO 00000KT 10SM CLR")]}).
Proof. vm_compute. reflexivity. Qed.

(** * Further properties *)

(** ** Where an element goes *)

(** X1. For a chunk size [n > 0], the element at index [i] of the
    sequence is the element at index [i mod n] of the group number
    [i / n]. *)
Theorem chunks_index {A} (l : list A) (n : Z) (gs : list (list A)) (i : nat) (x : A) :
  (0 < n)%Z →
  chunks l n = Ok gs →
  l !! i = Some x →
  ∃ g, gs !! (i / Z.to_nat n) = Some g ∧ g !! (i mod Z.to_nat n) = Some x.
Proof.
  intros Hn Hgs Hi. destruct (Z.to_nat n) as [|s] eqn:Hs; [lia|].
  assert (n = Z.of_nat (S s)) as -> by lia.
  rewrite chunks_pos in Hgs. injection Hgs as <-.
  set (m := S s) in *. set (L := length l).
  assert (HiL : i < L) by (apply lookup_lt_Some in Hi; exact Hi).
  pose proof (Nat.div_mod_eq i m) as Ediv.
  pose proof (Nat.mod_upper_bound i m ltac:(lia)) as Bmod.
  assert (Hq : i / m < (L + s) / m).
  { apply Nat.Div0.div_lt_upper_bound.
    pose proof (Nat.div_mod_eq (L + s) m) as E2.
    pose proof (Nat.mod_upper_bound (L + s) m ltac:(lia)) as B2.
    unfold m in *. nia. }
  eexists. split.
  - rewrite list_lookup_fmap, lookup_seq_lt by exact Hq. reflexivity.
  - cbv beta. unfold Py.slice.
    rewrite lookup_take_lt by lia. rewrite lookup_drop.
    rewrite <- Hi. f_equal. lia.
Qed.

(** X1, for the sixth of seven codes in chunks of three. *)
Lemma chunks_index_witness :
  ∃ g, [[1; 2; 3]; [4; 5; 6]; [7]] !! (5 / Z.to_nat 3) = Some g
       ∧ g !! (5 mod Z.to_nat 3) = Some 6.
Proof.
  apply (chunks_index [1; 2; 3; 4; 5; 6; 7] 3 [[1; 2; 3]; [4; 5; 6]; [7]] 5 6).
  - lia.
  - reflexivity.
  - reflexivity.
Defined.

(** ** The fetcher, whatever the endpoint does *)

Section FetcherBounds.
Variable net : Endpoint.
Variable u : address.

Lemma call_query_bounded : ∀ d n w,
  n + d = 10 →
  ∃ r w' k,
    call query_policy (query_body net u) n w = (r, w')
    ∧ k ≤ d
    ∧ sent_count w' = sent_count w + S k
    ∧ requests_of w' = requests_of w ++ repeat (Get u) (S k)
    ∧ sleeps_of w' = sleeps_of w ++ map (exponential_sleep query_policy) (seq n k).
Proof.
  induction d as [|d IH]; intros n w Hn; rewrite call_step, query_body_run.
  - destruct (attempt_outcome net (sent_count w) u) as [r|e].
    + exists (Ok r). eexists. exists 0. split; [reflexivity|]. split; [lia|].
      rewrite sent_count_app, requests_of_app, sleeps_of_app. cbn.
      rewrite app_nil_r. repeat split; lia.
    + destruct (le_lt_dec _ n) as [_|Hgo]; [|cbn in Hgo; lia].
      exists (Raise e). eexists. exists 0. split; [reflexivity|]. split; [lia|].
      rewrite sent_count_app, requests_of_app, sleeps_of_app. cbn.
      rewrite app_nil_r. repeat split; lia.
  - destruct (attempt_outcome net (sent_count w) u) as [r|e].
    + exists (Ok r). eexists. exists 0. split; [reflexivity|]. split; [lia|].
      rewrite sent_count_app, requests_of_app, sleeps_of_app. cbn.
      rewrite app_nil_r. repeat split; lia.
    + destruct (le_lt_dec _ n) as [Hstop|_]; [cbn in Hstop; lia|].
      match goal with |- context [call _ _ _ ?w1] => set (w1' := w1) end.
      destruct (IH (S n) w1' ltac:(lia)) as (r & w' & k & Hrun & Hk & Hsent & Hreq & Hsleep).
      exists r, w', (S k). split; [exact Hrun|]. split; [lia|].
      unfold w1' in Hsent, Hreq, Hsleep.
      rewrite !sent_count_app in Hsent. rewrite !requests_of_app in Hreq.
      rewrite !sleeps_of_app in Hsleep. cbn in Hsent, Hreq, Hsleep.
      rewrite ?app_nil_r, <- ?app_assoc in Hreq, Hsleep.
      split; [lia|]. split; [exact Hreq|exact Hsleep].
Qed.

Lemma call_query_trace r : ∀ es n w,
  n + length es ≤ 10 →
  (∀ j e, es !! j = Some e → attempt_outcome net (sent_count w + j) u = Raise e) →
  attempt_outcome net (sent_count w + length es) u = Ok r →
  call query_policy (query_body net u) n w =
  (Ok r, w ++ concat (imap (λ j e, failed_attempt u e (n + j)) es)
           ++ [Logged (LogInfoUrl u); Sent (Get u)]).
Proof.
  induction es as [|e es IH]; intros n w Hn Hfail Hok; rewrite call_step, query_body_run.
  - cbn in Hok. rewrite Nat.add_0_r in Hok. rewrite Hok. reflexivity.
  - pose proof (Hfail 0 e eq_refl) as H0. rewrite Nat.add_0_r in H0. rewrite H0.
    destruct (le_lt_dec _ n) as [Hstop|_]; [cbn in Hstop, Hn; lia|].
    match goal with |- context [call _ _ _ ?w1] => set (w1' := w1) end.
    assert (Hc : sent_count w1' = S (sent_count w)).
    { unfold w1'. rewrite !sent_count_app. cbn. lia. }
    rewrite (IH (S n) w1').
    + unfold w1'. rewrite imap_cons. cbn [concat]. unfold failed_attempt at 2.
      rewrite Nat.add_0_r.
      assert (E : imap ((λ j e, failed_attempt u e (n + j)) ∘ S) es
                  = imap (λ j e, failed_attempt u e (S n + j)) es).
      { apply imap_ext. intros j e' _. cbn. f_equal. lia. }
      rewrite E, <- !app_assoc. reflexivity.
    + cbn in Hn. lia.
    + intros j e' Hj. rewrite Hc. replace (S (sent_count w) + j) with (sent_count w + S j) by lia.
      apply Hfail. exact Hj.
    + rewrite Hc. cbn in Hok. replace (S (sent_count w) + length es)
        with (sent_count w + S (length es)) by lia. exact Hok.
Qed.

End FetcherBounds.

(** X2. Whatever the endpoint does, [_query] comes to an end after at
    most ten requests, all of them for the URL it was given, and the
    waits it has taken are an initial segment of 2 s, 4 s, 8 s and six
    times 10 s: one wait less than requests. *)
Theorem query_always_ends (net : Endpoint) (u : address) (w : World) :
  ∃ r w' k,
    _query net u w = (r, w')
    ∧ k < 10
    ∧ sent_count w' = sent_count w + S k
    ∧ requests_of w' = requests_of w ++ repeat (Get u) (S k)
    ∧ sleeps_of w' = sleeps_of w ++ take k wait_schedule.
Proof.
  destruct (call_query_bounded net u 9 1 w eq_refl)
    as (r & w' & k & Hrun & Hk & Hsent & Hreq & Hsleep).
  exists r, w', k. split; [exact Hrun|]. split; [lia|]. split; [exact Hsent|].
  split; [exact Hreq|]. rewrite Hsleep. f_equal.
  do 10 (destruct k as [|k]; [reflexivity|]). lia.
Qed.

(** X3. When the first attempts of [_query] fail with the exceptions
    [es], fewer than ten of them, and the next attempt is answered,
    the response is returned, and what has happened is, for each
    failed attempt in turn, the URL logged, the request, the failure
    logged with its exception and the wait, and then the URL logged and
    the request once more. *)
Theorem query_trace (net : Endpoint) (u : address) (w : World)
  (es : list exn) (r : response) :
  length es < 10 →
  (∀ j e, es !! j = Some e → attempt_outcome net (sent_count w + j) u = Raise e) →
  attempt_outcome net (sent_count w + length es) u = Ok r →
  _query net u w =
  (Ok r, w ++ concat (imap (λ j e, failed_attempt u e (S j)) es)
           ++ [Logged (LogInfoUrl u); Sent (Get u)]).
Proof.
  intros Hlen Hfail Hok. unfold _query.
  apply (call_query_trace net u r es 1 w); [lia|assumption..].
Qed.

(** X3, at an endpoint that answers 503 and then 200. *)
Lemma query_trace_witness :
  _query (λ n _, Replied {| status_code := if n =? 0 then 503%Z else 200%Z; text := "" |})
         (Url "u") []
  = (Ok {| status_code := 200; text := "" |},
     [] ++ concat (imap (λ j e, failed_attempt (Url "u") e (S j)) [HTTPError 503])
        ++ [Logged (LogInfoUrl (Url "u")); Sent (Get (Url "u"))]).
Proof.
  apply (query_trace
           (λ n _, Replied {| status_code := if n =? 0 then 503%Z else 200%Z; text := "" |})
           (Url "u") [] [HTTPError 503] {| status_code := 200; text := "" |}).
  - cbn. lia.
  - intros [|j] e [=]. subst e. reflexivity.
  - reflexivity.
Defined.

(** ** One request for every chunk *)

Lemma for_each_pure {A S} (step : S -> A -> M S) xs :
  (∀ acc x w, snd (step acc x w) = w) →
  ∀ acc w, snd (for_each xs step acc w) = w.
Proof.
  intros Hstep. induction xs as [|x xs IH]; intros acc w; cbn; [reflexivity|].
  unfold bind. pose proof (Hstep acc x w) as Hx.
  destruct (step acc x w) as [[a|e] w1]; cbn in Hx; subst w1; [apply IH|reflexivity].
Qed.

Section PrimaryRequests.
Variable net : Endpoint.
Variable parsexml : string -> result pyval.
Hypothesis answered :
  ∀ n rq, ∃ r, net n rq = Replied r ∧ ¬ (400 ≤ status_code r < 600)%Z.

Lemma query_answered u w :
  ∃ r, _query net u w = (Ok r, w ++ [Logged (LogInfoUrl u); Sent (Get u)]).
Proof.
  destruct (answered (sent_count w) (Get u)) as (r & Hr & Hstatus).
  exists r. unfold _query.
  rewrite (call_query_trace net u r [] 1 w).
  - reflexivity.
  - cbn. lia.
  - intros j e [=].
  - cbn. rewrite Nat.add_0_r. unfold attempt_outcome. rewrite Hr.
    destruct (Z.leb_spec 400 (status_code r)); destruct (Z.ltb_spec (status_code r) 600);
      cbn; try reflexivity. lia.
Qed.

Lemma fetch_chunk_answered self acc chunk w acc' w' :
  NOAA.fetch_chunk net parsexml self acc chunk w = (Ok acc', w') →
  w' = w ++ [Logged (LogInfoUrl (NOAA.URL (NOAA.subdomain self) (Py.join "," chunk)));
             Sent (Get (NOAA.URL (NOAA.subdomain self) (Py.join "," chunk)));
             Slept 1000].
Proof.
  unfold NOAA.fetch_chunk. intros H.
  apply bind_ok in H as (resp & w1 & Hq & H).
  destruct (query_answered (NOAA.URL (NOAA.subdomain self) (Py.join "," chunk)) w)
    as (r & Hr).
  rewrite Hr in Hq. injection Hq as <- <-.
  apply bind_ok in H as (entries & w2 & Htry & H).
  unfold try_finally, try_except, lift, emit, bind, raise in Htry.
  destruct (NOAA.envelope parsexml (text r)) as [es|e]; [|discriminate].
  injection Htry as <- <-.
  pose proof (for_each_pure (NOAA.store) es
                (λ a x w0, eq_refl) acc
                ((w ++ [Logged (LogInfoUrl (NOAA.URL (NOAA.subdomain self) (Py.join "," chunk)));
                        Sent (Get (NOAA.URL (NOAA.subdomain self) (Py.join "," chunk)))])
                 ++ [Slept 1000])) as Hpure.
  rewrite H in Hpure. cbn in Hpure. subst w'. rewrite <- app_assoc. reflexivity.
Qed.

Lemma chunks_answered self : ∀ groups acc w acc' w',
  for_each groups (NOAA.fetch_chunk net parsexml self) acc w = (Ok acc', w') →
  requests_of w' =
    requests_of w ++
    map (λ chunk, Get (NOAA.URL (NOAA.subdomain self) (Py.join "," chunk))) groups
  ∧ sleeps_of w' = sleeps_of w ++ repeat 1000%Z (length groups).
Proof.
  induction groups as [|chunk groups IH]; intros acc w acc' w'; cbn [for_each].
  - unfold ret. intros [= _ <-]. cbn. rewrite !app_nil_r. split; reflexivity.
  - intros H. apply bind_ok in H as (acc1 & w1 & Hchunk & Hrest).
    apply fetch_chunk_answered in Hchunk. subst w1.
    destruct (IH _ _ _ _ Hrest) as [Hreq Hsleep].
    rewrite requests_of_app in Hreq. rewrite sleeps_of_app in Hsleep.
    cbn in Hreq, Hsleep |- *. rewrite <- app_assoc in Hreq, Hsleep.
    split; assumption.
Qed.

End PrimaryRequests.

(** X4. When every request is answered at once with a status that is
    not 4xx or 5xx, a successful retrieval of the primary (or backup)
    adapter has sent exactly one request for every chunk of 250 codes,
    in order, each naming the codes of its chunk joined by commas, and
    has paused for one second after each. *)
Theorem NOAA_one_request_per_chunk (net : Endpoint) (parsexml : string -> result pyval)
  (self : NOAA.t) (w : World) (groups : list (list string))
  (metars : Reports) (w' : World) :
  (∀ n rq, ∃ r, net n rq = Replied r ∧ ¬ (400 ≤ status_code r < 600)%Z) →
  chunks (NOAA.airport_codes self) 250 = Ok groups →
  NOAA.get_metar_info net parsexml self w = (Ok metars, w') →
  requests_of w' =
    requests_of w ++
    map (λ chunk, Get (NOAA.URL (NOAA.subdomain self) (Py.join "," chunk))) groups
  ∧ sleeps_of w' = sleeps_of w ++ repeat 1000%Z (length groups).
Proof.
  intros Hnet Hchunks Hrun. unfold NOAA.get_metar_info in Hrun.
  apply bind_ok in Hrun as (gs & w0 & Hgs & Hrun).
  unfold lift in Hgs. rewrite Hchunks in Hgs. injection Hgs as <- <-.
  eapply chunks_answered; eassumption.
Qed.

(** X4, for two codes, which make one chunk. *)
Lemma NOAA_one_request_per_chunk_witness :
  ∃ w',
    requests_of w' = requests_of [] ++
      map (λ chunk, Get (NOAA.URL (NOAA.subdomain (NOAA.new ["KDEN"; "KJFK"]))
                                  (Py.join "," chunk))) [["KDEN"; "KJFK"]]
    ∧ sleeps_of w' = sleeps_of [] ++ repeat 1000%Z (length [["KDEN"; "KJFK"]]).
Proof.
  eexists.
  eapply (NOAA_one_request_per_chunk
            (always (Replied {| status_code := 200; text := two_xml |}))
            (parser_of [(two_xml, two_tree)] ExpatError)
            (NOAA.new ["KDEN"; "KJFK"]) [] [["KDEN"; "KJFK"]]).
  - intros n rq. eexists. split; [reflexivity|]. cbn. lia.
  - reflexivity.
  - vm_compute. reflexivity.
Defined.

(** ** What the pattern finds *)

Lemma collect_fold_other (ms : list Re.found) (k : string) : ∀ acc : Reports,
  (∀ m, m ∈ ms → Py.upper (Re.CODE m) ≠ k) →
  fold_left (λ metars m,
               <[Py.upper (Re.CODE m) := raw_text_record (PStr (Re.METAR m))]> metars)
            ms acc !! k = acc !! k.
Proof.
  induction ms as [|m ms IH]; intros acc Hne; cbn; [reflexivity|].
  rewrite IH by (intros m' Hm'; apply Hne; right; exact Hm').
  apply lookup_insert_ne. apply Hne. left.
Qed.

(** X5. Of several reports matched for one station (codes equal up to
    case), the mapping of the scraping adapters holds the last. *)
Theorem collect_last_wins (before : list Re.found) (m : Re.found) (later : list Re.found) :
  (∀ m', m' ∈ later → Py.upper (Re.CODE m') ≠ Py.upper (Re.CODE m)) →
  Re.collect (before ++ m :: later) !! Py.upper (Re.CODE m)
  = Some (raw_text_record (PStr (Re.METAR m))).
Proof.
  intros Hlater. unfold Re.collect. rewrite fold_left_app. cbn [fold_left].
  rewrite collect_fold_other by exact Hlater. apply lookup_insert_eq.
Qed.

(** X5, on a page that shows YSSY twice, the second time in lower case. *)
Lemma collect_last_wins_witness :
  Re.collect (Re.finditer BOM.stops
                "METAR YSSY 221800Z old<br />SPECI yssy 221856Z new<br />METAR YMML 1<br />")
    !! "YSSY"
  = Some (raw_text_record (PStr "yssy 221856Z new")).
Proof.
  apply (collect_last_wins
           [{| Re.CODE := "YSSY"; Re.METAR := "YSSY 221800Z old";
               Re.after := "SPECI yssy 221856Z new<br />METAR YMML 1<br />" |}]
           {| Re.CODE := "yssy"; Re.METAR := "yssy 221856Z new";
              Re.after := "METAR YMML 1<br />" |}
           [{| Re.CODE := "YMML"; Re.METAR := "YMML 1"; Re.after := "" |}]).
  intros m' [->|H]%elem_of_cons; [discriminate|inversion H].
Defined.

Lemma literal_split p s s' : Re.literal p s = Some s' → s = (p ++ s')%string.
Proof.
  revert s. induction p as [|a p IH]; intros s; cbn.
  - intros [= ->]. reflexivity.
  - destruct s as [|b s]; [discriminate|].
    destruct (Ascii.eqb_spec a b) as [<-|]; [|discriminate].
    intros H. rewrite (IH _ H). reflexivity.
Qed.

Lemma alternatives_split ps s s' :
  Re.alternatives ps s = Some s' → ∃ p, p ∈ ps ∧ s = (p ++ s')%string.
Proof.
  induction ps as [|p ps IH]; cbn; [discriminate|].
  destruct (Re.literal p s) as [s1|] eqn:E.
  - intros [= ->]. exists p. split; [left|apply literal_split; exact E].
  - intros H. destruct (IH H) as (q & Hq & ->). exists q. split; [right; exact Hq|reflexivity].
Qed.

Lemma lazy_until_split stops s body rest :
  Re.lazy_until stops s = Some (body, rest) →
  Py.has_char Re.newline body = false
  ∧ ∃ stop, stop ∈ stops ∧ s = (body ++ stop ++ rest)%string.
Proof.
  revert body. induction s as [|c s IH]; intros body; cbn.
  - destruct (Re.alternatives stops "") as [r|] eqn:E; [|discriminate].
    intros [= <- <-]. split; [reflexivity|]. apply alternatives_split in E. exact E.
  - destruct (Re.alternatives stops (String c s)) as [r|] eqn:E.
    + intros [= <- <-]. split; [reflexivity|]. apply alternatives_split in E. exact E.
    + destruct (Ascii.eqb c Re.newline) eqn:Hc; [discriminate|].
      destruct (Re.lazy_until stops s) as [[b r]|]; [|discriminate].
      intros [= <- <-]. destruct (IH b eq_refl) as (Hnl & stop & Hstop & ->).
      split; [cbn; rewrite Hc; exact Hnl|]. exists stop. split; [exact Hstop|reflexivity].
Qed.

Lemma has_char_append c a b :
  Py.has_char c (a ++ b) = Py.has_char c a || Py.has_char c b.
Proof.
  induction a as [|x a IH]; [reflexivity|].
  change (String x a ++ b)%string with (String x (a ++ b)%string). cbn.
  rewrite IH. apply orb_assoc.
Qed.

Lemma append_assoc (a b c : string) : ((a ++ b) ++ c = a ++ (b ++ c))%string.
Proof.
  induction a as [|x a IH]; [reflexivity|].
  change ((String x a ++ b) ++ c)%string with (String x ((a ++ b) ++ c)%string).
  rewrite IH. reflexivity.
Qed.

Lemma match_here_split stops s m :
  Re.match_here stops s = Some m →
  Py.has_char Re.newline (Re.METAR m) = false
  ∧ ∃ marker stop,
      marker ∈ ["METAR "; "SPECI "] ∧ stop ∈ stops
      ∧ s = (marker ++ Re.METAR m ++ stop ++ Re.after m)%string.
Proof.
  unfold Re.match_here.
  destruct (Re.alternatives _ s) as [s1|] eqn:E1; [|discriminate].
  destruct (Re.code4 s1) as [[code s2]|] eqn:E2; [|discriminate].
  destruct (Re.lazy_until stops s2) as [[body rest]|] eqn:E3; [|discriminate].
  intros [= <-]. cbn.
  apply alternatives_split in E1 as (marker & Hmarker & ->).
  apply lazy_until_split in E3 as (Hnl & stop & Hstop & ->).
  unfold Re.code4 in E2. destruct s1 as [|a [|b [|c [|d r]]]]; try discriminate.
  destruct (Re.is_word a && Re.is_word b && Re.is_word c && Re.is_word d) eqn:Hw;
    [|discriminate].
  injection E2 as Hcode Hr. subst code r. split.
  - rewrite has_char_append, Hnl, orb_false_r.
    apply andb_prop in Hw as [Hw Hd]. apply andb_prop in Hw as [Hw Hc].
    apply andb_prop in Hw as [Ha Hb]. cbn.
    assert (Hword : ∀ x, Re.is_word x = true → Ascii.eqb x Re.newline = false).
    { intros x. destruct x as [[] [] [] [] [] [] [] []]; vm_compute; congruence. }
    rewrite !Hword by assumption. reflexivity.
  - exists marker, stop. split; [exact Hmarker|]. split; [exact Hstop|].
    rewrite append_assoc. reflexivity.
Qed.

(** X6. Every match the scraping adapters take from a page is in the
    page as it is reported: the page reads, somewhere, [METAR ] or
    [SPECI ], then the raw text of the match, then one of the stops of
    the adapter, then the text the search goes on with; and the raw
    text holds no line break. *)
Theorem finditer_sound (stops : list string) (s : string) (m : Re.found) :
  m ∈ Re.finditer stops s →
  Py.has_char Re.newline (Re.METAR m) = false
  ∧ ∃ skipped marker stop,
      marker ∈ ["METAR "; "SPECI "] ∧ stop ∈ stops
      ∧ s = (skipped ++ marker ++ Re.METAR m ++ stop ++ Re.after m)%string.
Proof.
  remember (S (String.length s)) as n eqn:Hn.
  assert (Hlt : String.length s < n) by lia. clear Hn.
  revert s Hlt. induction n as [|n IH]; intros s Hlt; [lia|].
  rewrite finditer_step.
  destruct (Re.match_here stops s) as [m0|] eqn:E.
  - intros [->|Hin]%elem_of_cons.
    + destruct (match_here_split _ _ _ E) as (Hnl & marker & stop & H1 & H2 & H3).
      split; [exact Hnl|]. exists "", marker, stop. split; [exact H1|]. split; [exact H2|exact H3].
    + pose proof (Re.match_here_shorter _ _ _ E) as Hshort.
      destruct (IH (Re.after m0) ltac:(lia) Hin) as (Hnl & skipped & marker & stop & H1 & H2 & H3).
      split; [exact Hnl|].
      destruct (match_here_split _ _ _ E) as (_ & marker0 & stop0 & _ & _ & H0).
      exists (marker0 ++ Re.METAR m0 ++ stop0 ++ skipped)%string, marker, stop.
      split; [exact H1|]. split; [exact H2|].
      rewrite H0 at 1. rewrite H3 at 1. rewrite !append_assoc. reflexivity.
  - destruct s as [|c s]; [intros H; inversion H|].
    intros Hin. cbn in Hlt.
    destruct (IH s ltac:(lia) Hin) as (Hnl & skipped & marker & stop & H1 & H2 & H3).
    split; [exact Hnl|]. exists (String c skipped), marker, stop.
    split; [exact H1|]. split; [exact H2|]. rewrite H3 at 1. reflexivity.
Qed.

(** X6, on a page with one report. *)
Lemma finditer_sound_witness :
  Py.has_char Re.newline "YSSY 221856Z" = false
  ∧ ∃ skipped marker stop,
      marker ∈ ["METAR "; "SPECI "] ∧ stop ∈ BOM.stops
      ∧ "<p>METAR YSSY 221856Z<br /></p>"
        = (skipped ++ marker ++ "YSSY 221856Z" ++ stop ++ "</p>")%string.
Proof.
  apply (finditer_sound BOM.stops "<p>METAR YSSY 221856Z<br /></p>"
           {| Re.CODE := "YSSY"; Re.METAR := "YSSY 221856Z"; Re.after := "</p>" |}).
  vm_compute. left.
Defined.

(** ** The codes in the search request *)

Lemma split_on_join_sep (sep : ascii) xs :
  xs ≠ [] →
  Forall (λ x, Py.has_char sep x = false) xs →
  Py.split_on sep (Py.join (String sep "") xs) = xs.
Proof.
  induction xs as [|x xs IH]; [congruence|]. intros _ Hall.
  apply Forall_cons in Hall as [Hx Hxs].
  destruct xs as [|y ys].
  - cbn. apply split_on_plain. exact Hx.
  - change (Py.join (String sep "") (x :: y :: ys))
      with (x ++ String sep "" ++ Py.join (String sep "") (y :: ys))%string.
    change (String sep "" ++ Py.join (String sep "") (y :: ys))%string
      with (String sep (Py.join (String sep "") (y :: ys))).
    rewrite split_on_append by exact Hx. rewrite IH; [reflexivity|congruence|exact Hxs].
Qed.

(** X7. The search the HTML-scrape adapter posts names the requested
    codes and nothing else: when there is at least one code and no code
    holds a comma, the [keyword] field, split at its commas, is the
    list of the codes as given, in order. *)
Theorem BOM_keyword_lists_codes (airport_codes : list string) :
  airport_codes ≠ [] →
  Forall (λ code, Py.has_char "," code = false) airport_codes →
  ∃ keyword,
    BOM.payload (BOM.__init__ airport_codes)
    = [("keyword", PStr keyword); ("type", PStr "search"); ("page", PStr "TAF")]
    ∧ Py.split_on "," keyword = airport_codes.
Proof.
  intros Hne Hplain. exists (Py.join "," airport_codes).
  split; [reflexivity|]. apply (split_on_join_sep ","); assumption.
Qed.

(** X7, for two codes. *)
Lemma BOM_keyword_lists_codes_witness :
  ∃ keyword,
    BOM.payload (BOM.__init__ ["YSSY"; "YMML"])
    = [("keyword", PStr keyword); ("type", PStr "search"); ("page", PStr "TAF")]
    ∧ Py.split_on "," keyword = ["YSSY"; "YMML"].
Proof.
  apply (BOM_keyword_lists_codes ["YSSY"; "YMML"]).
  - discriminate.
  - repeat constructor.
Defined.

(** ** The coordinate table *)

Lemma dict_set_assoc_eq {V} k (v : V) items : assoc k (dict_set k v items) = Some v.
Proof.
  induction items as [|[k' v'] items IH]; cbn.
  - rewrite String.eqb_refl. reflexivity.
  - destruct (String.eqb k k') eqn:E; cbn.
    + rewrite String.eqb_refl. reflexivity.
    + rewrite E. exact IH.
Qed.

Lemma dict_set_assoc_ne {V} k (v : V) items c :
  c ≠ k → assoc c (dict_set k v items) = assoc c items.
Proof.
  intros Hne. induction items as [|[k' v'] items IH]; cbn.
  - destruct (String.eqb_spec c k); [contradiction|reflexivity].
  - destruct (String.eqb_spec k k') as [<-|Hkk]; cbn.
    + destruct (String.eqb_spec c k); [contradiction|reflexivity].
    + destruct (String.eqb c k'); [reflexivity|exact IH].
Qed.

Lemma dict_set_NoDup {V} k (v : V) items :
  NoDup items.*1 → NoDup (dict_set k v items).*1.
Proof.
  induction items as [|[k' v'] items IH]; cbn.
  - intros _. repeat constructor. intros H. inversion H.
  - intros [Hk' Hnd]%NoDup_cons. destruct (String.eqb_spec k k') as [<-|Hne]; cbn.
    + apply NoDup_cons. split; assumption.
    + apply NoDup_cons. split; [|apply IH; exact Hnd].
      rewrite dict_set_keys. intros [H|H]; [congruence|contradiction].
Qed.

Lemma scan_rows_app codes r1 r2 : ∀ data,
  SkyVector.scan_rows codes (r1 ++ r2) data =
  let? data1 := SkyVector.scan_rows codes r1 data in
  SkyVector.scan_rows codes r2 data1.
Proof.
  induction r1 as [|row r1 IH]; intros data; [reflexivity|].
  destruct row as [|c [|lat [|lon [|]]]]; try reflexivity.
  cbn [app SkyVector.scan_rows]. apply IH.
Qed.

Lemma scan_rows_keeps codes rows : ∀ data data',
  SkyVector.scan_rows codes rows data = Ok data' →
  NoDup data.*1 →
  NoDup data'.*1
  ∧ ∀ c, (∀ lat lon, [c; lat; lon] ∉ rows) → assoc c data' = assoc c data.
Proof.
  induction rows as [|row rows IH]; intros data data'.
  - intros [= <-] Hnd. split; [exact Hnd|reflexivity].
  - destruct row as [|code [|lat0 [|lon0 [|]]]]; try discriminate.
    cbn [SkyVector.scan_rows]. intros Hscan Hnd.
    destruct (IH _ _ Hscan) as [Hnd' Hassoc].
    { destruct (Py.str_in code codes); [apply dict_set_NoDup|]; exact Hnd. }
    split; [exact Hnd'|]. intros c Hc. rewrite Hassoc.
    + destruct (Py.str_in code codes); [|reflexivity].
      apply dict_set_assoc_ne. intros ->. apply (Hc lat0 lon0). left.
    + intros lat lon H. apply (Hc lat lon). right. exact H.
Qed.

Lemma SkyVector_init_data float_of_str codes rows self :
  SkyVector.__init__ (Ok rows) float_of_str codes = Ok self →
  SkyVector.scan_rows (map Py.upper codes) rows [] = Ok (SkyVector.data self).
Proof.
  unfold SkyVector.__init__, SkyVector._find_coordinates. cbn [result_bind].
  destruct (SkyVector.scan_rows _ rows []) as [data|]; [|discriminate].
  cbn [result_bind].
  set (lats := map_result float_of_str (map (λ kv, fst (snd kv)) data)).
  set (lons := map_result float_of_str (map (λ kv, snd (snd kv)) data)).
  destruct (result_bind lats py_min); cbn [result_bind]; [|discriminate].
  destruct (result_bind lons py_min); cbn [result_bind]; [|discriminate].
  destruct (result_bind lats py_max); cbn [result_bind]; [|discriminate].
  destruct (result_bind lons py_max); cbn [result_bind]; [|discriminate].
  intros [= <-]. reflexivity.
Qed.

(** X8. In a geographic adapter every code is kept once, and when the
    table has several rows for a requested code, the coordinates kept
    are those of the last such row. *)
Theorem SkyVector_last_row_wins (float_of_str : string -> result float)
  (codes : list string) (rows : list (list string)) (self : SkyVector.t)
  (before later : list (list string)) (c lat lon : string) :
  SkyVector.__init__ (Ok rows) float_of_str codes = Ok self →
  rows = before ++ [c; lat; lon] :: later →
  c ∈ map Py.upper codes →
  (∀ lat' lon', [c; lat'; lon'] ∉ later) →
  NoDup (SkyVector.data self).*1
  ∧ assoc c (SkyVector.data self) = Some (lat, lon).
Proof.
  intros Hinit -> Hc Hlater. apply SkyVector_init_data in Hinit.
  rewrite scan_rows_app in Hinit. cbv zeta in Hinit.
  destruct (SkyVector.scan_rows _ before []) as [data1|] eqn:E1; [|discriminate].
  cbn [result_bind SkyVector.scan_rows] in Hinit.
  apply str_in_elem in Hc. rewrite Hc in Hinit.
  destruct (scan_rows_keeps _ _ _ _ E1) as [Hnd1 _]; [constructor|].
  destruct (scan_rows_keeps _ _ _ _ Hinit) as [Hnd Hassoc].
  { apply dict_set_NoDup. exact Hnd1. }
  split; [exact Hnd|]. rewrite Hassoc by exact Hlater. apply dict_set_assoc_eq.
Qed.

(** X8, over a table that lists KDEN twice. *)
Lemma SkyVector_last_row_wins_witness :
  ∃ self,
    SkyVector.__init__
      (Ok [["KDEN"; "39.0"; "-104.0"]; ["KJFK"; "40.6398"; "-73.7789"];
           ["KDEN"; "39.8617"; "-104.6732"]])
      Decimal.to_float ["kden"; "kjfk"] = Ok self
    ∧ NoDup (SkyVector.data self).*1
    ∧ assoc "KDEN" (SkyVector.data self) = Some ("39.8617", "-104.6732").
Proof.
  eexists. split; [vm_compute; reflexivity|].
  eapply (SkyVector_last_row_wins Decimal.to_float ["kden"; "kjfk"]
            [["KDEN"; "39.0"; "-104.0"]; ["KJFK"; "40.6398"; "-73.7789"];
             ["KDEN"; "39.8617"; "-104.6732"]] _
            [["KDEN"; "39.0"; "-104.0"]; ["KJFK"; "40.6398"; "-73.7789"]] []
            "KDEN" "39.8617" "-104.6732").
  - vm_compute. reflexivity.
  - reflexivity.
  - left.
  - intros lat' lon' H. inversion H.
Defined.

(** ** What the geographic adapter keeps *)

Lemma keep_loop (self : SkyVector.t) : ∀ items (acc : Reports) w,
  Forall (usable_observation (SkyVector.airport_codes self)) items →
  ∃ metars : Reports,
    for_each items (SkyVector.keep self) acc w = (Ok metars, w)
    ∧ (∀ k v, metars !! k = Some v →
         acc !! k = Some v
         ∨ ∃ item s m, item ∈ items ∧ getitem item "s" = Ok (PStr s)
                       ∧ s ∈ SkyVector.airport_codes self ∧ k = Py.upper s
                       ∧ getitem item "m" = Ok m ∧ v = raw_text_record m)
    ∧ (∀ k, is_Some (acc !! k) → is_Some (metars !! k))
    ∧ (∀ item s, item ∈ items → getitem item "s" = Ok (PStr s) →
         s ∈ SkyVector.airport_codes self → is_Some (metars !! Py.upper s)).
Proof.
  induction items as [|item items IH]; intros acc w Hall.
  - exists acc. split; [reflexivity|]. split; [intros; left; assumption|].
    split; [tauto|]. intros item s H. inversion H.
  - apply Forall_cons in Hall as [(sv & Hs & Hm) Hall]. cbn [for_each].
    unfold bind. unfold SkyVector.keep at 1. unfold lift. rewrite Hs. cbn [result_bind].
    destruct (val_in sv (SkyVector.airport_codes self)) eqn:Hin.
    + specialize (Hm eq_refl). destruct (getitem item "m") as [m|] eqn:Em; [|discriminate].
      cbn [result_bind]. destruct sv as [s| | | | |]; try discriminate. cbn.
      apply str_in_elem in Hin.
      destruct (IH (<[Py.upper s := raw_text_record m]> acc) w Hall)
        as (metars & Hrun & Hfrom & Hmono & Hall').
      exists metars. split; [exact Hrun|]. split; [|split].
      * intros k v Hk. destruct (Hfrom k v Hk) as [H0|(it & s' & m' & Hit & H1)].
        -- rewrite lookup_insert in H0. case_decide as Hd.
           ++ injection H0 as <-. right. exists item, s, m.
              split; [left|]. repeat split; try assumption. symmetry; exact Hd.
           ++ left. exact H0.
        -- right. exists it, s', m'. split; [right; exact Hit|exact H1].
      * intros k Hk. apply Hmono. rewrite lookup_insert. case_decide; eauto.
      * intros it s' [->|Hit]%elem_of_cons Hs' Hin'.
        -- rewrite Hs in Hs'. injection Hs' as <-. apply Hmono.
           rewrite lookup_insert_eq. eauto.
        -- eapply Hall'; eassumption.
    + destruct (IH acc w Hall) as (metars & Hrun & Hfrom & Hmono & Hall').
      exists metars. split; [exact Hrun|]. split; [|split].
      * intros k v Hk. destruct (Hfrom k v Hk) as [H0|(it & s' & m' & Hit & H1)].
        -- left. exact H0.
        -- right. exists it, s', m'. split; [right; exact Hit|exact H1].
      * exact Hmono.
      * intros it s' [->|Hit]%elem_of_cons Hs' Hin'.
        -- rewrite Hs in Hs'. injection Hs' as ->. cbn in Hin.
           apply str_in_elem in Hin'. congruence.
        -- eapply Hall'; eassumption.
Qed.

(** X9. When the provider's answer holds a list of usable observations
    under [weather], retrieval by the geographic adapter succeeds with
    no effect beyond the request, every record of the result is
    [{'raw_text': m}] for the report [m] of an observation of a
    requested station, and every requested station that has an
    observation is in the result. *)
Theorem SkyVector_retrieval (net : Endpoint) (parsejson : string -> result pyval)
  (self : SkyVector.t) (w : World) (resp : response) (w1 : World)
  (doc : pyval) (items : list pyval) :
  _query net (SkyVector.url self) w = (Ok resp, w1) →
  parsejson (text resp) = Ok doc →
  getitem doc "weather" = Ok (PList items) →
  Forall (usable_observation (SkyVector.airport_codes self)) items →
  ∃ metars : Reports,
    SkyVector.get_metar_info net parsejson self w = (Ok metars, w1)
    ∧ (∀ k v, metars !! k = Some v →
         ∃ item s m, item ∈ items ∧ getitem item "s" = Ok (PStr s)
                     ∧ s ∈ SkyVector.airport_codes self ∧ k = Py.upper s
                     ∧ getitem item "m" = Ok m ∧ v = raw_text_record m)
    ∧ (∀ item s, item ∈ items → getitem item "s" = Ok (PStr s) →
         s ∈ SkyVector.airport_codes self → is_Some (metars !! Py.upper s)).
Proof.
  intros Hq Hdoc Hweather Hitems.
  destruct (keep_loop self items ∅ w1 Hitems) as (metars & Hrun & Hfrom & _ & Hall).
  exists metars. split; [|split].
  - unfold SkyVector.get_metar_info. rewrite (bind_run _ _ _ _ _ Hq).
    unfold try_except, lift, bind at 1. rewrite Hdoc. cbn [result_bind].
    rewrite Hweather. cbn [iterate]. unfold bind at 1. exact Hrun.
  - intros k v Hk. destruct (Hfrom k v Hk) as [H0|H1]; [|exact H1].
    rewrite lookup_empty in H0. discriminate.
  - exact Hall.
Qed.

(** X9, for an adapter for KDEN and an answer that holds KDEN and KFNL. *)
Lemma SkyVector_retrieval_witness :
  ∃ self (metars : Reports) w1,
    SkyVector.__init__ (Ok airports_csv) Decimal.to_float ["KDEN"] = Ok self
    ∧ SkyVector.get_metar_info (replies [denver_json])
        (parser_of [(denver_json, denver_tree)] JSONDecodeError) self []
      = (Ok metars, w1)
    ∧ (∀ item s, item ∈ [PDict [("s", PStr "KDEN");
                                ("m", PStr "KDEN 221853Z 25009KT 10SM FEW080 28/09 A3021")];
                         PDict [("s", PStr "KFNL");
                                ("m", PStr "KFNL 221856Z AUTO VRB03KT 6SM HZ CLR 23/14 A3025")]] →
         getitem item "s" = Ok (PStr s) →
         s ∈ SkyVector.airport_codes self → is_Some (metars !! Py.upper s)).
Proof.
  eexists. 
  destruct (SkyVector_retrieval (replies [denver_json])
              (parser_of [(denver_json, denver_tree)] JSONDecodeError)
              {| SkyVector.airport_codes := ["KDEN"];
                 SkyVector.data := [("KDEN", ("39.8617", "-104.6732"))];
                 SkyVector.url := SkyVectorUrl (39.8617 - 0.5) (-104.6732 - 0.5)
                                               (39.8617 + 0.5) (-104.6732 + 0.5) |}
              [] {| status_code := 200; text := denver_json |}
              [Logged (LogInfoUrl (SkyVectorUrl (39.8617 - 0.5) (-104.6732 - 0.5)
                                                (39.8617 + 0.5) (-104.6732 + 0.5)));
               Sent (Get (SkyVectorUrl (39.8617 - 0.5) (-104.6732 - 0.5)
                                       (39.8617 + 0.5) (-104.6732 + 0.5)))]
              denver_tree
              [PDict [("s", PStr "KDEN");
                      ("m", PStr "KDEN 221853Z 25009KT 10SM FEW080 28/09 A3021")];
               PDict [("s", PStr "KFNL");
                      ("m", PStr "KFNL 221856Z AUTO VRB03KT 6SM HZ CLR 23/14 A3025")]])
    as (metars & Hrun & _ & Hall).
  - vm_compute. reflexivity.
  - vm_compute. reflexivity.
  - reflexivity.
  - repeat constructor; eexists; (split; [reflexivity|]); intros _; reflexivity.
  - exists metars. eexists. split; [vm_compute; reflexivity|].
    split; [exact Hrun|exact Hall].
Defined.

(** ** The session of the authenticated-scrape adapter *)

Lemma sessions_opened_app w1 w2 :
  sessions_opened (w1 ++ w2) = sessions_opened w1 + sessions_opened w2.
Proof. unfold sessions_opened. rewrite List.filter_app, length_app. reflexivity. Qed.

Lemma sessions_closed_app w1 w2 :
  sessions_closed (w1 ++ w2) = sessions_closed w1 + sessions_closed w2.
Proof. unfold sessions_closed. rewrite List.filter_app, length_app. reflexivity. Qed.

(** X10. Whatever the provider does, a retrieval of the
    authenticated-scrape adapter opens one session and closes it,
    never waits, and sends the login request and then the data
    request, or the login request alone when the login met a transport
    failure, which is then the outcome. *)
Theorem IFIS_session_scoped (net : Endpoint) (self : IFIS.t) (w : World) :
  ∃ r w',
    IFIS.get_metar_info net self w = (r, w')
    ∧ sessions_opened w' = S (sessions_opened w)
    ∧ sessions_closed w' = S (sessions_closed w)
    ∧ sleeps_of w' = sleeps_of w
    ∧ (requests_of w' =
         requests_of w ++ [Post IFIS.LOGIN_URL (IFIS.login_payload self);
                           Post IFIS.URL (IFIS.data_payload self)]
       ∨ (requests_of w' =
            requests_of w ++ [Post IFIS.LOGIN_URL (IFIS.login_payload self)]
          ∧ ∃ e, r = Raise e
                 ∧ net (sent_count w) (Post IFIS.LOGIN_URL (IFIS.login_payload self))
                   = Failed e)).
Proof.
  rewrite IFIS_run. cbv zeta.
  destruct (net (sent_count w) _) as [r0|e] eqn:Hlogin.
  - destruct (net (S (sent_count w)) _) as [r|e].
    + eexists. eexists. split; [reflexivity|].
      rewrite sessions_opened_app, sessions_closed_app, sleeps_of_app, requests_of_app.
      cbn. rewrite app_nil_r. repeat split; try lia. left. reflexivity.
    + eexists. eexists. split; [reflexivity|].
      rewrite sessions_opened_app, sessions_closed_app, sleeps_of_app, requests_of_app.
      cbn. rewrite app_nil_r. repeat split; try lia. left. reflexivity.
  - eexists. eexists. split; [reflexivity|].
    rewrite sessions_opened_app, sessions_closed_app, sleeps_of_app, requests_of_app.
    cbn. rewrite app_nil_r. repeat split; try lia. right. split; [reflexivity|].
    exists e. split; reflexivity.
Qed.

(** ** Missing credentials *)

(** X11. Construction of the authenticated-scrape adapter succeeds
    exactly when the configuration has a user name and a password in
    its section [ifis], whatever the codes; otherwise it raises the
    [KeyError] of the first of [ifis], [username], [password] that is
    missing; and the login request of a constructed adapter carries the
    two credentials of the configuration. *)
Theorem IFIS_credentials (airport_codes : list string)
  (config : gmap string (gmap string string)) :
  (is_ok (IFIS.__init__ airport_codes config) = true ↔
   ∃ sec u p, config !! "ifis" = Some sec
              ∧ sec !! "username" = Some u ∧ sec !! "password" = Some p)
  ∧ (∀ e, IFIS.__init__ airport_codes config = Raise e →
          e = KeyError (if config !! "ifis" is Some sec
                        then if sec !! "username" is Some _ then "password" else "username"
                        else "ifis"))
  ∧ (∀ self, IFIS.__init__ airport_codes config = Ok self →
             ∃ sec u p, config !! "ifis" = Some sec
                        ∧ sec !! "username" = Some u ∧ sec !! "password" = Some p
                        ∧ IFIS.login_payload self
                          = [("UserName", PStr u); ("Password", PStr p)]).
Proof.
  unfold IFIS.__init__, IFIS.config_get.
  destruct (config !! "ifis") as [sec|] eqn:Hsec; cbn [result_bind].
  - destruct (sec !! "username") as [u|] eqn:Hu; cbn [result_bind].
    + destruct (sec !! "password") as [p|] eqn:Hp; cbn [result_bind].
      * split; [|split].
        -- split; [intros _; exists sec, u, p; auto|reflexivity].
        -- intros e [=].
        -- intros self [= <-]. exists sec, u, p. auto.
      * split; [|split].
        -- split; [discriminate|]. intros (sec' & u' & p' & [= <-] & _ & H). congruence.
        -- intros e [= <-]. reflexivity.
        -- intros self [=].
    + split; [|split].
      * split; [discriminate|]. intros (sec' & u' & p' & [= <-] & H & _). congruence.
      * intros e [= <-]. reflexivity.
      * intros self [=].
  - split; [|split].
    + split; [discriminate|]. intros (sec' & u' & p' & [=] & _).
    + intros e [= <-]. reflexivity.
    + intros self [=].
Qed.

(** ** The browser of the rendered-page adapter *)

(** X12. Once the browser is up and the page is open, and closing the
    browser works, every run of the rendered-page adapter closes the
    browser it launched: it returns the reading when no step fails,
    nothing when a step fails with an ordinary exception, and lets an
    exception that is not an [Exception] through. *)
Theorem KO61_browser_closed (b : KO61.Browser) (w : World) :
  KO61.launch b = Ok tt →
  KO61.newPage b = Ok tt →
  KO61.close b = Ok tt →
  ∃ r w',
    KO61.get_metar_info b w = (r, w')
    ∧ KO61.launched w' = S (KO61.launched w)
    ∧ KO61.closed w' = S (KO61.closed w)
    ∧ match first_failure b with
      | None => ∃ txt, r = Ok (Some {["KO61" := raw_text_record (PStr txt)]})
      | Some BaseException => r = Raise BaseException
      | Some _ => r = Ok None
      end.
Proof.
  intros Hl Hn Hc.
  unfold KO61.get_metar_info, KO61.try_except_Exception, try_finally, try_except,
    bind, lift, emit, ret, raise, first_failure.
  rewrite Hl, Hn, Hc.
  destruct (KO61.goto b) as [[]|e1].
  - destruct (KO61.waitForSelector b) as [[]|e2].
    + destruct (KO61.evaluate b) as [v|e3].
      * destruct (KO61.split_method v) as [parts|e4].
        -- destruct (KO61.index "KO61" parts) as [i|e5].
           ++ eexists. eexists. split; [reflexivity|].
              rewrite !launched_app, !closed_app. cbn.
              split; [lia|]. split; [lia|]. eauto.
           ++ destruct e5; (eexists; eexists; split; [reflexivity|];
                rewrite !launched_app, !closed_app; cbn;
                split; [lia|]; split; [lia|reflexivity]).
        -- destruct e4; (eexists; eexists; split; [reflexivity|];
             rewrite !launched_app, !closed_app; cbn;
             split; [lia|]; split; [lia|reflexivity]).
      * destruct e3; (eexists; eexists; split; [reflexivity|];
          rewrite !launched_app, !closed_app; cbn;
          split; [lia|]; split; [lia|reflexivity]).
    + destruct e2; (eexists; eexists; split; [reflexivity|];
        rewrite !launched_app, !closed_app; cbn;
        split; [lia|]; split; [lia|reflexivity]).
  - destruct e1; (eexists; eexists; split; [reflexivity|];
      rewrite !launched_app, !closed_app; cbn;
      split; [lia|]; split; [lia|reflexivity]).
Qed.

(** X12, when the wait for the element is cancelled. *)
Lemma KO61_browser_closed_witness :
  ∃ r w',
    KO61.get_metar_info
      {| KO61.launch := Ok tt; KO61.newPage := Ok tt; KO61.goto := Ok tt;
         KO61.waitForSelector := Raise BaseException;
         KO61.evaluate := Ok PNone; KO61.close := Ok tt |} [] = (r, w')
    ∧ KO61.launched w' = S (KO61.launched [])
    ∧ KO61.closed w' = S (KO61.closed [])
    ∧ r = Raise BaseException.
Proof.
  apply (KO61_browser_closed
           {| KO61.launch := Ok tt; KO61.newPage := Ok tt; KO61.goto := Ok tt;
              KO61.waitForSelector := Raise BaseException;
              KO61.evaluate := Ok PNone; KO61.close := Ok tt |} []); reflexivity.
Defined.

(** X13. When closing the browser fails, that failure is the outcome
    of the run, whatever the reading was: the exception of the
    [finally] block takes the place of the result. *)
Theorem KO61_close_failure_masks (b : KO61.Browser) (w : World) (e : exn) :
  KO61.launch b = Ok tt →
  KO61.newPage b = Ok tt →
  KO61.close b = Raise e →
  ∃ w', KO61.get_metar_info b w = (Raise e, w')
        ∧ KO61.closed w' = KO61.closed w.
Proof.
  intros Hl Hn Hc.
  unfold KO61.get_metar_info, KO61.try_except_Exception, try_finally, try_except,
    bind, lift, emit, ret, raise.
  rewrite Hl, Hn, Hc.
  repeat match goal with
         | |- context [match ?x with Ok _ => _ | Raise _ => _ end] =>
             is_var x; fail 1
         | |- context [KO61.goto b] => destruct (KO61.goto b) as [[]|[]]
         | |- context [KO61.waitForSelector b] => destruct (KO61.waitForSelector b) as [[]|[]]
         | |- context [KO61.evaluate b] => destruct (KO61.evaluate b) as [?|[]]
         | |- context [KO61.split_method ?v] => destruct (KO61.split_method v) as [?|[]]
         | |- context [KO61.index ?x ?p] => destruct (KO61.index x p) as [?|[]]
         end;
    (eexists; split; [reflexivity|]; rewrite !closed_app; cbn; lia).
Qed.

(** X13, with a reading that is lost. *)
Lemma KO61_close_failure_masks_witness :
  ∃ w',
    KO61.get_metar_info
      {| KO61.launch := Ok tt; KO61.newPage := Ok tt; KO61.goto := Ok tt;
         KO61.waitForSelector := Ok tt;
         KO61.evaluate := Ok (PStr "METAR KO61 221855Z AUTO 00000KT 10SM CLR");
         KO61.close := Raise BrowserError |} [] = (Raise BrowserError, w')
    ∧ KO61.closed w' = KO61.closed [].
Proof.
  apply (KO61_close_failure_masks
           {| KO61.launch := Ok tt; KO61.newPage := Ok tt; KO61.goto := Ok tt;
              KO61.waitForSelector := Ok tt;
              KO61.evaluate := Ok (PStr "METAR KO61 221855Z AUTO 00000KT 10SM CLR");
              KO61.close := Raise BrowserError |} [] BrowserError); reflexivity.
Defined.

(** ** What stops the construction of the geographic adapter *)

Lemma scan_rows_bad_row codes rows row :
  row ∈ rows → length row ≠ 3 →
  ∀ data, SkyVector.scan_rows codes rows data = Raise ValueError.
Proof.
  induction rows as [|r rows IH]; intros Hin Hlen data; [inversion Hin|].
  destruct r as [|c [|lat [|lon [|x r]]]]; try reflexivity.
  cbn [SkyVector.scan_rows]. apply IH; [|exact Hlen].
  apply elem_of_cons in Hin as [->|Hin]; [cbn in Hlen; congruence|exact Hin].
Qed.

Lemma scan_rows_raises codes rows e : ∀ data,
  SkyVector.scan_rows codes rows data = Raise e → e = ValueError.
Proof.
  induction rows as [|r rows IH]; intros data; [discriminate|].
  destruct r as [|c [|lat [|lon [|x r]]]]; try (intros [= <-]; reflexivity).
  cbn [SkyVector.scan_rows]. apply IH.
Qed.

Lemma map_result_raises {A B} (f : A -> result B) xs e :
  map_result f xs = Raise e → ∃ x, x ∈ xs ∧ f x = Raise e.
Proof.
  induction xs as [|x xs IH]; cbn; [discriminate|].
  destruct (f x) as [y|e0] eqn:Hx; cbn [result_bind].
  - destruct (map_result f xs) as [ys|e1]; cbn [result_bind]; [discriminate|].
    intros [= ->]. destruct (IH eq_refl) as (x' & Hin & Hx'). exists x'. split; [right|]; assumption.
  - intros [= ->]. exists x. split; [left|exact Hx].
Qed.

Lemma py_min_raises xs e : py_min xs = Raise e → e = ValueError.
Proof. destruct xs; [intros [= <-]; reflexivity|discriminate]. Qed.

Lemma py_max_raises xs e : py_max xs = Raise e → e = ValueError.
Proof. destruct xs; [intros [= <-]; reflexivity|discriminate]. Qed.

(** X14. Construction of the geographic adapter fails with the error
    of the table when the table cannot be read, and with [ValueError]
    when any row of the table, requested or not, has not exactly three
    cells; and over a table that can be read, when [float] raises
    nothing but [ValueError], [ValueError] is the only exception of
    construction. *)
Theorem SkyVector_construction_errors (float_of_str : string -> result float)
  (codes : list string) :
  (∀ e, SkyVector.__init__ (Raise e) float_of_str codes = Raise e)
  ∧ (∀ rows row, row ∈ rows → length row ≠ 3 →
       SkyVector.__init__ (Ok rows) float_of_str codes = Raise ValueError)
  ∧ ((∀ s e, float_of_str s = Raise e → e = ValueError) →
     ∀ rows e, SkyVector.__init__ (Ok rows) float_of_str codes = Raise e →
               e = ValueError).
Proof.
  split; [|split].
  - reflexivity.
  - intros rows row Hin Hlen. unfold SkyVector.__init__, SkyVector._find_coordinates.
    cbn [result_bind]. rewrite (scan_rows_bad_row _ _ _ Hin Hlen). reflexivity.
  - intros Hfloat rows e. unfold SkyVector.__init__, SkyVector._find_coordinates.
    cbn [result_bind].
    destruct (SkyVector.scan_rows _ rows []) as [data|e0] eqn:Hscan; cbn [result_bind].
    + set (lats := map_result float_of_str (map (λ kv, fst (snd kv)) data)).
      set (lons := map_result float_of_str (map (λ kv, snd (snd kv)) data)).
      assert (Hlats : ∀ e1, lats = Raise e1 → e1 = ValueError).
      { intros e1 H. apply map_result_raises in H as (x & _ & H). eapply Hfloat, H. }
      assert (Hlons : ∀ e1, lons = Raise e1 → e1 = ValueError).
      { intros e1 H. apply map_result_raises in H as (x & _ & H). eapply Hfloat, H. }
      assert (Hstep : ∀ (r : result (list float)) (f : list float -> result float) e1,
                 (∀ e2, r = Raise e2 → e2 = ValueError) →
                 (∀ xs e2, f xs = Raise e2 → e2 = ValueError) →
                 result_bind r f = Raise e1 → e1 = ValueError).
      { intros [xs|e2] f e1 Hr Hf; cbn; [apply Hf|]. intros [= <-]. apply Hr. reflexivity. }
      destruct (result_bind lats py_min) as [lat1|e1] eqn:E1; cbn [result_bind];
        [|intros [= <-]; eapply (Hstep _ _ _ Hlats py_min_raises E1)].
      destruct (result_bind lons py_min) as [lon1|e1] eqn:E2; cbn [result_bind];
        [|intros [= <-]; eapply (Hstep _ _ _ Hlons py_min_raises E2)].
      destruct (result_bind lats py_max) as [lat2|e1] eqn:E3; cbn [result_bind];
        [|intros [= <-]; eapply (Hstep _ _ _ Hlats py_max_raises E3)].
      destruct (result_bind lons py_max) as [lon2|e1] eqn:E4; cbn [result_bind];
        [|intros [= <-]; eapply (Hstep _ _ _ Hlons py_max_raises E4)].
      discriminate.
    + intros [= <-]. eapply scan_rows_raises, Hscan.
Qed.

(** ** The reading of the rendered-page adapter *)

Lemma no_space_append a b : no_space (a ++ b) = no_space a && no_space b.
Proof.
  induction a as [|c a IH]; [reflexivity|].
  change (String c a ++ b)%string with (String c (a ++ b)%string). cbn.
  rewrite IH. apply andb_assoc.
Qed.

(** [split] gives words. *)
Lemma split_from_words s : ∀ cur,
  no_space cur = true →
  Forall is_word_token (KO61.split_from cur s).
Proof.
  induction s as [|c s IH]; intros cur Hcur; cbn.
  - destruct (String.eqb_spec cur ""); constructor; [|constructor]. split; assumption.
  - destruct (KO61.is_space c) eqn:Hc.
    + destruct (String.eqb_spec cur "").
      * apply IH. reflexivity.
      * constructor; [split; assumption|]. apply IH. reflexivity.
    + apply IH. rewrite no_space_append, Hcur. cbn. rewrite Hc. reflexivity.
Qed.

Lemma index_first x parts i :
  KO61.index x parts = Ok i → ∃ rest, drop i parts = x :: rest.
Proof.
  revert i. induction parts as [|p parts IH]; intros i; cbn; [discriminate|].
  destruct (String.eqb_spec p x) as [->|_].
  - intros [= <-]. eauto.
  - destruct (KO61.index x parts) as [j|]; [|discriminate]. cbn.
    intros [= <-]. apply IH. reflexivity.
Qed.

Lemma index_absent x parts e :
  KO61.index x parts = Raise e → e = ValueError ∧ x ∉ parts.
Proof.
  induction parts as [|p parts IH]; cbn.
  - intros [= <-]. split; [reflexivity|]. intros H. inversion H.
  - destruct (String.eqb_spec p x) as [->|Hne]; [discriminate|].
    destruct (KO61.index x parts) as [j|e0]; [discriminate|]. cbn.
    intros [= <-]. destruct (IH eq_refl) as [-> Hnot]. split; [reflexivity|].
    intros [H|H]%elem_of_cons; [congruence|contradiction].
Qed.

Lemma list_of_append a b :
  list_ascii_of_string (a ++ b) = list_ascii_of_string a ++ list_ascii_of_string b.
Proof.
  induction a as [|c a IH]; [reflexivity|].
  change (String c a ++ b)%string with (String c (a ++ b)%string). cbn.
  rewrite IH. reflexivity.
Qed.

Lemma word_ends_clean t : is_word_token t → ends_clean t.
Proof.
  intros [Hne Hns]. induction t as [|c t IH]; [congruence|].
  cbn in Hns. apply andb_prop in Hns as [Hc Ht].
  destruct t as [|d t].
  - exists [], c. split; [reflexivity|]. destruct (KO61.is_space c); [discriminate|reflexivity].
  - destruct IH as (l & x & Hl & Hx); [discriminate|exact Ht|].
    exists (c :: l), x. split; [cbn in Hl |- *; rewrite Hl; reflexivity|exact Hx].
Qed.

Lemma ends_clean_append a b : ends_clean b → ends_clean (a ++ b).
Proof.
  intros (l & c & Hl & Hc). exists (list_ascii_of_string a ++ l), c.
  split; [|exact Hc]. rewrite list_of_append, Hl, app_assoc. reflexivity.
Qed.

Lemma join_ends_clean ts :
  ts ≠ [] → Forall is_word_token ts → ends_clean (Py.join " " ts).
Proof.
  induction ts as [|t ts IH]; [congruence|]. intros _ Hall.
  apply Forall_cons in Hall as [Ht Hts]. destruct ts as [|t' ts].
  - cbn. apply word_ends_clean. exact Ht.
  - change (Py.join " " (t :: t' :: ts)) with (t ++ " " ++ Py.join " " (t' :: ts))%string.
    apply ends_clean_append, ends_clean_append. apply IH; [congruence|exact Hts].
Qed.

Lemma strip_clean s :
  ends_clean s →
  (∃ c s', s = String c s' ∧ KO61.is_space c = false) →
  KO61.strip s = s.
Proof.
  intros (l & x & Hl & Hx) (c & s' & -> & Hc). unfold KO61.strip.
  cbn [KO61.lstrip]. rewrite Hc. unfold KO61.reverse at 2. rewrite Hl.
  rewrite rev_app_distr. cbn [rev app string_of_list_ascii KO61.lstrip]. rewrite Hx.
  unfold KO61.reverse.
  change (list_ascii_of_string (String x (string_of_list_ascii (rev l))))
    with (x :: list_ascii_of_string (string_of_list_ascii (rev l))).
  rewrite list_ascii_of_string_of_list_ascii. cbn [rev].
  rewrite rev_involutive, <- Hl. apply string_of_list_ascii_of_string.
Qed.

Lemma strip_join_words ts :
  Forall is_word_token ts → KO61.strip (Py.join " " ts) = Py.join " " ts.
Proof.
  intros Hall. destruct ts as [|t ts]; [reflexivity|].
  apply strip_clean.
  - apply join_ends_clean; [congruence|exact Hall].
  - apply Forall_cons in Hall as [[Hne Hns] _].
    destruct t as [|c t]; [congruence|]. cbn in Hns.
    apply andb_prop in Hns as [Hc _].
    exists c. destruct ts as [|t' ts].
    + exists t. split; [reflexivity|]. destruct (KO61.is_space c); [discriminate|reflexivity].
    + exists (t ++ " " ++ Py.join " " (t' :: ts))%string.
      split; [reflexivity|]. destruct (KO61.is_space c); [discriminate|reflexivity].
Qed.

(** X15. When every step of the rendered-page adapter works and the
    text of the element has the word [KO61], the raw text of the
    reading is the words of that text from the first [KO61] on,
    separated by single blanks: it begins with [KO61], and white space
    around and between the words is not kept. *)
Theorem KO61_reading_is_words (b : KO61.Browser) (w : World) (s : string) (start : nat) :
  KO61.launch b = Ok tt →
  KO61.newPage b = Ok tt →
  KO61.goto b = Ok tt →
  KO61.waitForSelector b = Ok tt →
  KO61.evaluate b = Ok (PStr s) →
  KO61.close b = Ok tt →
  KO61.index "KO61" (KO61.split s) = Ok start →
  ∃ rest,
    drop start (KO61.split s) = "KO61" :: rest
    ∧ Forall is_word_token rest
    ∧ KO61.get_metar_info b w
      = (Ok (Some {["KO61" := raw_text_record (PStr (Py.join " " ("KO61" :: rest)))]}),
         w ++ [BrowserLaunched; Slept 1000; BrowserClosed]).
Proof.
  intros Hl Hn Hg Hw He Hc Hi.
  destruct (index_first _ _ _ Hi) as [rest Hrest]. exists rest.
  assert (Hwords : Forall is_word_token (drop start (KO61.split s))).
  { apply Forall_drop. apply split_from_words. reflexivity. }
  rewrite Hrest in Hwords.
  split; [exact Hrest|]. split; [apply Forall_cons in Hwords as [_ H]; exact H|].
  unfold KO61.get_metar_info, KO61.try_except_Exception, try_finally, try_except,
    bind, lift, emit, ret, raise.
  rewrite Hl, Hn, Hg, Hw, He, Hc. cbn [KO61.split_method]. rewrite Hi.
  change (skipn start (KO61.split s)) with (drop start (KO61.split s)).
  rewrite Hrest, strip_join_words by exact Hwords.
  rewrite <- !app_assoc. reflexivity.
Qed.

(** X15, for a text with line breaks and blanks around the report. *)
Lemma KO61_reading_is_words_witness :
  ∃ rest,
    drop 2 (KO61.split (" Official  METAR KO61 221855Z" ++ String Re.newline " AUTO 10SM  "))
    = "KO61" :: rest
    ∧ Forall is_word_token rest
    ∧ KO61.get_metar_info
        {| KO61.launch := Ok tt; KO61.newPage := Ok tt; KO61.goto := Ok tt;
           KO61.waitForSelector := Ok tt;
           KO61.evaluate :=
             Ok (PStr (" Official  METAR KO61 221855Z" ++ String Re.newline " AUTO 10SM  "));
           KO61.close := Ok tt |} []
      = (Ok (Some {["KO61" := raw_text_record (PStr (Py.join " " ("KO61" :: rest)))]}),
         [] ++ [BrowserLaunched; Slept 1000; BrowserClosed]).
Proof.
  apply (KO61_reading_is_words
           {| KO61.launch := Ok tt; KO61.newPage := Ok tt; KO61.goto := Ok tt;
              KO61.waitForSelector := Ok tt;
              KO61.evaluate :=
                Ok (PStr (" Official  METAR KO61 221855Z" ++ String Re.newline " AUTO 10SM  "));
              KO61.close := Ok tt |} []
           (" Official  METAR KO61 221855Z" ++ String Re.newline " AUTO 10SM  ") 2);
    reflexivity.
Defined.

(** X16. When the text of the element has no word [KO61], the
    rendered-page adapter returns nothing, having printed the
    [ValueError] of the search and closed the browser. *)
Theorem KO61_token_absent (b : KO61.Browser) (w : World) (s : string) :
  KO61.launch b = Ok tt →
  KO61.newPage b = Ok tt →
  KO61.goto b = Ok tt →
  KO61.waitForSelector b = Ok tt →
  KO61.evaluate b = Ok (PStr s) →
  KO61.close b = Ok tt →
  "KO61" ∉ KO61.split s →
  KO61.get_metar_info b w
  = (Ok None,
     w ++ [BrowserLaunched; Slept 1000; Logged (Printed "Error: " ValueError);
           BrowserClosed]).
Proof.
  intros Hl Hn Hg Hw He Hc Habsent.
  unfold KO61.get_metar_info, KO61.try_except_Exception, try_finally, try_except,
    bind, lift, emit, ret, raise.
  rewrite Hl, Hn, Hg, Hw, He, Hc. cbn [KO61.split_method].
  destruct (KO61.index "KO61" (KO61.split s)) as [i|e] eqn:Hi.
  - exfalso. apply Habsent. destruct (index_first _ _ _ Hi) as [rest Hrest].
    rewrite <- (take_drop i (KO61.split s)), Hrest. apply elem_of_app. right. left.
  - apply index_absent in Hi as [-> _]. rewrite <- !app_assoc. reflexivity.
Qed.

(** X16, for a page that shows another station. *)
Lemma KO61_token_absent_witness :
  KO61.get_metar_info
    {| KO61.launch := Ok tt; KO61.newPage := Ok tt; KO61.goto := Ok tt;
       KO61.waitForSelector := Ok tt;
       KO61.evaluate := Ok (PStr "METAR KO62 221855Z AUTO"); KO61.close := Ok tt |} []
  = (Ok None,
     [] ++ [BrowserLaunched; Slept 1000; Logged (Printed "Error: " ValueError);
            BrowserClosed]).
Proof.
  apply (KO61_token_absent
           {| KO61.launch := Ok tt; KO61.newPage := Ok tt; KO61.goto := Ok tt;
              KO61.waitForSelector := Ok tt;
              KO61.evaluate := Ok (PStr "METAR KO62 221855Z AUTO"); KO61.close := Ok tt |}
           [] "METAR KO62 221855Z AUTO"); try reflexivity.
  intros H. vm_compute in H.
  repeat (apply elem_of_cons in H as [H|H]; [discriminate|]). inversion H.
Defined.

(** ** The primary adapter, round by round *)

Section PrimaryRounds.
Variable net : Endpoint.
Variable parsexml : string -> result pyval.

Lemma store_loop : ∀ entries (acc : Reports) w,
  Forall (λ m, is_Some (station_of m)) entries →
  for_each entries NOAA.store acc w = (Ok (file_entries entries acc), w).
Proof.
  induction entries as [|m entries IH]; intros acc w Hall; [reflexivity|].
  apply Forall_cons in Hall as [[k Hk] Hall]. cbn [for_each file_entries fold_left].
  unfold bind, NOAA.store at 1, lift. unfold station_of in Hk |- *.
  destruct (getitem m "station_id") as [[sid| | | | |]|]; try discriminate.
  cbn. apply IH. exact Hall.
Qed.

Lemma query_first_attempt u w r :
  attempt_outcome net (sent_count w) u = Ok r →
  _query net u w = (Ok r, w ++ [Logged (LogInfoUrl u); Sent (Get u)]).
Proof.
  intros H. unfold _query. rewrite (call_query_trace net u r [] 1 w).
  - reflexivity.
  - cbn. lia.
  - intros j e [=].
  - cbn. rewrite Nat.add_0_r. exact H.
Qed.

Lemma fetch_chunk_round self acc chunk w r entries :
  let u := NOAA.URL (NOAA.subdomain self) (Py.join "," chunk) in
  attempt_outcome net (sent_count w) u = Ok r →
  NOAA.envelope parsexml (text r) = Ok entries →
  Forall (λ m, is_Some (station_of m)) entries →
  NOAA.fetch_chunk net parsexml self acc chunk w =
  (Ok (file_entries entries acc), w ++ round_events u).
Proof.
  intros u Hq Henv Hall. unfold NOAA.fetch_chunk. fold u.
  rewrite (bind_run _ _ _ _ _ (query_first_attempt u w r Hq)).
  unfold try_finally, try_except, lift, emit, bind at 1. rewrite Henv.
  rewrite store_loop by exact Hall. unfold round_events.
  rewrite <- app_assoc. reflexivity.
Qed.

Lemma rounds_loop self : ∀ (rounds : list (list string * response * list pyval))
  (acc : Reports) w,
  (∀ j chunk r entries, rounds !! j = Some (chunk, r, entries) →
     attempt_outcome net (sent_count w + j)
       (NOAA.URL (NOAA.subdomain self) (Py.join "," chunk)) = Ok r
     ∧ NOAA.envelope parsexml (text r) = Ok entries
     ∧ Forall (λ m, is_Some (station_of m)) entries) →
  for_each (map (λ round, fst (fst round)) rounds)
           (NOAA.fetch_chunk net parsexml self) acc w =
  (Ok (file_entries (concat (map snd rounds)) acc),
   w ++ concat (map (λ round,
                       round_events (NOAA.URL (NOAA.subdomain self)
                                              (Py.join "," (fst (fst round))))) rounds)).
Proof.
  induction rounds as [|[[chunk r] entries] rounds IH]; intros acc w Hrounds.
  - cbn. rewrite app_nil_r. reflexivity.
  - destruct (Hrounds 0 chunk r entries eq_refl) as (Hq & Henv & Hall).
    rewrite Nat.add_0_r in Hq. cbn [map for_each fst snd concat].
    rewrite (bind_run _ _ _ _ _ (fetch_chunk_round self acc chunk w r entries Hq Henv Hall)).
    rewrite IH.
    + unfold file_entries. rewrite fold_left_app, <- app_assoc. reflexivity.
    + intros j chunk' r' entries' Hj.
      replace (sent_count (w ++ round_events
                 (NOAA.URL (NOAA.subdomain self) (Py.join "," chunk))) + j)
        with (sent_count w + S j)
        by (rewrite sent_count_app; cbn; lia).
      apply Hrounds. exact Hj.
Qed.

End PrimaryRounds.

(** X17. When the request for every chunk is answered at the first
    attempt with an envelope whose entries all have a station id, the
    primary (or backup) adapter returns the entries of all answers,
    filed in order under their upper-cased station ids (a later entry
    for a station replacing an earlier one), and has done nothing but,
    for each chunk in turn, log the URL, send the request and pause for
    a second. *)
Theorem NOAA_retrieval (net : Endpoint) (parsexml : string -> result pyval)
  (self : NOAA.t) (w : World)
  (rounds : list (list string * response * list pyval)) :
  chunks (NOAA.airport_codes self) 250 = Ok (map (λ round, fst (fst round)) rounds) →
  (∀ j chunk r entries, rounds !! j = Some (chunk, r, entries) →
     attempt_outcome net (sent_count w + j)
       (NOAA.URL (NOAA.subdomain self) (Py.join "," chunk)) = Ok r
     ∧ NOAA.envelope parsexml (text r) = Ok entries
     ∧ Forall (λ m, is_Some (station_of m)) entries) →
  NOAA.get_metar_info net parsexml self w =
  (Ok (file_entries (concat (map snd rounds)) ∅),
   w ++ concat (map (λ round,
                       round_events (NOAA.URL (NOAA.subdomain self)
                                              (Py.join "," (fst (fst round))))) rounds)).
Proof.
  intros Hchunks Hrounds. unfold NOAA.get_metar_info.
  rewrite (bind_run _ _ w (map (λ round, fst (fst round)) rounds) w)
    by (unfold lift; rewrite Hchunks; reflexivity).
  apply rounds_loop. exact Hrounds.
Qed.

(** X17, for the two codes of the end-to-end scenario. *)
Lemma NOAA_retrieval_witness :
  NOAA.get_metar_info (replies [two_xml]) (parser_of [(two_xml, two_tree)] ExpatError)
    (NOAA.new ["KDEN"; "KJFK"]) []
  = (Ok (file_entries
           (concat (map snd [(["KDEN"; "KJFK"], {| status_code := 200; text := two_xml |},
                              [kden_entry; kjfk_entry])])) ∅),
     [] ++ concat (map (λ round : list string * response * list pyval,
                          round_events (NOAA.URL (NOAA.subdomain (NOAA.new ["KDEN"; "KJFK"]))
                                                 (Py.join "," (fst (fst round)))))
                       [(["KDEN"; "KJFK"], {| status_code := 200; text := two_xml |},
                         [kden_entry; kjfk_entry])])).
Proof.
  apply (NOAA_retrieval (replies [two_xml]) (parser_of [(two_xml, two_tree)] ExpatError)
           (NOAA.new ["KDEN"; "KJFK"]) []
           [(["KDEN"; "KJFK"], {| status_code := 200; text := two_xml |},
             [kden_entry; kjfk_entry])]).
  - reflexivity.
  - intros [|j] chunk r entries [=]. subst chunk r entries.
    split; [reflexivity|]. split; [vm_compute; reflexivity|].
    repeat constructor; vm_compute; eauto.
Defined.

(** X18. An entry that has no station id stops the retrieval of the
    primary adapter as well: the exception of the look-up comes out
    once the pause is over, the entries filed before are not returned,
    and nothing is logged about it. *)
Theorem NOAA_entry_without_station (net : Endpoint) (parsexml : string -> result pyval)
  (self : NOAA.t) (w : World)
  (before : list (list string)) (chunk : list string) (later : list (list string))
  (acc1 : Reports) (w1 : World) (resp : response) (w2 : World)
  (filed : list pyval) (m : pyval) (others : list pyval) (e : exn) :
  chunks (NOAA.airport_codes self) 250 = Ok (before ++ chunk :: later) →
  for_each before (NOAA.fetch_chunk net parsexml self) ∅ w = (Ok acc1, w1) →
  _query net (NOAA.URL (NOAA.subdomain self) (Py.join "," chunk)) w1 = (Ok resp, w2) →
  NOAA.envelope parsexml (text resp) = Ok (filed ++ m :: others) →
  Forall (λ m, is_Some (station_of m)) filed →
  getitem m "station_id" = Raise e →
  NOAA.get_metar_info net parsexml self w = (Raise e, w2 ++ [Slept 1000]).
Proof.
  intros Hchunks Hbefore Hq Henv Hfiled Hm. unfold NOAA.get_metar_info.
  rewrite (bind_run _ _ w (before ++ chunk :: later) w)
    by (unfold lift; rewrite Hchunks; reflexivity).
  eapply for_each_raise; [exact Hbefore|].
  unfold NOAA.fetch_chunk. rewrite (bind_run _ _ _ _ _ Hq).
  unfold try_finally, try_except, lift, emit, bind at 1. rewrite Henv.
  eapply for_each_raise; [apply store_loop; exact Hfiled|].
  unfold NOAA.store, lift. rewrite Hm. reflexivity.
Qed.

(** X18, for an answer whose second entry has no station id. *)
Lemma NOAA_entry_without_station_witness :
  ∃ w2,
    NOAA.get_metar_info (replies [anonymous_xml])
      (parser_of [(anonymous_xml, anonymous_tree)] ExpatError)
      (NOAA.new ["KDEN"; "KJFK"]) []
    = (Raise (KeyError "station_id"), w2 ++ [Slept 1000]).
Proof.
  eexists.
  eapply (NOAA_entry_without_station (replies [anonymous_xml])
            (parser_of [(anonymous_xml, anonymous_tree)] ExpatError)
            (NOAA.new ["KDEN"; "KJFK"]) [] [] ["KDEN"; "KJFK"] [] ∅ []
            {| status_code := 200; text := anonymous_xml |} _
            [kden_entry] anonymous_entry []).
  - reflexivity.
  - reflexivity.
  - vm_compute. reflexivity.
  - vm_compute. reflexivity.
  - repeat constructor. vm_compute. eauto.
  - reflexivity.
Defined.

(** X19. With no code at all, the primary adapter returns the empty
    mapping and sends nothing, whatever the state of the provider,
    whereas the HTML-scrape adapter still posts its search, with an
    empty keyword. *)
Theorem no_codes (net : Endpoint) (parsexml : string -> result pyval)
  (subdomain : string) (w : World) :
  NOAA.get_metar_info net parsexml (NOAA.__init__ [] subdomain) w = (Ok ∅, w)
  ∧ requests_of (snd (BOM.get_metar_info net (BOM.__init__ []) w))
    = requests_of w ++ [Post BOM.URL [("keyword", PStr ""); ("type", PStr "search");
                                      ("page", PStr "TAF")]].
Proof.
  split; [reflexivity|]. rewrite BOM_run. cbv zeta.
  destruct (net _ _); cbn [snd]; rewrite requests_of_app; reflexivity.
Qed.

(** ** A report at the head of the text *)

Lemma lazy_until_finds stops tail rest : ∀ body,
  Py.has_char Re.newline body = false →
  (∀ b1 b2, body = (b1 ++ b2)%string → b2 ≠ "" →
            Re.alternatives stops (b2 ++ tail) = None) →
  Re.alternatives stops tail = Some rest →
  Re.lazy_until stops (body ++ tail) = Some (body, rest).
Proof.
  induction body as [|c body IH]; intros Hnl Hfree Htail.
  - change ("" ++ tail)%string with tail.
    destruct tail; cbn; rewrite Htail; reflexivity.
  - pose proof (Hfree "" (String c body) eq_refl ltac:(discriminate)) as Hhere.
    change (String c body ++ tail)%string with (String c (body ++ tail)%string) in *.
    cbn [Re.lazy_until]. rewrite Hhere.
    cbn in Hnl. apply orb_false_elim in Hnl as [Hc Hnl]. rewrite Hc.
    rewrite IH; [reflexivity|exact Hnl| |exact Htail].
    intros b1 b2 -> Hb2. apply (Hfree (String c b1) b2); [reflexivity|exact Hb2].
Qed.

Lemma literal_finds p s : Re.literal p (p ++ s) = Some s.
Proof.
  induction p as [|a p IH]; [destruct s; reflexivity|].
  change (String a p ++ s)%string with (String a (p ++ s)%string). cbn.
  rewrite Ascii.eqb_refl. exact IH.
Qed.

(** X20. A text that begins with [METAR ] or [SPECI ], four word
    characters, and then a stretch without line break up to the first
    stop of the adapter, has that report as its first match, and the
    search goes on behind the stop. *)
Theorem finditer_finds (stops : list string) (marker : string) (a b c d : ascii)
  (body tail rest : string) :
  marker ∈ ["METAR "; "SPECI "] →
  Re.is_word a && Re.is_word b && Re.is_word c && Re.is_word d = true →
  Py.has_char Re.newline body = false →
  (∀ b1 b2, body = (b1 ++ b2)%string → b2 ≠ "" →
            Re.alternatives stops (b2 ++ tail) = None) →
  Re.alternatives stops tail = Some rest →
  let code := String a (String b (String c (String d ""))) in
  Re.finditer stops (marker ++ code ++ body ++ tail)
  = {| Re.CODE := code; Re.METAR := code ++ body; Re.after := rest |}
    :: Re.finditer stops rest.
Proof.
  intros Hmarker Hword Hnl Hfree Htail code. rewrite finditer_step.
  assert (Hhere : Re.match_here stops (marker ++ code ++ body ++ tail)
                  = Some {| Re.CODE := code; Re.METAR := code ++ body; Re.after := rest |}).
  { unfold Re.match_here.
    assert (Halt : Re.alternatives ["METAR "; "SPECI "] (marker ++ code ++ body ++ tail)
                   = Some (code ++ body ++ tail)%string).
    { apply elem_of_cons in Hmarker as [->|Hmarker].
      - cbn [Re.alternatives]. rewrite literal_finds. reflexivity.
      - apply elem_of_cons in Hmarker as [->|Hmarker]; [|inversion Hmarker].
        cbn [Re.alternatives].
        change (Re.literal "METAR " ("SPECI " ++ code ++ body ++ tail)) with (@None string).
        rewrite literal_finds. reflexivity. }
    rewrite Halt. unfold code.
    change (String a (String b (String c (String d "")))
            ++ body ++ tail)%string
      with (String a (String b (String c (String d (body ++ tail)%string)))).
    cbn [Re.code4]. rewrite Hword.
    rewrite (lazy_until_finds stops tail rest body Hnl Hfree Htail). reflexivity. }
  rewrite Hhere. reflexivity.
Qed.

(** X20, on the page of the end-to-end scenario of the HTML-scrape adapter. *)
Lemma finditer_finds_witness :
  Re.finditer BOM.stops ("METAR " ++ "YSSY" ++ " 221856Z ..." ++ "<br />")
  = {| Re.CODE := "YSSY"; Re.METAR := "YSSY" ++ " 221856Z ..."; Re.after := "" |}
    :: Re.finditer BOM.stops "".
Proof.
  apply (finditer_finds BOM.stops "METAR " "Y" "S" "S" "Y" " 221856Z ..." "<br />" "").
  - left.
  - reflexivity.
  - reflexivity.
  - intros b1 b2 Hsplit Hne.
    destruct (Re.alternatives BOM.stops (b2 ++ "<br />")) as [r|] eqn:E; [|reflexivity].
    exfalso. apply alternatives_split in E as (p & Hp & Heq).
    destruct b2 as [|x b2]; [congruence|].
    change (String x b2 ++ "<br />")%string with (String x (b2 ++ "<br />")%string) in Heq.
    assert (x = "<"%char) as ->.
    { apply elem_of_cons in Hp as [->|Hp].
      - change ("<br />" ++ r)%string with (String "<" ("br />" ++ r)%string) in Heq.
        congruence.
      - apply elem_of_cons in Hp as [->|Hp]; [|inversion Hp].
        change ("<h3>" ++ r)%string with (String "<" ("h3>" ++ r)%string) in Heq.
        congruence. }
    assert (Hno : Py.has_char "<" (b1 ++ String "<" b2) = true).
    { rewrite has_char_append. cbn. apply orb_true_r. }
    rewrite <- Hsplit in Hno. discriminate.
  - reflexivity.
Defined.

(** ** Few codes *)

(** X21. A sequence that is not empty and no longer than the chunk
    size makes one chunk, itself: up to 250 codes go to the primary
    provider in one request. *)
Theorem chunks_single {A} (l : list A) (n : Z) :
  l ≠ [] →
  (Z.of_nat (length l) <= n)%Z →
  chunks l n = Ok [l].
Proof.
  intros Hne Hlen. destruct l as [|x l]; [congruence|].
  destruct (Z.to_nat n) as [|s] eqn:Hs; [cbn in Hlen; lia|].
  assert (n = Z.of_nat (S s)) as -> by lia.
  rewrite chunks_pos.
  assert (Hone : (length (x :: l) + s) / S s = 1).
  { symmetry. apply (Nat.div_unique _ _ 1 (length l)); cbn [length] in *; lia. }
  rewrite Hone. cbn [seq map]. unfold Py.slice. cbn [Nat.mul Nat.add skipn].
  rewrite Nat.sub_0_r. rewrite firstn_all2 by lia. reflexivity.
Qed.

(** X21, for two codes and the chunk size of the primary adapter. *)
Lemma chunks_single_witness : chunks ["KDEN"; "KJFK"] 250 = Ok [["KDEN"; "KJFK"]].
Proof.
  apply (chunks_single ["KDEN"; "KJFK"] 250).
  - discriminate.
  - cbn. lia.
Defined.

(** * The keys and the case of the codes *)

(** ** What the primary adapter files *)

Section PrimaryFiling.
Variable net : Endpoint.
Variable parsexml : string -> result pyval.

Lemma attempt_ok_reply n u r :
  attempt_outcome net n u = Ok r → net n (Get u) = Replied r.
Proof.
  unfold attempt_outcome. destruct (net n (Get u)) as [r0|e]; [|discriminate].
  destruct (_ && _); [discriminate|]. intros [= ->]. reflexivity.
Qed.

(** A response [_query] returns is an answer of the endpoint to a
    request for that URL. *)
Lemma call_query_ok u r : ∀ d n w w',
  n + d = 10 →
  call query_policy (query_body net u) n w = (Ok r, w') →
  ∃ j, net j (Get u) = Replied r.
Proof.
  induction d as [|d IH]; intros n w w' Hn; rewrite call_step, query_body_run.
  - destruct (attempt_outcome net (sent_count w) u) as [r0|e] eqn:E.
    + intros [= -> _]. eexists. apply attempt_ok_reply. exact E.
    + destruct (le_lt_dec _ n) as [_|Hgo]; [discriminate|cbn in Hgo; lia].
  - destruct (attempt_outcome net (sent_count w) u) as [r0|e] eqn:E.
    + intros [= -> _]. eexists. apply attempt_ok_reply. exact E.
    + destruct (le_lt_dec _ n) as [_|_]; [discriminate|].
      apply IH. lia.
Qed.

Lemma station_of_spec m k :
  station_of m = Some k ↔
  ∃ sid, getitem m "station_id" = Ok (PStr sid) ∧ Py.upper sid = k.
Proof.
  unfold station_of. split.
  - destruct (getitem m "station_id") as [[sid| | | | |]|]; try discriminate.
    intros [= <-]. eauto.
  - intros (sid & -> & <-). reflexivity.
Qed.

Lemma store_loop_inv : ∀ entries (acc : Reports) w acc' w',
  for_each entries NOAA.store acc w = (Ok acc', w') →
  acc' = file_entries entries acc ∧ Forall (λ m, is_Some (station_of m)) entries.
Proof.
  induction entries as [|m entries IH]; intros acc w acc' w'; cbn [for_each].
  - unfold ret. intros [= <- _]. split; [reflexivity|constructor].
  - intros H. apply bind_ok in H as (a & w1 & Hstore & Hrest).
    unfold NOAA.store, lift in Hstore.
    destruct (getitem m "station_id") as [[sid| | | | |]|] eqn:Hsid; try discriminate.
    cbn in Hstore. injection Hstore as <- <-.
    destruct (IH _ _ _ _ Hrest) as [-> Hall]. split.
    + unfold file_entries. cbn [fold_left]. unfold station_of. rewrite Hsid. reflexivity.
    + constructor; [|exact Hall]. unfold station_of. rewrite Hsid. eauto.
Qed.

Lemma fetch_chunk_ok_inv self acc chunk w acc' w' :
  NOAA.fetch_chunk net parsexml self acc chunk w = (Ok acc', w') →
  ∃ r entries,
    (∃ n, net n (Get (NOAA.URL (NOAA.subdomain self) (Py.join "," chunk))) = Replied r)
    ∧ NOAA.envelope parsexml (text r) = Ok entries
    ∧ acc' = file_entries entries acc
    ∧ Forall (λ m, is_Some (station_of m)) entries.
Proof.
  unfold NOAA.fetch_chunk. intros H.
  apply bind_ok in H as (r & w1 & Hq & H).
  apply bind_ok in H as (entries & w2 & Htry & H).
  exists r, entries. split.
  { unfold _query in Hq. eapply (call_query_ok _ r 9 1); [reflexivity|exact Hq]. }
  unfold try_finally, try_except, lift, emit, bind, raise in Htry.
  destruct (NOAA.envelope parsexml (text r)) as [es|e]; [|discriminate].
  injection Htry as <- _. split; [reflexivity|].
  eapply store_loop_inv. exact H.
Qed.

Lemma chunks_loop_inv self : ∀ groups (acc : Reports) w acc' w',
  for_each groups (NOAA.fetch_chunk net parsexml self) acc w = (Ok acc', w') →
  ∃ rounds : list (list string * response * list pyval),
    map (λ round, fst (fst round)) rounds = groups
    ∧ (∀ chunk r entries, (chunk, r, entries) ∈ rounds →
         (∃ n, net n (Get (NOAA.URL (NOAA.subdomain self) (Py.join "," chunk))) = Replied r)
         ∧ NOAA.envelope parsexml (text r) = Ok entries)
    ∧ acc' = file_entries (concat (map snd rounds)) acc
    ∧ Forall (λ m, is_Some (station_of m)) (concat (map snd rounds)).
Proof.
  induction groups as [|chunk groups IH]; intros acc w acc' w'; cbn [for_each].
  - unfold ret. intros [= <- _]. exists []. split; [reflexivity|].
    split; [intros ? ? ? H; inversion H|]. split; [reflexivity|constructor].
  - intros H. apply bind_ok in H as (a & w1 & Hchunk & Hrest).
    apply fetch_chunk_ok_inv in Hchunk as (r & entries & Hr & Henv & -> & Hall).
    destruct (IH _ _ _ _ Hrest) as (rounds & Hmap & Hrounds & -> & Hall').
    exists ((chunk, r, entries) :: rounds). split; [cbn; rewrite Hmap; reflexivity|].
    split; [|split].
    + intros c r' es [[= -> -> ->]|Hin]%elem_of_cons; [split; assumption|].
      apply Hrounds. exact Hin.
    + cbn [map snd concat]. unfold file_entries. rewrite fold_left_app. reflexivity.
    + cbn [map snd concat]. apply Forall_app. split; assumption.
Qed.

End PrimaryFiling.

Lemma file_entries_lookup : ∀ entries (acc : Reports) k m,
  file_entries entries acc !! k = Some m →
  acc !! k = Some m ∨ (m ∈ entries ∧ station_of m = Some k).
Proof.
  induction entries as [|m0 entries IH]; intros acc k m; [left; assumption|].
  unfold file_entries. cbn [fold_left]. intros H.
  apply IH in H as [H|[Hin Hk]]; [|right; split; [right|]; assumption].
  destruct (station_of m0) as [k0|] eqn:E; [|left; exact H].
  rewrite lookup_insert in H. case_decide as Hd.
  - injection H as <-. subst k0. right. split; [left|exact E].
  - left. exact H.
Qed.

Lemma file_entries_keeps : ∀ entries (acc : Reports) k,
  is_Some (acc !! k) → is_Some (file_entries entries acc !! k).
Proof.
  induction entries as [|m0 entries IH]; intros acc k Hk; [exact Hk|].
  unfold file_entries. cbn [fold_left]. apply IH.
  destruct (station_of m0); [|exact Hk]. rewrite lookup_insert. case_decide; eauto.
Qed.

Lemma file_entries_filed : ∀ entries (acc : Reports) m k,
  m ∈ entries → station_of m = Some k → is_Some (file_entries entries acc !! k).
Proof.
  induction entries as [|m0 entries IH]; intros acc m k Hin Hk; [inversion Hin|].
  unfold file_entries. cbn [fold_left].
  apply elem_of_cons in Hin as [->|Hin].
  - rewrite Hk. apply file_entries_keeps. rewrite lookup_insert_eq. eauto.
  - eapply IH; eassumption.
Qed.

(** C1 (amended). The geographic adapter returns keys of its own
    upper-cased code set only.  The other adapters do not compare the
    response with the request.  A successful retrieval of the primary
    or backup adapter has, for the chunks of its codes in turn, an
    answer of the provider whose envelope was read: every entry of
    those answers has a station id and is filed under it, upper-cased,
    the keys of the result are exactly those station ids, and every
    record of the result is one of those entries.  The two scraping
    adapters have one key for every code matched in the page,
    upper-cased, and the rendered-page adapter, which takes no codes,
    has the one key KO61. *)
Theorem result_keys_scope :
  (∀ csv_rows float_of_str codes self net parsejson w metars w' k,
     SkyVector.__init__ csv_rows float_of_str codes = Ok self →
     SkyVector.get_metar_info net parsejson self w = (Ok metars, w') →
     is_Some (metars !! k) →
     k ∈ map Py.upper codes)
  ∧ (∀ net parsexml self w metars w',
       NOAA.get_metar_info net parsexml self w = (Ok metars, w') →
       keyed_by_station metars
       ∧ ∃ rounds : list (list string * response * list pyval),
           chunks (NOAA.airport_codes self) 250
             = Ok (map (λ round, fst (fst round)) rounds)
           ∧ (∀ chunk r entries, (chunk, r, entries) ∈ rounds →
                (∃ n, net n (Get (NOAA.URL (NOAA.subdomain self) (Py.join "," chunk)))
                      = Replied r)
                ∧ NOAA.envelope parsexml (text r) = Ok entries)
           ∧ (∀ m, m ∈ concat (map snd rounds) →
                ∃ sid, getitem m "station_id" = Ok (PStr sid)
                       ∧ is_Some (metars !! Py.upper sid))
           ∧ (∀ k, is_Some (metars !! k) ↔
                ∃ m sid, m ∈ concat (map snd rounds)
                         ∧ getitem m "station_id" = Ok (PStr sid)
                         ∧ Py.upper sid = k)
           ∧ (∀ k m, metars !! k = Some m → m ∈ concat (map snd rounds)))
  ∧ (∀ net self w metars w' k,
       BOM.get_metar_info net self w = (Ok metars, w') →
       ∃ r, net (sent_count w) (Post BOM.URL (BOM.payload self)) = Replied r
            ∧ (is_Some (metars !! k) ↔
               ∃ m, m ∈ Re.finditer BOM.stops (text r) ∧ Py.upper (Re.CODE m) = k))
  ∧ (∀ net self w metars w' k,
       IFIS.get_metar_info net self w = (Ok metars, w') →
       ∃ r, net (S (sent_count w)) (Post IFIS.URL (IFIS.data_payload self)) = Replied r
            ∧ (is_Some (metars !! k) ↔
               ∃ m, m ∈ Re.finditer IFIS.stops (text r) ∧ Py.upper (Re.CODE m) = k))
  ∧ (∀ b w metars w' k,
       KO61.get_metar_info b w = (Ok (Some metars), w') →
       (is_Some (metars !! k) ↔ k = "KO61")).
Proof.
  split; [|split; [|split; [|split]]].
  - intros csv_rows float_of_str codes self net parsejson w metars w' k Hinit Hrun Hk.
    destruct (SkyVector_keys _ _ _ _ _ _ _ Hrun Hk) as (s & Hs & ->).
    rewrite (SkyVector_init_codes _ _ _ _ Hinit) in Hs.
    apply list_elem_of_fmap in Hs as (c & -> & Hc).
    rewrite upper_idem. apply list_elem_of_fmap. eauto.
  - intros net parsexml self w metars w' Hrun.
    split; [eapply NOAA_keyed; exact Hrun|].
    unfold NOAA.get_metar_info in Hrun.
    apply bind_ok in Hrun as (groups & w0 & Hgroups & Hrun).
    unfold lift in Hgroups.
    destruct (chunks (NOAA.airport_codes self) 250) as [g|e] eqn:Hchunks;
      [|discriminate].
    injection Hgroups as Hg Hw. subst g w0.
    apply chunks_loop_inv in Hrun as (rounds & Hmap & Hrounds & -> & Hall).
    exists rounds. split; [rewrite Hmap; reflexivity|]. split; [exact Hrounds|].
    split; [|split].
    + intros m Hm. pose proof (proj1 (Forall_forall _ _) Hall m Hm) as [k Hk].
      pose proof Hk as Hk'. apply station_of_spec in Hk' as (sid & Hsid & <-).
      exists sid. split; [exact Hsid|]. eapply file_entries_filed; eassumption.
    + intros k. split.
      * intros [m Hm]. apply file_entries_lookup in Hm as [H0|[Hin Hk]].
        -- rewrite lookup_empty in H0. discriminate.
        -- apply station_of_spec in Hk as (sid & Hsid & Hup). eauto.
      * intros (m & sid & Hin & Hsid & Hup). eapply file_entries_filed; [exact Hin|].
        apply station_of_spec. eauto.
    + intros k m Hm. apply file_entries_lookup in Hm as [H0|[Hin _]]; [|exact Hin].
      rewrite lookup_empty in H0. discriminate.
  - intros net self w metars w' k. rewrite BOM_run. cbv zeta.
    destruct (net _ _) as [r|e]; [|discriminate].
    intros [= <- _]. exists r. split; [reflexivity|apply collect_key_iff].
  - intros net self w metars w' k. rewrite IFIS_run. cbv zeta.
    destruct (net (sent_count w) _) as [r0|e]; [|discriminate].
    destruct (net (S (sent_count w)) _) as [r|e]; [|discriminate].
    intros [= <- _]. exists r. split; [reflexivity|apply collect_key_iff].
  - intros b w metars w' k Hrun.
    apply KO61_returns in Hrun as [txt ->].
    rewrite lookup_singleton_is_Some. split; congruence.
Qed.

(** C1, at a geographic adapter for KDEN whose box also holds KFNL, and
    at a primary adapter for KDEN whose answer also holds KJFK. *)
Lemma result_keys_scope_witness :
  (∃ self metars w',
     SkyVector.__init__ (Ok airports_csv) Decimal.to_float ["kden"] = Ok self
     ∧ SkyVector.get_metar_info (replies [denver_json])
         (parser_of [(denver_json, denver_tree)] JSONDecodeError) self []
       = (Ok metars, w')
     ∧ is_Some (metars !! "KDEN")
     ∧ metars !! "KFNL" = None
     ∧ "KDEN" ∈ map Py.upper ["kden"])
  ∧ (∃ metars w',
       NOAA.get_metar_info (replies [two_xml])
         (parser_of [(two_xml, two_tree)] ExpatError) (NOAA.new ["KDEN"]) []
       = (Ok metars, w')
       ∧ is_Some (metars !! "KJFK")
       ∧ keyed_by_station metars
       ∧ ∃ rounds : list (list string * response * list pyval),
           chunks (NOAA.airport_codes (NOAA.new ["KDEN"])) 250
             = Ok (map (λ round, fst (fst round)) rounds)
           ∧ (∀ chunk r entries, (chunk, r, entries) ∈ rounds →
                (∃ n, replies [two_xml] n
                        (Get (NOAA.URL (NOAA.subdomain (NOAA.new ["KDEN"]))
                                (Py.join "," chunk)))
                      = Replied r)
                ∧ NOAA.envelope (parser_of [(two_xml, two_tree)] ExpatError) (text r)
                  = Ok entries)
           ∧ (∀ m, m ∈ concat (map snd rounds) →
                ∃ sid, getitem m "station_id" = Ok (PStr sid)
                       ∧ is_Some (metars !! Py.upper sid))
           ∧ (∀ k, is_Some (metars !! k) ↔
                ∃ m sid, m ∈ concat (map snd rounds)
                         ∧ getitem m "station_id" = Ok (PStr sid)
                         ∧ Py.upper sid = k)
           ∧ (∀ k m, metars !! k = Some m → m ∈ concat (map snd rounds))).
Proof.
  split.
  - eexists. eexists. eexists.
    split; [vm_compute; reflexivity|]. split; [vm_compute; reflexivity|].
    split; [vm_compute; eauto|]. split; [vm_compute; reflexivity|].
    eapply (proj1 result_keys_scope (Ok airports_csv) Decimal.to_float ["kden"] _
              (replies [denver_json])
              (parser_of [(denver_json, denver_tree)] JSONDecodeError) [] _ _ "KDEN").
    + vm_compute. reflexivity.
    + vm_compute. reflexivity.
    + vm_compute. eauto.
  - eexists. eexists.
    split; [vm_compute; reflexivity|]. split; [vm_compute; eauto|].
    eapply (proj1 (proj2 result_keys_scope) (replies [two_xml])
              (parser_of [(two_xml, two_tree)] ExpatError) (NOAA.new ["KDEN"]) []).
    vm_compute. reflexivity.
Defined.

(** ** The codes in the requests *)

Section PrimaryCodes.
Variable net : Endpoint.
Variable parsexml : string -> result pyval.

Lemma query_requests u w :
  ∃ k, requests_of (snd (_query net u w)) = requests_of w ++ repeat (Get u) (S k).
Proof.
  unfold _query.
  destruct (call_query_bounded net u 9 1 w eq_refl) as (r & w' & k & E & _ & _ & Hreq & _).
  rewrite E. exists k. exact Hreq.
Qed.

(** Whatever its outcome, a round sends requests for the URL of its
    chunk only, and at least one. *)
Lemma fetch_chunk_requests self acc chunk w :
  ∃ k, requests_of (snd (NOAA.fetch_chunk net parsexml self acc chunk w))
       = requests_of w
         ++ repeat (Get (NOAA.URL (NOAA.subdomain self) (Py.join "," chunk))) (S k).
Proof.
  unfold NOAA.fetch_chunk. cbv zeta.
  destruct (query_requests (NOAA.URL (NOAA.subdomain self) (Py.join "," chunk)) w)
    as [k Hk].
  exists k. unfold bind at 1.
  destruct (_query net _ w) as [[r|e] w1]; cbn [snd] in Hk; [|exact Hk].
  unfold bind, try_finally, try_except, lift, emit, raise.
  destruct (NOAA.envelope parsexml (text r)) as [entries|e]; cbn [snd fst].
  - rewrite (for_each_pure NOAA.store entries) by reflexivity.
    rewrite requests_of_app, Hk. cbn. rewrite app_nil_r. reflexivity.
  - rewrite !requests_of_app, Hk. cbn. rewrite !app_nil_r. reflexivity.
Qed.

Lemma chunks_loop_requests self : ∀ groups acc w,
  ∃ sent,
    requests_of (snd (for_each groups (NOAA.fetch_chunk net parsexml self) acc w))
    = requests_of w ++ sent
    ∧ (∀ rq, rq ∈ sent →
         ∃ chunk, chunk ∈ groups
                  ∧ rq = Get (NOAA.URL (NOAA.subdomain self) (Py.join "," chunk)))
    ∧ (∀ first rest, groups = first :: rest →
         ∃ tail, sent = Get (NOAA.URL (NOAA.subdomain self) (Py.join "," first)) :: tail).
Proof.
  induction groups as [|chunk groups IH]; intros acc w; cbn [for_each].
  - exists []. cbn. rewrite app_nil_r. split; [reflexivity|].
    split; [intros rq H; inversion H|intros ? ? [=]].
  - destruct (fetch_chunk_requests self acc chunk w) as [k Hk].
    unfold bind. destruct (NOAA.fetch_chunk net parsexml self acc chunk w) as [[a|e] w1];
      cbn [snd] in Hk.
    + destruct (IH a w1) as (sent & Hsent & Hall & _).
      exists (repeat (Get (NOAA.URL (NOAA.subdomain self) (Py.join "," chunk))) (S k)
              ++ sent).
      split; [rewrite Hsent, Hk, app_assoc; reflexivity|]. split.
      * intros rq [Hrq|Hrq]%elem_of_app.
        -- exists chunk. split; [left|].
           apply list_elem_of_In, repeat_spec in Hrq. exact Hrq.
        -- destruct (Hall rq Hrq) as (c & Hc & ->). exists c. split; [right; exact Hc|].
           reflexivity.
      * intros first rest [= <- _]. eexists. reflexivity.
    + exists (repeat (Get (NOAA.URL (NOAA.subdomain self) (Py.join "," chunk))) (S k)).
      split; [exact Hk|]. split.
      * intros rq Hrq. exists chunk. split; [left|].
        apply list_elem_of_In, repeat_spec in Hrq. exact Hrq.
      * intros first rest [= <- _]. eexists. reflexivity.
Qed.

End PrimaryCodes.

Lemma accepted_codes_upper :
  Forall (λ code, Py.upper code = code) IFIS.ACCEPTED_CODES.
Proof. repeat constructor. Qed.

(** C5 (amended). Every adapter upper-cases the keys of its result.
    Of the requested codes, only the geographic adapter makes upper
    case: constructed with a lower-cased or an upper-cased set it is
    the same adapter, with the same request and the same results.  The
    others use the codes as they were given.  The primary and backup
    adapters keep them, and every request of a retrieval, whatever its
    outcome, is for the URL that ends in the codes of one chunk joined
    by commas, the first request being that of the first chunk; the
    HTML-scrape adapter posts them, joined by commas, as its keyword;
    the authenticated-scrape adapter keeps the codes that are, as
    given, in its allow-list, which holds upper-case codes only, and
    posts them joined by blanks. *)
Theorem case_canonicalisation :
  (∀ csv_rows float_of_str codes,
     SkyVector.__init__ csv_rows float_of_str (map Py.lower codes) =
     SkyVector.__init__ csv_rows float_of_str (map Py.upper codes))
  ∧ (∀ net w w' metars k,
       (∃ parsexml self, NOAA.get_metar_info net parsexml self w = (Ok metars, w'))
       ∨ (∃ parsejson self, SkyVector.get_metar_info net parsejson self w = (Ok metars, w'))
       ∨ (∃ self, BOM.get_metar_info net self w = (Ok metars, w'))
       ∨ (∃ self, IFIS.get_metar_info net self w = (Ok metars, w'))
       ∨ (∃ b, KO61.get_metar_info b w = (Ok (Some metars), w')) →
       is_Some (metars !! k) →
       Py.upper k = k)
  ∧ (∀ codes,
       NOAA.airport_codes (NOAA.new codes) = codes
       ∧ NOAA.airport_codes (NOAABackup.new codes) = codes
       ∧ BOM.airport_codes (BOM.__init__ codes) = Py.join "," codes)
  ∧ (∀ net parsexml codes sub w groups,
       chunks codes 250 = Ok groups →
       let url_of (chunk : list string) :=
         Url ("https://" ++ sub ++
              ".aviationweather.gov/adds/dataserver_current/httpparam" ++
              "?dataSource=metars" ++
              "&requestType=retrieve" ++
              "&format=xml" ++
              "&hoursBeforeNow=2" ++
              "&mostRecentForEachStation=true" ++
              "&stationString=" ++ Py.join "," chunk)%string in
       ∃ sent,
         requests_of (snd (NOAA.get_metar_info net parsexml (NOAA.__init__ codes sub) w))
         = requests_of w ++ sent
         ∧ (∀ rq, rq ∈ sent → ∃ chunk, chunk ∈ groups ∧ rq = Get (url_of chunk))
         ∧ (∀ first rest, groups = first :: rest →
              ∃ tail, sent = Get (url_of first) :: tail))
  ∧ (∀ net codes w,
       requests_of (snd (BOM.get_metar_info net (BOM.__init__ codes) w))
       = requests_of w
         ++ [Post (Url "http://www.bom.gov.au/aviation/php/process.php")
               [("keyword", PStr (Py.join "," codes));
                ("type", PStr "search");
                ("page", PStr "TAF")]])
  ∧ (∀ codes config self,
       IFIS.__init__ codes config = Ok self →
       let kept := filter (λ code, code ∈ IFIS.ACCEPTED_CODES) codes in
       let data :=
         Post (Url "https://www.ifis.airways.co.nz/script/briefing/met_briefing_proc.asp")
           [("METAR", PNum 1); ("MetLocations", PStr (Py.join " " kept))] in
       IFIS.data_payload self
       = [("METAR", PNum 1); ("MetLocations", PStr (Py.join " " kept))]
       ∧ (∀ code, code ∈ kept → Py.upper code = code)
       ∧ (∀ net w,
            ∃ login,
              requests_of (snd (IFIS.get_metar_info net self w))
              = requests_of w ++ [login]
              ∨ requests_of (snd (IFIS.get_metar_info net self w))
                = requests_of w ++ [login; data])).
Proof.
  split; [|split; [|split; [|split; [|split]]]].
  - intros csv_rows float_of_str codes. unfold SkyVector.__init__.
    rewrite !map_map.
    rewrite (map_ext (λ c, Py.upper (Py.lower c)) Py.upper) by apply upper_lower.
    rewrite (map_ext (λ c, Py.upper (Py.upper c)) Py.upper) by apply upper_idem.
    reflexivity.
  - intros net w w' metars k Hrun [v Hk].
    destruct Hrun
      as [(px & self & H)|[(pj & self & H)|[(self & H)|[(self & H)|(b & H)]]]].
    + apply NOAA_keyed in H. destruct (H k v Hk) as (sid & _ & <-). apply upper_idem.
    + destruct (SkyVector_keys _ _ _ _ _ _ k H (ex_intro _ v Hk)) as (s & _ & ->).
      apply upper_idem.
    + apply BOM_returns in H as [body ->].
      apply collect_lookup in Hk as (m & _ & <- & _). apply upper_idem.
    + apply IFIS_returns in H as [body ->].
      apply collect_lookup in Hk as (m & _ & <- & _). apply upper_idem.
    + apply KO61_returns in H as [txt ->].
      apply lookup_singleton_Some in Hk as [<- _]. reflexivity.
  - intros codes. repeat split.
  - intros net parsexml codes sub w groups Hgroups url_of.
    unfold NOAA.get_metar_info, bind, lift. cbn [NOAA.airport_codes NOAA.__init__].
    rewrite Hgroups.
    destruct (chunks_loop_requests net parsexml (NOAA.__init__ codes sub) groups ∅ w)
      as (sent & Hsent & Hall & Hfirst).
    exists sent. split; [exact Hsent|]. split; [exact Hall|exact Hfirst].
  - intros net codes w. rewrite BOM_run. cbv zeta.
    destruct (net _ _); cbn [snd]; rewrite requests_of_app; reflexivity.
  - intros codes config self Hinit kept data.
    assert (Hkept : filter (λ code, Py.str_in code IFIS.ACCEPTED_CODES = true) codes = kept).
    { apply list_filter_iff. intros code. apply str_in_elem. }
    unfold IFIS.__init__ in Hinit. cbv zeta in Hinit. rewrite Hkept in Hinit.
    destruct (IFIS.config_get config "ifis" "username") as [u|e]; [|discriminate].
    destruct (IFIS.config_get config "ifis" "password") as [p|e]; [|discriminate].
    cbn in Hinit. injection Hinit as <-. split; [reflexivity|]. split.
    + intros code [Hacc _]%list_elem_of_filter.
      exact (proj1 (Forall_forall _ _) accepted_codes_upper code Hacc).
    + intros net w. eexists. rewrite IFIS_run. cbv zeta.
      destruct (net (sent_count w) _) as [r0|e].
      * right. destruct (net (S (sent_count w)) _) as [r|e];
          cbn [snd]; rewrite requests_of_app; reflexivity.
      * left. cbn [snd]. rewrite requests_of_app. reflexivity.
Qed.

(** C5, at the geographic adapter for two codes, at a primary adapter
    and an HTML-scrape adapter for a lower-case code, and at an
    authenticated-scrape adapter for a code spelled in both cases. *)
Lemma case_canonicalisation_witness :
  SkyVector.__init__ (Ok airports_csv) Decimal.to_float (map Py.lower ["KDEN"; "Kjfk"])
  = SkyVector.__init__ (Ok airports_csv) Decimal.to_float (map Py.upper ["KDEN"; "Kjfk"])
  ∧ (∃ sent,
       requests_of (snd (NOAA.get_metar_info (replies [kden_xml])
                           (parser_of [(kden_xml, kden_tree)] ExpatError)
                           (NOAA.__init__ ["kden"] "www") []))
       = requests_of [] ++ sent
       ∧ ∃ tail,
           sent = Get (Url "https://www.aviationweather.gov/adds/dataserver_current/httpparam?dataSource=metars&requestType=retrieve&format=xml&hoursBeforeNow=2&mostRecentForEachStation=true&stationString=kden")
                  :: tail)
  ∧ requests_of (snd (BOM.get_metar_info (replies ["<html></html>"])
                        (BOM.__init__ ["yssy"; "YMML"]) []))
    = [Post (Url "http://www.bom.gov.au/aviation/php/process.php")
         [("keyword", PStr "yssy,YMML"); ("type", PStr "search"); ("page", PStr "TAF")]]
  ∧ (∃ self,
       IFIS.__init__ ["nzwn"; "NZWN"; "KDEN"]
         {["ifis" := {["username" := "u"; "password" := "p"]}]} = Ok self
       ∧ IFIS.data_payload self = [("METAR", PNum 1); ("MetLocations", PStr "NZWN")]).
Proof.
  split; [|split; [|split]].
  - apply (proj1 case_canonicalisation (Ok airports_csv) Decimal.to_float ["KDEN"; "Kjfk"]).
  - destruct (proj1 (proj2 (proj2 (proj2 case_canonicalisation)))
                (replies [kden_xml]) (parser_of [(kden_xml, kden_tree)] ExpatError)
                ["kden"] "www" [] [["kden"]] eq_refl)
      as (sent & Hsent & _ & Hfirst).
    exists sent. split; [exact Hsent|]. exact (Hfirst ["kden"] [] eq_refl).
  - exact (proj1 (proj2 (proj2 (proj2 (proj2 case_canonicalisation))))
             (replies ["<html></html>"]) ["yssy"; "YMML"] []).
  - eexists. split; [vm_compute; reflexivity|].
    refine (proj1 (proj2 (proj2 (proj2 (proj2 (proj2 case_canonicalisation))))
                     ["nzwn"; "NZWN"; "KDEN"]
                     {["ifis" := {["username" := "u"; "password" := "p"]}]} _ _)).
    vm_compute. reflexivity.
Defined.
